(** * async_dfd: a shallow embedding of the dataflow engine

    The definitions follow the layout of the Python package:

    - values, exceptions and dictionaries shared by every module;
    - [Config]: [async_dfd/__init__.py] and the option precedence of
      [Node.__init__];
    - [Retry]: [Node._error_decorator], with tenacity's retrying call;
    - [Node]: [node/node.py], the node, its generator-backed fetch, the
      worker loop, routing, start-up and shut-down;
    - [Graph]: [graph/graph.py], the topological start order;
    - [IterablePipeline]: [pipeline/label_pipeline/iterable_pipeline.py],
      the scatter/gather bookkeeping.

    The properties come after the definitions, in the same order of
    modules.

    Python objects are modelled by value.  A function that can raise returns
    a sum [pyexn + A]; a method that also mutates its object runs in the
    state-and-exception monad [Py], where the mutations made before a raise
    are kept, as they are in Python.  The semantics is that of Python 3.8 or
    later, which the sources need (they use [:=]). *)

From Stdlib Require Import ZArith QArith Qminmax Lqa String List Lia.
From stdpp Require Import base list gmap strings.
Close Scope Q_scope.
Set Warnings "-register-all".

(** ** Exceptions and values *)

(** The exception classes the sources raise or catch.  [UserError] stands for
    any exception a user transform raises that is not [StopIteration];
    [RetryError] is tenacity's wrapper around the outcome of the last
    attempt. *)
Inductive pyexn : Type :=
| StopIteration
| RuntimeError (msg : string)
| AssertionError (msg : string)
| ValueError (msg : string)
| AttributeError (msg : string)
| KeyError (msg : string)
| TypeError (msg : string)
| IndexError (msg : string)
| UserError (tag : string)
| RetryError (last : pyexn).

Global Instance pyexn_eq_dec : EqDecision pyexn.
Proof. solve_decision. Defined.

(** The values that travel through queues.  [VExc StopIteration] is the
    stop token [StopIteration()] that [Node.end] enqueues;
    [VNodeProcessingError] is [NodeProcessingError(data, name, e, stack)];
    [VLabelData] is [LabelData(data, label)]. *)
Inductive pyval : Type :=
| VNone
| VBool (b : bool)
| VInt (z : Z)
| VStr (s : string)
| VTuple (items : list pyval)
| VList (items : list pyval)
| VExc (e : pyexn)
| VLabelData (data label : pyval)
| VNodeProcessingError (data : pyval) (node : string) (cause : pyexn)
                       (trace : string).

Fixpoint pyval_eq_dec (a b : pyval) {struct a} : Decision (a = b).
Proof.
  refine (
    match a, b with
    | VNone, VNone => left eq_refl
    | VBool x, VBool y => cast_if (decide (x = y))
    | VInt x, VInt y => cast_if (decide (x = y))
    | VStr x, VStr y => cast_if (decide (x = y))
    | VTuple xs, VTuple ys => cast_if (@list_eq_dec _ pyval_eq_dec xs ys)
    | VList xs, VList ys => cast_if (@list_eq_dec _ pyval_eq_dec xs ys)
    | VExc x, VExc y => cast_if (decide (x = y))
    | VLabelData d l, VLabelData d' l' =>
        cast_if_and (pyval_eq_dec d d') (pyval_eq_dec l l')
    | VNodeProcessingError d n c t, VNodeProcessingError d' n' c' t' =>
        cast_if_and4 (pyval_eq_dec d d') (decide (n = n'))
                     (decide (c = c')) (decide (t = t'))
    | _, _ => right _
    end); congruence.
Defined.

Global Instance pyval_eqdec : EqDecision pyval := pyval_eq_dec.

(** Python truthiness, as tested by [x if x else y] and [if data:]. *)
Definition truthy (v : pyval) : bool :=
  match v with
  | VNone => false
  | VBool b => b
  | VInt z => negb (z =? 0)%Z
  | VStr s => negb (String.eqb s "")
  | VTuple l | VList l => negb (Nat.eqb (length l) 0)
  | _ => true
  end.

(** [isinstance(data, StopIteration)]. *)
Definition is_stop_token (v : pyval) : bool :=
  match v with VExc StopIteration => true | _ => false end.

(** [iter(data)] for the values that are [Iterable]: the elements in order,
    [None] for a value that is not iterable.  A string iterates over its
    one-character substrings. *)
Fixpoint chars (s : string) : list pyval :=
  match s with
  | EmptyString => []
  | String c s' => VStr (String c EmptyString) :: chars s'
  end.

Definition iter_elems (v : pyval) : option (list pyval) :=
  match v with
  | VTuple l | VList l => Some l
  | VStr s => Some (chars s)
  | _ => None
  end.

(** ** Dictionaries

    A Python [dict] keeps insertion order, and [for] loops and [values()]
    follow it, so a dictionary is an association list without duplicate
    keys: assignment to a present key updates it in place, assignment to a
    new key appends. *)
Definition pydict (K V : Type) : Type := list (K * V).

Section dict.
Context {K V : Type} `{EqDecision K}.

Fixpoint dict_get (d : pydict K V) (k : K) : option V :=
  match d with
  | [] => None
  | (k', v) :: d' => if decide (k' = k) then Some v else dict_get d' k
  end.

Fixpoint dict_set (d : pydict K V) (k : K) (v : V) : pydict K V :=
  match d with
  | [] => [(k, v)]
  | (k', v') :: d' =>
      if decide (k' = k) then (k', v) :: d' else (k', v') :: dict_set d' k v
  end.

Definition dict_keys (d : pydict K V) : list K := d.*1.
Definition dict_values (d : pydict K V) : list V := d.*2.

(** [d.get(k, default)] *)
Definition dict_get_default (d : pydict K V) (k : K) (default : V) : V :=
  match dict_get d k with Some v => v | None => default end.

End dict.

(** ** The state-and-exception monad *)

Definition Py (St A : Type) : Type := St → (pyexn + A) * St.

Definition py_ret {St A} (a : A) : Py St A := λ s, (inr a, s).
Definition py_raise {St A} (e : pyexn) : Py St A := λ s, (inl e, s).
Definition py_bind {St A B} (m : Py St A) (k : A → Py St B) : Py St B :=
  λ s, match m s with
       | (inr a, s') => k a s'
       | (inl e, s') => (inl e, s')
       end.
Definition py_get {St} : Py St St := λ s, (inr s, s).
Definition py_modify {St} (f : St → St) : Py St unit := λ s, (inr tt, f s).
(** [assert cond, msg] *)
Definition py_assert {St} (cond : bool) (msg : string) : Py St unit :=
  if cond then py_ret tt else py_raise (AssertionError msg).

Declare Scope py_scope.
Delimit Scope py_scope with py.
Notation "x <~ m ;; k" := (py_bind m (λ x, k))
  (at level 20, m at level 99, k at level 200) : py_scope.
Notation "m ;;; k" := (py_bind m (λ _, k))
  (at level 20, k at level 200) : py_scope.

(** ** Global configuration and option precedence *)

Module Config.

(** What [open("./config/async_dfd_config.json")] finds when the package is
    imported: no file, or a file holding a JSON object. *)
Inductive config_source : Type :=
| Absent
| Present (content : pydict string pyval).

(** [ASYNC_DFD_CONFIG]: the [try]/[except FileNotFoundError] of
    [__init__.py]. *)
Definition ASYNC_DFD_CONFIG (src : config_source) : pydict string pyval :=
  match src with
  | Absent => []
  | Present content => content
  end.

(** [arg if arg else ASYNC_DFD_CONFIG.get(key, default)] *)
Definition pick (cfg : pydict string pyval) (arg : pyval) (key : string)
           (default : pyval) : pyval :=
  if truthy arg then arg else dict_get_default cfg key default.

(** The three options [Node.__init__] resolves.  A constructor argument that
    is not passed is [None]. *)
Definition timeout (cfg : pydict string pyval) (arg : pyval) : pyval :=
  pick cfg arg "timeout" VNone.
Definition worker_num (cfg : pydict string pyval) (arg : pyval) : pyval :=
  pick cfg arg "worker_num" (VInt 10).
Definition queue_size (cfg : pydict string pyval) (arg : pyval) : pyval :=
  pick cfg arg "queue_size" (VInt 10).

End Config.

(** ** The retrying transform: [Node._error_decorator]

    [error_wrapper] is the user function under tenacity's
    [retry(stop=stop_after_attempt(5), wait=wait_exponential_jitter(max=10),
    retry=retry_if_not_exception_type(StopIteration))]; [final_wrapper] turns
    whatever still escapes into a [NodeProcessingError] value. *)

Module Retry.

(** What one call of the wrapped transform does besides computing a result. *)
Inductive event : Type :=
| Attempt (attempt_number : nat)
| Logged (e : pyexn)
| Slept (seconds : Q).

Section retrying.
(** The user transform may behave differently from one attempt to the next:
    [func k data] is what its [k]-th attempt on [data] does. *)
Variable func : nat → pyval → pyexn + pyval.
(** [random.uniform(0, 1)], as drawn after the attempt of that number.
    tenacity adds it in floating point; the sum is taken here in exact
    rationals, so that a sleep is the code's up to the rounding of one
    addition.  The number of sleeps, their order, and the bounds
    [2^(k-1)] and [2^(k-1) + 1] of the sum, which are floating-point
    numbers themselves, do not depend on the rounding. *)
Variable jitter : nat → Q.
(** [traceback.format_exc()] while the given exception is handled. *)
Variable format_exc : pyexn → string.
(** [self.__name__] *)
Variable name : string.

Definition max_attempt_number : nat := 5.

(** [retry_if_not_exception_type(StopIteration)] *)
Definition retry_if_not_StopIteration (e : pyexn) : bool :=
  bool_decide (e ≠ StopIteration).

(** [wait_exponential_jitter(initial=1, max=10, exp_base=2, jitter=1)]:
    [max(0, min(initial * exp_base ** (attempt_number - 1) + jitter, max))] *)
Definition wait_exponential_jitter (attempt_number : nat) : Q :=
  Qmax 0 (Qmin (inject_Z (2 ^ Z.of_nat (attempt_number - 1))
                + jitter attempt_number) 10).

(** The body of [error_wrapper]: [StopIteration] is re-raised silently, any
    other exception is logged and re-raised. *)
Definition error_wrapper_body (attempt_number : nat) (data : pyval)
  : (pyexn + pyval) * list event :=
  match func attempt_number data with
  | inr result => (inr result, [Attempt attempt_number])
  | inl StopIteration => (inl StopIteration, [Attempt attempt_number])
  | inl e => (inl e, [Attempt attempt_number; Logged e])
  end.

(** tenacity's loop.  [attempt_number] counts from 1; [attempts_left] is
    [max_attempt_number - attempt_number], so that [attempts_left = 0] is
    the test [attempt_number >= 5] of [stop_after_attempt(5)].  An outcome
    the retry predicate rejects is returned (or re-raised) as it is; when the
    stop test fires the loop raises [RetryError]; otherwise it sleeps and
    attempts again. *)
Fixpoint retrying (attempts_left attempt_number : nat) (data : pyval)
  : (pyexn + pyval) * list event :=
  match error_wrapper_body attempt_number data with
  | (inr result, ev) => (inr result, ev)
  | (inl e, ev) =>
      if retry_if_not_StopIteration e then
        match attempts_left with
        | 0 => (inl (RetryError e), ev)
        | S left' =>
            let '(r, ev') := retrying left' (S attempt_number) data in
            (r, ev ++ Slept (wait_exponential_jitter attempt_number) :: ev')
        end
      else (inl e, ev)
  end.

(** The decorated [error_wrapper]. *)
Definition error_wrapper (data : pyval) : (pyexn + pyval) * list event :=
  retrying (max_attempt_number - 1) 1 data.

(** [final_wrapper]: [except BaseException as e: return
    NodeProcessingError((data), self.__name__, e, error_stack)]. *)
Definition final_wrapper (data : pyval) : pyval * list event :=
  match error_wrapper data with
  | (inr result, ev) => (result, ev)
  | (inl e, ev) => (VNodeProcessingError data name e (format_exc e), ev)
  end.

End retrying.

(** What the rounding of one double-precision sum below 16 can change: at
    most [2^-50].  The sleeps after the first four attempts are such
    sums. *)
Definition rounding : Q := 1 # (2 ^ 50).

(** [w] is [x] up to that rounding. *)
Definition within_rounding (x w : Q) : Prop :=
  (x - rounding <= w)%Q ∧ (w <= x + rounding)%Q.

(** The attempts and the sleeps of an event list. *)
Definition attempts (ev : list event) : list nat :=
  omap (λ e, match e with Attempt k => Some k | _ => None end) ev.
Definition sleeps (ev : list event) : list Q :=
  omap (λ e, match e with Slept q => Some q | _ => None end) ev.

End Retry.

(** ** The node: [node/node.py] *)

(** [list.remove(x)]: drops the first element equal to [x]; [None] stands
    for the [ValueError] Python raises when there is none. *)
Fixpoint list_remove {A} `{EqDecision A} (x : A) (l : list A)
  : option (list A) :=
  match l with
  | [] => None
  | y :: l' =>
      if decide (y = x) then Some l' else cons y <$> list_remove x l'
  end.

Module Node.

(** The decorators of [node/decorator.py] are compared by identity
    ([decorator in self.proc_decorators]); two of them are named by
    [_rearrange_proc_decorator]. *)
Inductive decorator : Type :=
| label_proc_decorator
| skip_data_decorator
| custom_decorator (id : nat).

#[global] Instance decorator_eq_dec : EqDecision decorator.
Proof. solve_decision. Defined.

(** A stage function with the decorators applied to it so far:
    [decorator(self._proc_data)] is [Wrapped decorator _proc_data]. *)
Inductive stage : Type :=
| Core
| Wrapped (d : decorator) (inner : stage).

(** The layers of a composed stage, outermost first. *)
Fixpoint layers (s : stage) : list decorator :=
  match s with
  | Core => []
  | Wrapped d inner => d :: layers inner
  end.

(** The attributes [__init__] fixes. *)
Record attrs : Type := {
  __name__ : string;
  worker_num : nat;
  queue_size : nat;
  no_output : bool;
  is_data_iterable : bool;
}.

(** A destination node, as far as its sources see it: its routing predicate
    [criteria(src_node, data)].  Its input queue is kept in [inboxes]. *)
Record dest : Type := {
  criteria : attrs → pyval → bool;
}.

(** [criteria=lambda src_node, data: True] *)
Definition default_criteria : attrs → pyval → bool := λ _ _, true.

(** [self.get_data_generator]: suspended inside [yield from] with the
    elements still to be yielded, or finished (returned or raised). *)
Inductive generator : Type :=
| GenSuspended (pending : list pyval)
| GenFinished.

Inductive log_record : Type :=
| LogStop (task_id : nat)
| LogUnexpected (task_id : nat) (e : pyexn) (data : option pyval)
| LogCall (ev : list Retry.event).

Record node : Type := {
  self : attrs;
  dst_nodes : pydict string dest;
  get_decorators : list decorator;
  proc_decorators : list decorator;
  put_decorators : list decorator;
  bound_get_one_data : stage;
  bound_proc_data : stage;
  bound_put_data : stage;
  src_queue : list pyval;
  get_data_generator : option generator;
  is_start : bool;
  executing_data_queue : list pyval;
  tasks : list nat;
  inboxes : gmap string (list pyval);
  log : list log_record;
}.

Definition set_dst_nodes (v : pydict string dest) (s : node) : node :=
  let '(Build_node a _ c d e f g h i j k l m n o) := s in
  Build_node a v c d e f g h i j k l m n o.
Definition set_get_decorators (v : list decorator) (s : node) : node :=
  let '(Build_node a b _ d e f g h i j k l m n o) := s in
  Build_node a b v d e f g h i j k l m n o.
Definition set_proc_decorators (v : list decorator) (s : node) : node :=
  let '(Build_node a b c _ e f g h i j k l m n o) := s in
  Build_node a b c v e f g h i j k l m n o.
Definition set_put_decorators (v : list decorator) (s : node) : node :=
  let '(Build_node a b c d _ f g h i j k l m n o) := s in
  Build_node a b c d v f g h i j k l m n o.
Definition set_bound_get_one_data (v : stage) (s : node) : node :=
  let '(Build_node a b c d e _ g h i j k l m n o) := s in
  Build_node a b c d e v g h i j k l m n o.
Definition set_bound_proc_data (v : stage) (s : node) : node :=
  let '(Build_node a b c d e f _ h i j k l m n o) := s in
  Build_node a b c d e f v h i j k l m n o.
Definition set_bound_put_data (v : stage) (s : node) : node :=
  let '(Build_node a b c d e f g _ i j k l m n o) := s in
  Build_node a b c d e f g v i j k l m n o.
Definition set_src_queue (v : list pyval) (s : node) : node :=
  let '(Build_node a b c d e f g h _ j k l m n o) := s in
  Build_node a b c d e f g h v j k l m n o.
Definition set_get_data_generator (v : option generator) (s : node) : node :=
  let '(Build_node a b c d e f g h i _ k l m n o) := s in
  Build_node a b c d e f g h i v k l m n o.
Definition set_is_start (v : bool) (s : node) : node :=
  let '(Build_node a b c d e f g h i j _ l m n o) := s in
  Build_node a b c d e f g h i j v l m n o.
Definition set_executing_data_queue (v : list pyval) (s : node) : node :=
  let '(Build_node a b c d e f g h i j k _ m n o) := s in
  Build_node a b c d e f g h i j k v m n o.
Definition set_tasks (v : list nat) (s : node) : node :=
  let '(Build_node a b c d e f g h i j k l _ n o) := s in
  Build_node a b c d e f g h i j k l v n o.
Definition set_inboxes (v : gmap string (list pyval)) (s : node) : node :=
  let '(Build_node a b c d e f g h i j k l m _ o) := s in
  Build_node a b c d e f g h i j k l m v o.
Definition set_log (v : list log_record) (s : node) : node :=
  let '(Build_node a b c d e f g h i j k l m n _) := s in
  Build_node a b c d e f g h i j k l m n v.

(** [Node.__init__] once the options are resolved: empty decorator lists,
    an empty queue, no generator yet, nothing in flight. *)
Definition __init__ (a : attrs) : node :=
  {| self := a; dst_nodes := [];
     get_decorators := []; proc_decorators := []; put_decorators := [];
     bound_get_one_data := Core; bound_proc_data := Core;
     bound_put_data := Core;
     src_queue := []; get_data_generator := None; is_start := false;
     executing_data_queue := []; tasks := []; inboxes := ∅; log := [] |}.

(** A node whose three stages are the methods of the class: no decorator
    has been wrapped around [_get_one_data], [_proc_data] or [_put_data],
    as after [__init__], and after [start] when no decorator was
    registered.  The generator and the worker loop below call the methods
    of the class; they are the code of such a node, and the properties of
    what a stage does are stated for such a node. *)
Definition undecorated (s : node) : Prop :=
  bound_get_one_data s = Core
  ∧ bound_proc_data s = Core
  ∧ bound_put_data s = Core.

(** *** Registration *)

(** [self.dst_nodes[node.__name__] = node] (the inverse edge lives in the
    other node). *)
Definition set_destination (name : string) (d : dest) (s : node) : node :=
  set_dst_nodes (dict_set (dst_nodes s) name d) s.

Definition add_get_decorator (d : decorator) (s : node) : node :=
  set_get_decorators (get_decorators s ++ [d]) s.
Definition add_put_decorator (d : decorator) (s : node) : node :=
  set_put_decorators (put_decorators s ++ [d]) s.

(** [put]: [self.src_queue.put(data)], for a queue with a free slot. *)
Definition put (data : pyval) (s : node) : node :=
  set_src_queue (src_queue s ++ [data]) s.

(** *** Start-up *)

Definition _validate_destinations : Py node unit :=
  (s <~ py_get ;;
   if no_output (self s) then
     py_assert (bool_decide (length (dst_nodes s) = 0))
       ("Node " +:+ __name__ (self s)
        +:+ " has output queues, but set as no_output")
   else
     py_assert (bool_decide (0 < length (dst_nodes s)))
       ("Node " +:+ __name__ (self s) +:+ " dst_node is empty"))%py.

(** [set_top_decorator] of [_rearrange_proc_decorator]: membership is tested
    in [self.proc_decorators], removal and append act on [new_decorators]. *)
Definition set_top_decorator (registered : list decorator) (d : decorator)
           (new_decorators : list decorator) : pyexn + list decorator :=
  if bool_decide (d ∈ registered) then
    match list_remove d new_decorators with
    | Some l => inr (l ++ [d])
    | None => inl (ValueError "list.remove(x): x not in list")
    end
  else inr new_decorators.

(** The new list [_rearrange_proc_decorator] computes: a copy of the
    registered decorators, then the two moves. *)
Definition rearranged (registered : list decorator)
  : pyexn + list decorator :=
  match set_top_decorator registered label_proc_decorator registered with
  | inl e => inl e
  | inr l => set_top_decorator registered skip_data_decorator l
  end.

(** Vocabulary for the outcome: the two named decorators that are
    registered, in the order they are moved; the decorators that are neither
    of the two; a list without the first occurrence of a decorator. *)
Definition tops (registered : list decorator) : list decorator :=
  (if bool_decide (label_proc_decorator ∈ registered)
   then [label_proc_decorator] else [])
  ++ (if bool_decide (skip_data_decorator ∈ registered)
      then [skip_data_decorator] else []).

Definition is_other (d : decorator) : Prop :=
  d ≠ label_proc_decorator ∧ d ≠ skip_data_decorator.

#[global] Instance is_other_dec d : Decision (is_other d).
Proof. unfold is_other. apply _. Defined.

Definition without_first (d : decorator) (l : list decorator)
  : list decorator :=
  default l (list_remove d l).

Definition _rearrange_proc_decorator : Py node unit :=
  λ s, match rearranged (proc_decorators s) with
       | inl e => (inl e, s)
       | inr l => (inr tt, set_proc_decorators l s)
       end.

(** [for decorator in decorators: f = decorator(f)] *)
Definition wrap_all (decorators : list decorator) (f : stage) : stage :=
  foldl (λ acc d, Wrapped d acc) f decorators.

Definition _setup_decorators : Py node unit :=
  (_rearrange_proc_decorator ;;;
   py_modify (λ s,
     set_bound_get_one_data (wrap_all (get_decorators s)
                                      (bound_get_one_data s)) s) ;;;
   py_modify (λ s,
     set_bound_proc_data (wrap_all (proc_decorators s)
                                   (bound_proc_data s)) s) ;;;
   py_modify (λ s,
     set_bound_put_data (wrap_all (put_decorators s)
                                  (bound_put_data s)) s))%py.

(** [_spawn_workers]: one task per [i in range(self.worker_num)], a fresh
    generator, and the running flag. *)
Definition _spawn_workers : Py node (list nat) :=
  (py_modify (λ s, set_tasks (tasks s ++ seq 0 (worker_num (self s))) s) ;;;
   py_modify (set_get_data_generator (Some (GenSuspended []))) ;;;
   py_modify (set_is_start true) ;;;
   s <~ py_get ;; py_ret (tasks s))%py.

(** Modelled from the spec: [AbstractNode.start] is not among the sources;
    the spec has [start()] mark the node running. *)
Definition super_start : Py node unit := py_modify (set_is_start true).

Definition start : Py node (list nat) :=
  (_validate_destinations ;;;
   _setup_decorators ;;;
   _spawn_workers ;;;
   super_start ;;;
   s <~ py_get ;; py_ret (tasks s))%py.

(** *** Fetching: [_get_one_data] and [_get_data]

    Both are generator functions.  Since Python 3.7 (PEP 479) a
    [StopIteration] that leaves a generator's frame reaches the caller of
    [next] as [RuntimeError("generator raised StopIteration")]; the sources
    need Python 3.8 or later (they use [:=]). *)
Definition pep479 (e : pyexn) : pyexn :=
  match e with
  | StopIteration => RuntimeError "generator raised StopIteration"
  | e => e
  end.

(** The frame of [_get_one_data(data)] run to its end: the elements it
    yields, or the exception raised in it. *)
Definition _get_one_data_frame (a : attrs) (data : pyval)
  : pyexn + list pyval :=
  if is_stop_token data then inl StopIteration
  else if is_data_iterable a then
    match iter_elems data with
    | Some elems => inr elems
    | None =>
        inl (AssertionError
               "Unpack decorator only supports single iterable data")
    end
  else inr [data].

(** [_get_one_data(data)] as its consumer sees it. *)
Definition _get_one_data (a : attrs) (data : pyval) : pyexn + list pyval :=
  match _get_one_data_frame a data with
  | inl e => inl (pep479 e)
  | inr elems => inr elems
  end.

(** What [next(self.get_data_generator)] comes back with. *)
Inductive fetched : Type :=
| Got (data : pyval)
| Raised (e : pyexn)
| WouldBlock.

(** The loop of [_get_data] from its [while] test on, with the running flag
    set: [data = self.src_queue.get()] then [yield from
    self._get_one_data(data)], until an element is yielded, an exception
    leaves the generator, or the queue has nothing to return.
    [self._get_one_data] is the method of the class here: the loop of a
    node without get-decorators. *)
Fixpoint _get_data_loop (a : attrs) (queue : list pyval)
  : fetched * generator * list pyval :=
  match queue with
  | [] => (WouldBlock, GenSuspended [], [])
  | data :: queue' =>
      match _get_one_data a data with
      | inl e => (Raised e, GenFinished, queue')
      | inr [] => _get_data_loop a queue'
      | inr (d :: rest) => (Got d, GenSuspended rest, queue')
      end
  end.

Definition next_get_data (s : node) : fetched * node :=
  match get_data_generator s with
  | None =>
      (Raised (AttributeError
                 "'Node' object has no attribute 'get_data_generator'"), s)
  | Some GenFinished => (Raised StopIteration, s)
  | Some (GenSuspended (d :: rest)) =>
      (Got d, set_get_data_generator (Some (GenSuspended rest)) s)
  | Some (GenSuspended []) =>
      if is_start s then
        let '(r, g, q) := _get_data_loop (self s) (src_queue s) in
        (r, set_src_queue q (set_get_data_generator (Some g) s))
      else (Raised StopIteration,
            set_get_data_generator (Some GenFinished) s)
  end.

(** [n] successive calls of [next(self.get_data_generator)]: the data they
    return, up to the first call that raises or finds the queue empty. *)
Fixpoint next_many (n : nat) (s : node) : list pyval * node :=
  match n with
  | 0 => ([], s)
  | S n' =>
      match next_get_data s with
      | (Got data, s') =>
          let '(more, s'') := next_many n' s' in (data :: more, s'')
      | (_, s') => ([], s')
      end
  end.

(** *** Routing: [_put_data]

    [node.put(data)] appends to the destination's input queue, kept in
    [inboxes] under the key the destination has in [dst_nodes].  An inbox
    records what the node has put into that destination, in order: a [put]
    on a full queue waits and then appends the same value.  The node's own
    [src_queue] is kept apart, so that a node registered as its own
    destination is outside this model of [_put_data]. *)
Definition deliver (name : string) (data : pyval) (s : node) : node :=
  set_inboxes (<[name := inboxes s !!! name ++ [data]]> (inboxes s)) s.

Definition _put_data (data : pyval) (s : node) : node :=
  foldl (λ acc nd, if criteria nd.2 (self s) data
                   then deliver nd.1 data acc else acc)
        s (dst_nodes s).

(** *** The worker loop: [_func_wrapper] *)

Inductive turn : Type :=
| Holding (data : pyval)
| Continue
| Break
| LoopExit
| Blocked.

Definition add_log (r : log_record) (s : node) : node :=
  set_log (log s ++ [r]) s.

(** The stop tokens waiting in a queue. *)
Definition count_stop (queue : list pyval) : nat :=
  length (List.filter is_stop_token queue).

(** Whether [self.get_data_generator] can still be resumed. *)
Definition gen_live (s : node) : bool :=
  match get_data_generator s with
  | Some (GenSuspended _) => true
  | _ => false
  end.

Section worker.
Variable func : nat → pyval → pyexn + pyval.
Variable jitter : nat → Q.
Variable format_exc : pyexn → string.

(** [self._proc_data] of a node without proc-decorators: the transform as
    [__init__] wraps it with [_error_decorator]. *)
Definition _proc_data (s : node) (data : pyval) : pyval * list Retry.event :=
  Retry.final_wrapper func jitter format_exc (__name__ (self s)) data.

(** One pass of the [while] loop up to [self.executing_data_queue.append]:
    the loop test, the in-flight test, the serialized [next], and the two
    [except] clauses for what [next] raises. *)
Definition fetch (task_id : nat) (s : node) : turn * node :=
  if negb (is_start s) then (LoopExit, s)
  else if bool_decide (length (executing_data_queue s) < worker_num (self s))
  then
    match next_get_data s with
    | (Got data, s') =>
        (Holding data,
         set_executing_data_queue (executing_data_queue s' ++ [data]) s')
    | (Raised StopIteration, s') => (Break, add_log (LogStop task_id) s')
    | (Raised e, s') => (Continue, add_log (LogUnexpected task_id e None) s')
    | (WouldBlock, s') => (Blocked, s')
    end
  else (Continue, s).

(** The inner [try]/[finally]: the transform, the put stage, and the removal
    from the in-flight list.  The two stages are the methods of the class:
    the pass of a node without proc- and put-decorators. *)
Definition process (task_id : nat) (data : pyval) (s : node) : turn * node :=
  let '(result, ev) := _proc_data s data in
  let s1 := _put_data result (add_log (LogCall ev) s) in
  match list_remove data (executing_data_queue s1) with
  | Some l => (Continue, set_executing_data_queue l s1)
  | None =>
      (Continue,
       add_log (LogUnexpected task_id
                  (ValueError "list.remove(x): x not in list")
                  (if truthy data then Some data else None)) s1)
  end.

Definition loop_body (task_id : nat) (s : node) : turn * node :=
  match fetch task_id s with
  | (Holding data, s') => process task_id data s'
  | r => r
  end.

(** [_func_wrapper] for at most [fuel] passes; [Continue] means the worker
    is still in its loop. *)
Fixpoint _func_wrapper (fuel task_id : nat) (s : node) : turn * node :=
  match fuel with
  | 0 => (Continue, s)
  | S fuel' =>
      match loop_body task_id s with
      | (Continue, s') => _func_wrapper fuel' task_id s'
      | r => r
      end
  end.

(** *** Shut-down: [end] and the worker pool

    [end] is [super().end()], then [self.src_queue.put(StopIteration())]
    once per [range(self.worker_num)], then [gevent.joinall(self.tasks)].
    Its caller and the workers are greenlets: each runs until it suspends,
    and any of those able to run may be the next.  [step] is one such run:
    one [put] of [end], the end of its [for] loop, the return of [joinall],
    or one half of a worker's pass ([fetch], then [process]).  A [put] on a
    full queue cannot run, a [next] that finds the queue empty changes
    nothing, and [joinall] returns when every worker has left its loop. *)
Definition stop_token : pyval := VExc StopIteration.

(** Modelled from the spec: [AbstractNode.end] is not among the sources;
    the spec has it mark the intent to stop, and the comment in [Node.end]
    says the running flag is left alone. *)
Definition super_end (s : node) : node := s.

(** Where a worker is: at the top of its loop, between the append to the
    in-flight list and the transform, or out of [_func_wrapper]. *)
Inductive worker : Type :=
| Looping
| Processing (data : pyval)
| Finished.

(** Where the caller of [end] is: in the [for] loop with [sent] tokens
    enqueued, in [gevent.joinall], or back. *)
Inductive caller : Type :=
| Putting (sent : nat)
| Joining
| Returned.

Record pool : Type := {
  the_node : node;
  workers : list worker;
  in_end : caller;
}.

(** [Queue(maxsize)]: a [maxsize] of 0 is unbounded. *)
Definition queue_has_room (s : node) : bool :=
  bool_decide (queue_size (self s) = 0
               ∨ length (src_queue s) < queue_size (self s)).

Definition after_fetch (t : turn) : worker :=
  match t with
  | Holding data => Processing data
  | Continue | Blocked => Looping
  | Break | LoopExit => Finished
  end.

Inductive step : pool → pool → Prop :=
| step_put p sent :
    in_end p = Putting sent →
    sent < worker_num (self (the_node p)) →
    queue_has_room (the_node p) = true →
    step p {| the_node := put stop_token (the_node p);
              workers := workers p;
              in_end := Putting (S sent) |}
| step_put_done p :
    in_end p = Putting (worker_num (self (the_node p))) →
    step p {| the_node := the_node p; workers := workers p;
              in_end := Joining |}
| step_join p :
    in_end p = Joining →
    Forall (λ w, w = Finished) (workers p) →
    step p {| the_node := the_node p; workers := workers p;
              in_end := Returned |}
| step_fetch p task_id t s' :
    workers p !! task_id = Some Looping →
    fetch task_id (the_node p) = (t, s') →
    step p {| the_node := s';
              workers := <[task_id := after_fetch t]> (workers p);
              in_end := in_end p |}
| step_process p task_id data t s' :
    workers p !! task_id = Some (Processing data) →
    process task_id data (the_node p) = (t, s') →
    step p {| the_node := s';
              workers := <[task_id := Looping]> (workers p);
              in_end := in_end p |}.

(** The same runs as a function of a schedule: which greenlet runs next.  An
    action that is not able to run gives [None]. *)
Inductive action : Type :=
| DoPut
| DoPutDone
| DoJoin
| DoFetch (task_id : nat)
| DoProcess (task_id : nat).

Definition is_finished (w : worker) : bool :=
  match w with Finished => true | _ => false end.

Definition act (a : action) (p : pool) : option pool :=
  match a, in_end p with
  | DoPut, Putting sent =>
      if bool_decide (sent < worker_num (self (the_node p)))
         && queue_has_room (the_node p)
      then Some {| the_node := put stop_token (the_node p);
                   workers := workers p;
                   in_end := Putting (S sent) |}
      else None
  | DoPutDone, Putting sent =>
      if bool_decide (sent = worker_num (self (the_node p)))
      then Some {| the_node := the_node p; workers := workers p;
                   in_end := Joining |}
      else None
  | DoJoin, Joining =>
      if forallb is_finished (workers p)
      then Some {| the_node := the_node p; workers := workers p;
                   in_end := Returned |}
      else None
  | DoFetch task_id, _ =>
      match workers p !! task_id with
      | Some Looping =>
          let '(t, s') := fetch task_id (the_node p) in
          Some {| the_node := s';
                  workers := <[task_id := after_fetch t]> (workers p);
                  in_end := in_end p |}
      | _ => None
      end
  | DoProcess task_id, _ =>
      match workers p !! task_id with
      | Some (Processing data) =>
          let '(t, s') := process task_id data (the_node p) in
          Some {| the_node := s';
                  workers := <[task_id := Looping]> (workers p);
                  in_end := in_end p |}
      | _ => None
      end
  | _, _ => None
  end.

Fixpoint run (schedule : list action) (p : pool) : option pool :=
  match schedule with
  | [] => Some p
  | a :: schedule' =>
      match act a p with
      | Some p' => run schedule' p'
      | None => None
      end
  end.

(** The pool when [end] is called on a node whose workers are all at the top
    of their loop. *)
Definition pool_at_end (s : node) : pool :=
  {| the_node := super_end s;
     workers := replicate (length (tasks s)) Looping;
     in_end := Putting 0 |}.

End worker.

End Node.

(** ** The graph: [graph/graph.py] *)

Module Graph.

(** The objects [topological_sort] handles as loop variables and dictionary
    keys: strings, compared by value, and nodes, compared by identity. *)
Inductive obj : Type :=
| OStr (s : string)
| ONode (id : nat).

#[global] Instance obj_eq_dec : EqDecision obj.
Proof. solve_decision. Defined.

(** What [Graph] reads of a member node: [dst_nodes], from destination name
    to destination node. *)
Record member : Type := {
  dst_nodes : pydict string nat;
}.

(** The node objects, by identity. *)
Definition heap : Type := nat → option member.

(** [NodeGroup]: the node mapping, from descriptive name to node, and the
    member nodes whose [start] has run, in order. *)
Record group : Type := {
  all_nodes : pydict obj obj;
  started : list obj;
}.

(** [desc, node = key]: unpacking the loop variable into two targets.  A
    string unpacks into its characters. *)
Definition unpack_pair (key : obj) : pyexn + obj * obj :=
  match key with
  | OStr EmptyString =>
      inl (ValueError "not enough values to unpack (expected 2, got 0)")
  | OStr (String _ EmptyString) =>
      inl (ValueError "not enough values to unpack (expected 2, got 1)")
  | OStr (String a (String b EmptyString)) =>
      inr (OStr (String a EmptyString), OStr (String b EmptyString))
  | OStr _ => inl (ValueError "too many values to unpack (expected 2)")
  | ONode _ => inl (TypeError "cannot unpack non-iterable Node object")
  end.

(** [node.dst_nodes], iterated: the keys of the node's destination map. *)
Definition iter_dst_nodes (h : heap) (node : obj) : pyexn + list obj :=
  match node with
  | OStr _ => inl (AttributeError "'str' object has no attribute 'dst_nodes'")
  | ONode id =>
      match h id with
      | Some m => inr (OStr <$> dict_keys (dst_nodes m))
      | None => inl (AttributeError "dst_nodes")
      end
  end.

(** Modelled from the spec: [get_neighbors] belongs to the node interface,
    which is not among the sources; the spec has the sort visit the
    successors of a node, the nodes it declares as destinations. *)
Definition get_neighbors (h : heap) (node : obj) : pyexn + list obj :=
  match node with
  | OStr _ =>
      inl (AttributeError "'str' object has no attribute 'get_neighbors'")
  | ONode id =>
      match h id with
      | Some m => inr (ONode <$> dict_values (dst_nodes m))
      | None => inl (AttributeError "get_neighbors")
      end
  end.

(** [in_degree = defaultdict(int)]: a missing key reads as 0. *)
Definition degree (in_degree : pydict obj Z) (k : obj) : Z :=
  dict_get_default in_degree k 0%Z.

(** The first loop: [for desc, node in all_nodes] walks the keys of the
    mapping. *)
Fixpoint count_in_degrees (h : heap) (keys : list obj)
         (descriptions : pydict obj obj) (in_degree : pydict obj Z)
  : pyexn + pydict obj obj * pydict obj Z :=
  match keys with
  | [] => inr (descriptions, in_degree)
  | key :: keys' =>
      match unpack_pair key with
      | inl e => inl e
      | inr (desc, node) =>
          let descriptions' := dict_set descriptions node desc in
          match iter_dst_nodes h node with
          | inl e => inl e
          | inr neighbors =>
              count_in_degrees h keys' descriptions'
                (foldl (λ deg neighbor,
                          dict_set deg neighbor (degree deg neighbor + 1)%Z)
                       in_degree neighbors)
          end
      end
  end.

(** The inner loop of the [while]: decrement, and enqueue at zero. *)
Definition release (neighbors : list obj)
           (state : pydict obj Z * list obj) : pydict obj Z * list obj :=
  foldl (λ '(deg, queue) neighbor,
           let d := (degree deg neighbor - 1)%Z in
           (dict_set deg neighbor d,
            if bool_decide (d = 0%Z) then queue ++ [neighbor] else queue))
        state neighbors.

(** [while queue:], for at most [fuel] passes. *)
Fixpoint drain (fuel : nat) (h : heap) (descriptions : pydict obj obj)
         (in_degree : pydict obj Z) (queue : list obj)
         (sorted_nodes : pydict obj obj)
  : option (pyexn + pydict obj obj) :=
  match queue with
  | [] => Some (inr sorted_nodes)
  | node :: queue' =>
      match fuel with
      | 0 => None
      | S fuel' =>
          match dict_get descriptions node with
          | None => Some (inl (KeyError "descriptions[node]"))
          | Some desc =>
              match get_neighbors h node with
              | inl e => Some (inl e)
              | inr neighbors =>
                  let '(deg, q) := release neighbors (in_degree, queue') in
                  drain fuel' h descriptions deg q
                        (dict_set sorted_nodes desc node)
              end
          end
      end
  end.

Definition topological_sort (fuel : nat) (h : heap)
           (all_nodes : pydict obj obj) : option (pyexn + pydict obj obj) :=
  match count_in_degrees h (dict_keys all_nodes) [] [] with
  | inl e => Some (inl e)
  | inr (descriptions, in_degree) =>
      let queue :=
        filter (λ node, degree in_degree node = 0%Z) (dict_values all_nodes)
      in
      match drain fuel h descriptions in_degree queue [] with
      | None => None
      | Some (inl e) => Some (inl e)
      | Some (inr sorted_nodes) =>
          if bool_decide (length sorted_nodes ≠ length all_nodes)
          then Some (inl (ValueError "Graph has at least one cycle"))
          else Some (inr sorted_nodes)
      end
  end.

(** Modelled from the spec: [NodeGroup.start] is not among the sources; the
    spec has the group's [start] forward to its member nodes, in the
    iteration order of the node mapping. *)
Definition super_start (g : group) : group :=
  {| all_nodes := all_nodes g;
     started := started g ++ dict_values (all_nodes g) |}.

(** [Graph.start] *)
Definition start (fuel : nat) (h : heap) (g : group)
  : option ((pyexn + unit) * group) :=
  match topological_sort fuel h (all_nodes g) with
  | None => None
  | Some (inl e) => Some (inl e, g)
  | Some (inr sorted_nodes) =>
      Some (inr tt,
            super_start {| all_nodes := sorted_nodes; started := started g |})
  end.

End Graph.

(** ** Scatter/gather: [pipeline/label_pipeline/iterable_pipeline.py]

    The iterable inputs modelled are the re-iterable ones (tuples, lists,
    strings): [itertools.tee(data, 1)[0]] then walks the elements on its own,
    apart from the [for d in data] of the head node. *)

Module IterablePipeline.

Record ProcessingTask : Type := {
  index : nat;
  over_results : pydict pyval pyval;
  original_data : pyval;
  _iter : list pyval;
  is_generator_exhausted : bool;
  task_label : pyval;
}.

(** The pipeline: the task registry, and what the tail node's own put stage
    ([put_func]) has been called with, in order. *)
Record IterablePipeline : Type := {
  processing_tasks : pydict pyval ProcessingTask;
  forwarded : list pyval;
}.

Definition set_processing_tasks (v : pydict pyval ProcessingTask)
           (p : IterablePipeline) : IterablePipeline :=
  {| processing_tasks := v; forwarded := forwarded p |}.

(** [IterablePipeline.__init__]: an empty registry; the two decorators are
    registered on the head and the tail, and the head is set to flatten. *)
Definition __init__ : IterablePipeline :=
  {| processing_tasks := []; forwarded := [] |}.

(** [put_func(data)] *)
Definition put_func (data : pyval) : Py IterablePipeline unit :=
  py_modify (λ p, {| processing_tasks := processing_tasks p;
                     forwarded := forwarded p ++ [data] |}).

(** [isinstance(label_data, LabelData)] *)
Definition is_LabelData (v : pyval) : bool :=
  match v with VLabelData _ _ => true | _ => false end.

(** [v is not None] *)
Definition is_not_None (v : pyval) : bool := bool_decide (v ≠ VNone).

Section pipeline.
(** [generate_label] of the label subsystem, which is not among the sources:
    some function from a value to its correlation token. *)
Variable generate_label : pyval → pyval.
(** The get stage the head decorator wraps. *)
Variable get_func : pyval → pyexn + list pyval.

(** [ProcessingTask.__init__] *)
Definition ProcessingTask__init__ (data : pyval) : pyexn + ProcessingTask :=
  match iter_elems data with
  | None => inl (AssertionError "The data is not an iterable")
  | Some elems =>
      match elems with
      | [] => inl StopIteration
      | _ :: probe =>
          inr {| index := 0; over_results := []; original_data := data;
                 _iter := probe; is_generator_exhausted := false;
                 task_label := generate_label data |}
      end
  end.

(** [ProcessingTask.get_label]: advance the probe, then issue the next
    slot. *)
Definition ProcessingTask_get_label (t : ProcessingTask) : pyval * ProcessingTask :=
  let '(exhausted, probe) :=
    match _iter t with
    | [] => (true, [])
    | _ :: probe => (is_generator_exhausted t, probe)
    end in
  (VTuple [task_label t; VInt (Z.of_nat (index t))],
   {| index := S (index t);
      over_results := dict_set (over_results t)
                               (VInt (Z.of_nat (index t))) VNone;
      original_data := original_data t;
      _iter := probe;
      is_generator_exhausted := exhausted;
      task_label := task_label t |}).

(** [self.processing_tasks[key]] *)
Definition lookup_task (key : pyval) : Py IterablePipeline ProcessingTask :=
  λ p, match dict_get (processing_tasks p) key with
       | Some t => (inr t, p)
       | None => (inl (KeyError "processing_tasks"), p)
       end.

(** [IterablePipeline.get_label] *)
Definition get_label (data_point data_gen : pyval)
  : Py IterablePipeline pyval :=
  (task <~ lookup_task (generate_label data_gen) ;;
   let '(label, task') := ProcessingTask_get_label task in
   py_modify (λ p, set_processing_tasks
                     (dict_set (processing_tasks p)
                               (generate_label data_gen) task') p) ;;;
   py_ret label)%py.

(** [_iterable_get_data_wrapper] *)
Definition _iterable_get_data_wrapper (iter_data : pyval)
  : Py IterablePipeline (list pyval) :=
  λ p, match ProcessingTask__init__ iter_data with
       | inl e => (inl e, p)
       | inr new_tasks =>
           let p' := set_processing_tasks
                       (dict_set (processing_tasks p)
                                 (task_label new_tasks) new_tasks) p in
           match get_func iter_data with
           | inl e => (inl e, p')
           | inr ret => (inr ret, p')
           end
       end.

(** Modelled from the spec: [get_data_func_label] belongs to
    [LabelPipeline], which is not among the sources; the spec has every
    element tagged with (task token, slot index), and the tail decorator
    reads that pair back from the labelled value. *)
Definition get_data_func_label (label_data : pyval) : pyval :=
  match label_data with
  | VLabelData _ label => label
  | _ => VNone
  end.

(** [label[0]] and [label[1]] *)
Definition subscript (v : pyval) (i : nat) : pyexn + pyval :=
  match v with
  | VTuple l | VList l =>
      match l !! i with
      | Some x => inr x
      | None => inl (IndexError "index out of range")
      end
  | _ => inl (TypeError "object is not subscriptable")
  end.

Definition py_lift {St A} (r : pyexn + A) : Py St A :=
  match r with inl e => py_raise e | inr a => py_ret a end.

(** [_iterable_put_data_wrapper] *)
Definition _iterable_put_data_wrapper (label_data : pyval)
  : Py IterablePipeline unit :=
  (py_assert (is_LabelData label_data) "The data is not a LabelData" ;;;
   let content := match label_data with
                  | VLabelData data _ => data
                  | _ => VNone
                  end in
   let label := get_data_func_label label_data in
   token <~ py_lift (subscript label 0) ;;
   task <~ lookup_task token ;;
   slot <~ py_lift (subscript label 1) ;;
   let task' :=
     {| index := index task;
        over_results := dict_set (over_results task) slot content;
        original_data := original_data task;
        _iter := _iter task;
        is_generator_exhausted := is_generator_exhausted task;
        task_label := task_label task |} in
   py_modify (λ p, set_processing_tasks
                     (dict_set (processing_tasks p) token task') p) ;;;
   let over_results_flags :=
     is_not_None <$> dict_values (over_results task') in
   if is_generator_exhausted task' && forallb id over_results_flags then
     put_func (VLabelData
                 (VTuple [original_data task';
                          VList (VBool <$> over_results_flags)])
                 token)
   else py_ret tt)%py.

End pipeline.

End IterablePipeline.

(** ** Vocabulary of the statements, and the nodes used as examples *)

(** The wiring [_validate_destinations] rejects: marked [no_output] with a
    destination, or not marked with none. *)
Definition miswired (s : Node.node) : Prop :=
  (Node.no_output (Node.self s) = true ∧ Node.dst_nodes s ≠ [])
  ∨ (Node.no_output (Node.self s) = false
     ∧ Node.dst_nodes s = []).

(** A sink with three workers and room for one queued item. *)
Definition sink : Node.attrs :=
  {| Node.__name__ := "sink"; Node.worker_num := 3;
     Node.queue_size := 1; Node.no_output := true;
     Node.is_data_iterable := false |}.

Definition accept_all : Node.dest :=
  {| Node.criteria := Node.default_criteria |}.


(** A routing node with two destinations: [evens] takes the even integers,
    [all] keeps the default predicate. *)
Definition router : Node.attrs :=
  {| Node.__name__ := "router"; Node.worker_num := 1;
     Node.queue_size := 10; Node.no_output := false;
     Node.is_data_iterable := false |}.

Definition only_even : Node.dest :=
  {| Node.criteria := λ _ data,
       match data with VInt z => Z.even z | _ => false end |}.

Definition router_node : Node.node :=
  Node.set_destination "all" accept_all
    (Node.set_destination "evens" only_even (Node.__init__ router)).

(** [router_node] after [start], with the integer 3 waiting in its queue;
    a transform that raises on every attempt; no jitter. *)
Definition running_router : Node.node :=
  Node.put (VInt 3) (Node.start router_node).2.

Definition always_raises : nat → pyval → pyexn + pyval :=
  λ _ _, inl (UserError "boom").

Definition no_jitter : nat → Q := λ _, 0%Q.

Definition short_trace : pyexn → string := λ _, "Traceback".

(** [router_node] after [start], with a stop token waiting in its queue. *)
Definition stopping_router : Node.node :=
  Node.put Node.stop_token (Node.start router_node).2.

(** [end] called on the started sink: three workers, room for one item. *)
Definition sink_at_end : Node.pool :=
  Node.pool_at_end (Node.start (Node.__init__ sink)).2.

(** Where that call gets stuck. *)
Definition sink_deadlock_schedule : list Node.action :=
  [Node.DoPut; Node.DoFetch 0; Node.DoPut; Node.DoFetch 0;
   Node.DoFetch 1; Node.DoFetch 2].

(** The stop tokens [end] can have enqueued so far: those still in the
    queue, and the one that ended the generator, if it has ended. *)
Definition stop_budget (s : Node.node) : nat :=
  Node.count_stop (Node.src_queue s)
  + (if Node.gen_live s then 0 else 1).

(** The invariant of a running [end]: the node's attributes are fixed, the
    queue is within its capacity, and the caller is still in its [for]
    loop;  the tokens it has enqueued are still in the queue, but for
    the one that ended the generator. *)
Definition end_invariant (a : Node.attrs) (p : Node.pool) : Prop :=
  Node.self (Node.the_node p) = a
  ∧ length (Node.src_queue (Node.the_node p)) ≤ Node.queue_size a
  ∧ ∃ sent, Node.in_end p = Node.Putting sent
            ∧ sent ≤ stop_budget (Node.the_node p).

(** An acyclic graph of two nodes, [load] feeding [save]. *)
Definition load_save_heap : Graph.heap :=
  λ id, match id with
        | 0 => Some {| Graph.dst_nodes := [("save", 1)] |}
        | 1 => Some {| Graph.dst_nodes := [] |}
        | _ => None
        end.

Definition load_save : Graph.group :=
  {| Graph.all_nodes :=
       [(Graph.OStr "load", Graph.ONode 0);
        (Graph.OStr "save", Graph.ONode 1)];
     Graph.started := [] |}.

(** The scatter/gather scenario: the tuple (1, 2, 3) enters an empty
    pipeline, its three elements are labelled as they are drawn, and their
    results 10, 20, 30 reach the tail out of order.  Tokens are the values
    themselves; the head's get stage is [_get_one_data] with
    [is_data_iterable] set. *)
Definition input_123 : pyval := VTuple [VInt 1; VInt 2; VInt 3].

Definition empty_pipeline : IterablePipeline.IterablePipeline :=
  IterablePipeline.__init__.

Definition content_label : pyval → pyval := λ v, v.

Definition head_get_func : pyval → pyexn + list pyval :=
  Node._get_one_data
    {| Node.__name__ := "head"; Node.worker_num := 2;
       Node.queue_size := 5; Node.no_output := false;
       Node.is_data_iterable := true |}.

Definition ingest_123 : Py IterablePipeline.IterablePipeline (list pyval) :=
  (IterablePipeline._iterable_get_data_wrapper content_label head_get_func
     input_123 ;;;
   l0 <~ IterablePipeline.get_label content_label (VInt 1) input_123 ;;
   l1 <~ IterablePipeline.get_label content_label (VInt 2) input_123 ;;
   l2 <~ IterablePipeline.get_label content_label (VInt 3) input_123 ;;
   py_ret [l0; l1; l2])%py.

Definition tail_put (result label : pyval)
  : Py IterablePipeline.IterablePipeline unit :=
  IterablePipeline._iterable_put_data_wrapper (VLabelData result label).

Definition slot_label (i : Z) : pyval := VTuple [input_123; VInt i].

Definition two_of_three : Py IterablePipeline.IterablePipeline unit :=
  (ingest_123 ;;;
   tail_put (VInt 20) (slot_label 1) ;;;
   tail_put (VInt 10) (slot_label 0))%py.

Definition all_three : Py IterablePipeline.IterablePipeline unit :=
  (two_of_three ;;; tail_put (VInt 30) (slot_label 2))%py.

(** [end] called on [running_router], whose queue holds the integer 3, under
    a transform that multiplies by ten; a schedule that lets it finish. *)
Definition times_ten : nat → pyval → pyexn + pyval :=
  λ _ v, match v with
         | VInt z => inr (VInt (10 * z))
         | _ => inl (UserError "not an integer")
         end.

Definition router_drain_schedule : list Node.action :=
  [Node.DoPut; Node.DoPutDone; Node.DoFetch 0;
   Node.DoProcess 0; Node.DoFetch 0; Node.DoFetch 0;
   Node.DoJoin].


(** An outcome tenacity does not retry: a result, or [StopIteration]. *)
Definition settles (r : pyexn + pyval) : Prop :=
  match r with
  | inr _ => True
  | inl e => e = StopIteration
  end.

(** A transform that raises on its first two attempts and multiplies by
    ten from the third on; one that raises [StopIteration] on its second
    attempt; a jitter of one half. *)
Definition flaky : nat → pyval → pyexn + pyval :=
  λ k v, if bool_decide (k < 3) then inl (UserError "flaky")
         else times_ten k v.

Definition stops_at_two : nat → pyval → pyexn + pyval :=
  λ k _, if bool_decide (k = 2) then inl StopIteration
         else inl (UserError "first").

Definition half_jitter : nat → Q := λ _, (1 # 2)%Q.

(** What a queue item contributes to the stream of a node: itself, or its
    elements when the node flattens; and the items [_get_one_data] takes
    without raising. *)
Definition elements (a : Node.attrs) (v : pyval) : list pyval :=
  if Node.is_data_iterable a then default [] (iter_elems v) else [v].

Definition fetchable (a : Node.attrs) (v : pyval) : Prop :=
  is_stop_token v = false
  ∧ (Node.is_data_iterable a = true → is_Some (iter_elems v)).

(** A flattening node, started, with a list, an empty tuple and a string in
    its queue. *)
Definition flattener : Node.attrs :=
  {| Node.__name__ := "flatten"; Node.worker_num := 2;
     Node.queue_size := 5; Node.no_output := true;
     Node.is_data_iterable := true |}.

Definition running_flattener : Node.node :=
  Node.put (VStr "ab")
    (Node.put (VTuple [])
       (Node.put (VList [VInt 1; VInt 2])
          (Node.start (Node.__init__ flattener)).2)).

(** The same node with an integer, which is not iterable, ahead of a
    list. *)
Definition choking_flattener : Node.node :=
  Node.put (VList [VInt 1])
    (Node.put (VInt 7) (Node.start (Node.__init__ flattener)).2).

(** The items the workers of a pool are processing. *)
Definition held (w : Node.worker) : list pyval :=
  match w with Node.Processing data => [data] | _ => [] end.

Definition holding (ws : list Node.worker) : list pyval := ws ≫= held.

(** The stop tokens the caller of [end] has enqueued. *)
Definition sent_of (a : Node.attrs) (c : Node.caller) : nat :=
  match c with Node.Putting sent => sent | _ => Node.worker_num a end.

(** The value the transform stage of a node makes of a payload. *)
Definition result_of (func : nat → pyval → pyexn + pyval) (jitter : nat → Q)
           (format_exc : pyexn → string) (a : Node.attrs) (data : pyval)
  : pyval :=
  (Retry.final_wrapper func jitter format_exc (Node.__name__ a) data).1.

(** The values a destination takes from a node. *)
Definition accepts (d : Node.dest) (a : Node.attrs) (v : pyval) : Prop :=
  Node.criteria d a v = true.

#[global] Instance accepts_dec d a v : Decision (accepts d a v).
Proof. unfold accepts. apply _. Defined.

(** The payloads in a queue: what is there besides the stop tokens. *)
Definition payloads_in (q : list pyval) : list pyval :=
  filter (λ v, is_stop_token v = false) q.

(** A run of the pool of a node that is still fed.  Besides the steps of
    the node's own greenlets, another greenlet (a worker of a node
    upstream, or of a node further down a feedback loop) may put a payload
    into the queue when it has room.  [fed] lists what was put that way,
    in order. *)
Inductive fed_run (func : nat → pyval → pyexn + pyval) (jitter : nat → Q)
          (format_exc : pyexn → string)
  : list pyval → Node.pool → Node.pool → Prop :=
| fed_run_done p : fed_run func jitter format_exc [] p p
| fed_run_own fed p p' p'' :
    Node.step func jitter format_exc p p' →
    fed_run func jitter format_exc fed p' p'' →
    fed_run func jitter format_exc fed p p''
| fed_run_put fed p v p'' :
    is_stop_token v = false →
    Node.queue_has_room (Node.the_node p) = true →
    fed_run func jitter format_exc fed
            {| Node.the_node := Node.put v (Node.the_node p);
               Node.workers := Node.workers p;
               Node.in_end := Node.in_end p |} p'' →
    fed_run func jitter format_exc (v :: fed) p p''.

(** The same runs as a function of a schedule. *)
Inductive fed_action : Type :=
| Own (a : Node.action)
| Feed (v : pyval).

Definition fed_act (func : nat → pyval → pyexn + pyval) (jitter : nat → Q)
           (format_exc : pyexn → string) (a : fed_action) (p : Node.pool)
  : option Node.pool :=
  match a with
  | Own a => Node.act func jitter format_exc a p
  | Feed v =>
      if negb (is_stop_token v) && Node.queue_has_room (Node.the_node p)
      then Some {| Node.the_node := Node.put v (Node.the_node p);
                   Node.workers := Node.workers p;
                   Node.in_end := Node.in_end p |}
      else None
  end.

Fixpoint fed_schedule (func : nat → pyval → pyexn + pyval) (jitter : nat → Q)
         (format_exc : pyexn → string) (schedule : list fed_action)
         (p : Node.pool) : option Node.pool :=
  match schedule with
  | [] => Some p
  | a :: schedule' =>
      match fed_act func jitter format_exc a p with
      | Some p' => fed_schedule func jitter format_exc schedule' p'
      | None => None
      end
  end.

Definition fed_by (schedule : list fed_action) : list pyval :=
  omap (λ a, match a with Feed v => Some v | Own _ => None end) schedule.

(** The state of a node that does not flatten, while [end] runs on it and
    [fed] has been put into its queue by others.  The queue holds first
    what is left of the payloads that were there when [end] was called,
    then the stop tokens and the payloads fed since.  As long as the
    generator lives every token enqueued is there and no worker has left
    its loop; once it has finished, none of the first payloads is left and
    one token is gone.  The first payloads are those done, those in flight
    and those still queued; so are the fed ones; and every destination has
    received the accepted results of those done. *)
Definition drain_invariant
           (func : nat → pyval → pyexn + pyval) (jitter : nat → Q)
           (format_exc : pyexn → string) (a : Node.attrs)
           (dsts : pydict string Node.dest)
           (inbox0 : gmap string (list pyval)) (payloads0 fed : list pyval)
           (p : Node.pool) : Prop :=
  ∃ rest tail fin0 fin1 hold0 hold1,
    Node.self (Node.the_node p) = a
    ∧ Node.dst_nodes (Node.the_node p) = dsts
    ∧ Node.is_start (Node.the_node p) = true
    ∧ Node.src_queue (Node.the_node p) = rest ++ tail
    ∧ Forall (λ v, is_stop_token v = false) rest
    ∧ ((Node.get_data_generator (Node.the_node p)
        = Some (Node.GenSuspended [])
        ∧ sent_of a (Node.in_end p) = Node.count_stop tail
        ∧ Node.Finished ∉ Node.workers p)
       ∨ (Node.get_data_generator (Node.the_node p) = Some Node.GenFinished
          ∧ rest = []
          ∧ sent_of a (Node.in_end p) = S (Node.count_stop tail)))
    ∧ Node.executing_data_queue (Node.the_node p) ≡ₚ holding (Node.workers p)
    ∧ holding (Node.workers p) ≡ₚ hold0 ++ hold1
    ∧ payloads0 ≡ₚ fin0 ++ hold0 ++ rest
    ∧ fed ≡ₚ fin1 ++ hold1 ++ payloads_in tail
    ∧ ∀ name d, (name, d) ∈ dsts →
        Node.inboxes (Node.the_node p) !!! name
        ≡ₚ inbox0 !!! name
           ++ filter (accepts d a)
                     (result_of func jitter format_exc a <$> (fin0 ++ fin1)).

(** A routing node with two workers, started, with 3 and 4 waiting in its
    queue; a transform that adds one; and a run of [end] on it in which
    the second worker finishes its item first. *)
Definition pair_router : Node.attrs :=
  {| Node.__name__ := "pair"; Node.worker_num := 2;
     Node.queue_size := 10; Node.no_output := false;
     Node.is_data_iterable := false |}.

Definition running_pair : Node.node :=
  Node.put (VInt 4)
    (Node.put (VInt 3)
       (Node.start
          (Node.set_destination "all" accept_all
             (Node.set_destination "evens" only_even
                (Node.__init__ pair_router)))).2).

Definition successor : nat → pyval → pyexn + pyval :=
  λ _ v, match v with
         | VInt z => inr (VInt (z + 1))
         | _ => inl (UserError "not an integer")
         end.

Definition pair_drain_schedule : list Node.action :=
  [Node.DoPut; Node.DoFetch 0; Node.DoFetch 1; Node.DoPut;
   Node.DoProcess 1; Node.DoProcess 0; Node.DoPutDone;
   Node.DoFetch 0; Node.DoFetch 1; Node.DoFetch 0; Node.DoJoin].

(** A run of [end] on the same node while an upstream node puts 5 into its
    queue before the first stop token and 6 behind it. *)
Definition pair_fed_schedule : list fed_action :=
  [Feed (VInt 5); Own Node.DoPut; Feed (VInt 6);
   Own (Node.DoFetch 0); Own (Node.DoFetch 1); Own Node.DoPut;
   Own (Node.DoProcess 1); Own (Node.DoProcess 0); Own Node.DoPutDone;
   Own (Node.DoFetch 1); Own (Node.DoProcess 1);
   Own (Node.DoFetch 0); Own (Node.DoFetch 1); Own (Node.DoFetch 0);
   Own Node.DoJoin].



Definition stopped_router : Node.node :=
  (Node.fetch 0 stopping_router).2.


(** The label of slot [i] of the task with token [token], and [over_results]
    once the slots [k], [k+1], ... hold the values [vs]. *)
Definition label_of (token : pyval) (i : nat) : pyval :=
  VTuple [token; VInt (Z.of_nat i)].

Fixpoint slots_from (k : nat) (vs : list pyval) : pydict pyval pyval :=
  match vs with
  | [] => []
  | v :: vs' => (VInt (Z.of_nat k), v) :: slots_from (S k) vs'
  end.

(** What the tail decorator forwards for a task with [n] slots. *)
Definition aggregate (data token : pyval) (n : nat) : pyval :=
  VLabelData (VTuple [data; VList (replicate n (VBool true))]) token.

(** One call of [get_label] for each of the elements [points] of
    [data_gen], in order; and results reaching the tail one after another,
    each under the label of its slot. *)
Fixpoint label_each (generate_label : pyval → pyval) (data_gen : pyval)
         (points : list pyval)
  : Py IterablePipeline.IterablePipeline (list pyval) :=
  match points with
  | [] => py_ret []
  | data_point :: points' =>
      (label <~ IterablePipeline.get_label generate_label data_point data_gen ;;
       labels <~ label_each generate_label data_gen points' ;;
       py_ret (label :: labels))%py
  end.

Fixpoint put_each (token : pyval) (results : list (nat * pyval))
  : Py IterablePipeline.IterablePipeline unit :=
  match results with
  | [] => py_ret tt
  | (slot, content) :: results' =>
      (IterablePipeline._iterable_put_data_wrapper
         (VLabelData content (label_of token slot)) ;;;
       put_each token results')%py
  end.

(** The slots that hold no result yet. *)
Definition unfilled (vs : list pyval) : nat :=
  length (filter (λ v, v = VNone) vs).

(** A task as [get_label] leaves it after [m] calls. *)
Definition labelled_task (generate_label : pyval → pyval) (data : pyval)
           (m : nat) (probe : list pyval) (exhausted : bool)
  : IterablePipeline.ProcessingTask :=
  {| IterablePipeline.index := m;
     IterablePipeline.over_results := slots_from 0 (replicate m VNone);
     IterablePipeline.original_data := data;
     IterablePipeline._iter := probe;
     IterablePipeline.is_generator_exhausted := exhausted;
     IterablePipeline.task_label := generate_label data |}.

(** A task with the result [content] stored in its slot [i]. *)
Definition with_result (task : IterablePipeline.ProcessingTask)
           (vs : list pyval) (i : nat) (content : pyval)
  : IterablePipeline.ProcessingTask :=
  {| IterablePipeline.index := IterablePipeline.index task;
     IterablePipeline.over_results := slots_from 0 (<[i:=content]> vs);
     IterablePipeline.original_data := IterablePipeline.original_data task;
     IterablePipeline._iter := IterablePipeline._iter task;
     IterablePipeline.is_generator_exhausted :=
       IterablePipeline.is_generator_exhausted task;
     IterablePipeline.task_label := IterablePipeline.task_label task |}.
(** * Properties *)

(** A decidable statement about concrete data, settled by evaluation. *)
Ltac by_compute := apply (bool_decide_unpack _); vm_compute; exact I.

(** ** Dictionaries and lists *)

Section dict_facts.
Context {K V : Type} `{EqDecision K}.
Implicit Types (d : pydict K V) (k : K) (v : V).

Lemma dict_get_set_eq d k v : dict_get (dict_set d k v) k = Some v.
Proof.
  induction d as [|[k' v'] d IH]; simpl.
  - by rewrite decide_True.
  - destruct (decide (k' = k)) as [->|Hne]; simpl.
    + by rewrite decide_True.
    + by rewrite decide_False.
Qed.

Lemma dict_get_set_ne d k k' v :
  k ≠ k' → dict_get (dict_set d k v) k' = dict_get d k'.
Proof.
  intros Hne. induction d as [|[k0 v0] d IH]; simpl.
  - by rewrite decide_False.
  - destruct (decide (k0 = k)) as [->|Hk]; simpl.
    + by rewrite !decide_False.
    + destruct (decide (k0 = k')); [done | apply IH].
Qed.

Lemma dict_get_Some_elem_of d k v : dict_get d k = Some v → (k, v) ∈ d.
Proof.
  induction d as [|[k0 v0] d IH]; simpl; [done|].
  destruct (decide (k0 = k)) as [->|Hk].
  - intros [= ->]. left.
  - intros Hd. right. by apply IH.
Qed.

Lemma dict_get_None_keys d k : dict_get d k = None → k ∉ dict_keys d.
Proof.
  unfold dict_keys. induction d as [|[k0 v0] d IH]; simpl.
  - intros _. apply not_elem_of_nil.
  - destruct (decide (k0 = k)) as [->|Hk]; [done|].
    intros Hd. apply not_elem_of_cons. split; [congruence | by apply IH].
Qed.

(** Assignment keeps the keys where they are, or appends a new one. *)
Lemma dict_keys_set d k v :
  dict_keys (dict_set d k v)
  = if decide (k ∈ dict_keys d) then dict_keys d else dict_keys d ++ [k].
Proof.
  unfold dict_keys. induction d as [|[k0 v0] d IH].
  - destruct (decide (k ∈ [].*1)) as [Hin|_]; [|done].
    by apply elem_of_nil in Hin.
  - cbn [dict_set]. destruct (decide (k0 = k)) as [->|Hne].
    + destruct (decide (k ∈ ((k, v0) :: d).*1)) as [_|Hnin]; [done|].
      exfalso. apply Hnin. left.
    + rewrite !fmap_cons, IH. cbn [fst].
      destruct (decide (k ∈ d.*1)) as [Hin|Hnin].
      * rewrite decide_True; [done|]. by right.
      * rewrite decide_False; [done|].
        intros [->|Hin]%elem_of_cons; done.
Qed.

(** So the keys of a dictionary built by assignments are distinct. *)
Lemma dict_set_NoDup_keys d k v :
  NoDup (dict_keys d) → NoDup (dict_keys (dict_set d k v)).
Proof.
  intros Hdup. rewrite dict_keys_set.
  destruct (decide (k ∈ dict_keys d)) as [Hin|Hnin]; [done|].
  apply NoDup_app. split_and!; [done| |apply NoDup_singleton].
  intros x Hx ->%list_elem_of_singleton. done.
Qed.
End dict_facts.

Section list_remove_facts.
Context {A : Type} `{EqDecision A}.
Implicit Types (x y : A) (l : list A).

Lemma list_remove_elem_of x l : x ∈ l → is_Some (list_remove x l).
Proof.
  induction l as [|y l IH]; simpl.
  - by intros ?%elem_of_nil.
  - intros Hx. destruct (decide (y = x)); [eauto|].
    apply elem_of_cons in Hx as [->|Hx]; [done|].
    destruct (IH Hx) as [l' ->]. simpl. eauto.
Qed.

Lemma list_remove_Some x l l' :
  list_remove x l = Some l' →
  ∃ l1 l2, l = l1 ++ x :: l2 ∧ l' = l1 ++ l2 ∧ x ∉ l1.
Proof.
  revert l'. induction l as [|y l IH]; simpl; intros l'; [done|].
  destruct (decide (y = x)) as [->|Hne].
  - intros [= <-]. exists [], l. split_and!; [done..|apply not_elem_of_nil].
  - destruct (list_remove x l) as [l0|] eqn:Hl; simpl; [|done].
    intros [= <-]. destruct (IH _ eq_refl) as (l1 & l2 & -> & -> & Hnin).
    exists (y :: l1), l2. split_and!; [done..|].
    apply not_elem_of_cons. split; [congruence | done].
Qed.

Lemma list_remove_app_l x l1 l2 l1' :
  list_remove x l1 = Some l1' → list_remove x (l1 ++ l2) = Some (l1' ++ l2).
Proof.
  revert l1'. induction l1 as [|y l1 IH]; simpl; intros l1'; [done|].
  destruct (decide (y = x)); [by intros [= <-]|].
  destruct (list_remove x l1) as [l0|]; simpl; [|done].
  intros [= <-]. by rewrite (IH _ eq_refl).
Qed.

Lemma list_remove_length x l l' :
  list_remove x l = Some l' → length l = S (length l').
Proof.
  intros (l1 & l2 & -> & -> & _)%list_remove_Some.
  rewrite !length_app. simpl. lia.
Qed.

Lemma list_remove_last x l :
  x ∉ l → list_remove x (l ++ [x]) = Some l.
Proof.
  induction l as [|y l IH]; simpl; intros Hx.
  - by rewrite decide_True.
  - apply not_elem_of_cons in Hx as [Hne Hx].
    rewrite decide_False by congruence. by rewrite IH.
Qed.


Lemma list_remove_elem_of_ne x y l l' :
  x ≠ y → list_remove x l = Some l' → y ∈ l → y ∈ l'.
Proof.
  intros Hne (l1 & l2 & -> & -> & _)%list_remove_Some.
  rewrite !elem_of_app, elem_of_cons. intros [?|[?|?]]; [by left|done|by right].
Qed.
End list_remove_facts.

(** ** Option precedence (C9) *)

Lemma pick_truthy cfg arg key default :
  truthy arg = true → Config.pick cfg arg key default = arg.
Proof. unfold Config.pick. by intros ->. Qed.

Lemma pick_falsy cfg arg key default :
  truthy arg = false →
  Config.pick cfg arg key default = dict_get_default cfg key default.
Proof. unfold Config.pick. by intros ->. Qed.

(** C9, as stated, fails: the constructor argument [worker_num=0] is passed
    explicitly, the configuration file gives [worker_num] 4, and the node
    gets 4 workers, not the 0 it was given. *)
Lemma C9_explicit_zero_is_overridden :
  let cfg := Config.ASYNC_DFD_CONFIG (Config.Present [("worker_num", VInt 4)])
  in Config.worker_num cfg (VInt 0) = VInt 4
     ∧ Config.worker_num cfg (VInt 0) ≠ VInt 0.
Proof. split; [reflexivity | discriminate]. Qed.

(** C9, amended: a constructor argument that is truthy (neither [None] nor
    0) is the effective value of [worker_num], [queue_size] and [timeout],
    whatever the configuration holds; for a falsy argument the value comes
    from the global configuration when it has the key, and is the built-in
    default (10, 10, [None]) when it has not; with no configuration file
    the configuration is the empty mapping, so that a falsy argument gives
    the built-in defaults. *)
Theorem C9_option_precedence (src : Config.config_source) (arg : pyval) :
  let cfg := Config.ASYNC_DFD_CONFIG src in
  (truthy arg = true →
     Config.worker_num cfg arg = arg ∧ Config.queue_size cfg arg = arg
     ∧ Config.timeout cfg arg = arg)
  ∧ (truthy arg = false →
       (∀ v, dict_get cfg "worker_num" = Some v →
             Config.worker_num cfg arg = v)
       ∧ (∀ v, dict_get cfg "queue_size" = Some v →
               Config.queue_size cfg arg = v)
       ∧ (∀ v, dict_get cfg "timeout" = Some v → Config.timeout cfg arg = v)
       ∧ (dict_get cfg "worker_num" = None →
          Config.worker_num cfg arg = VInt 10)
       ∧ (dict_get cfg "queue_size" = None →
          Config.queue_size cfg arg = VInt 10)
       ∧ (dict_get cfg "timeout" = None → Config.timeout cfg arg = VNone))
  ∧ (src = Config.Absent →
       cfg = []
       ∧ (truthy arg = false →
            Config.worker_num cfg arg = VInt 10
            ∧ Config.queue_size cfg arg = VInt 10
            ∧ Config.timeout cfg arg = VNone)).
Proof.
  intros cfg. split_and!.
  - intros Ht. unfold Config.worker_num, Config.queue_size, Config.timeout.
    by rewrite !pick_truthy.
  - intros Hf. unfold Config.worker_num, Config.queue_size, Config.timeout.
    rewrite !pick_falsy by done. unfold dict_get_default.
    split_and!; try (by intros v ->); by intros ->.
  - intros ->. split; [done|]. intros Hf.
    unfold Config.worker_num, Config.queue_size, Config.timeout.
    by rewrite !pick_falsy.
Qed.

Lemma C9_option_precedence_witness :
  Config.worker_num (Config.ASYNC_DFD_CONFIG
                       (Config.Present [("worker_num", VInt 4)])) (VInt 2)
  = VInt 2
  ∧ Config.worker_num (Config.ASYNC_DFD_CONFIG
                         (Config.Present [("worker_num", VInt 4)])) VNone
    = VInt 4
  ∧ Config.queue_size (Config.ASYNC_DFD_CONFIG Config.Absent) VNone = VInt 10.
Proof.
  split_and!.
  - destruct (C9_option_precedence
                (Config.Present [("worker_num", VInt 4)]) (VInt 2))
      as (Hgiven & _ & _).
    apply Hgiven. reflexivity.
  - destruct (C9_option_precedence
                (Config.Present [("worker_num", VInt 4)]) VNone)
      as (_ & Hconfig & _).
    apply Hconfig; reflexivity.
  - destruct (C9_option_precedence Config.Absent VNone) as (_ & _ & Habsent).
    apply Habsent; reflexivity.
Defined.

(** ** Decorator order (C8) *)

Lemma list_remove_None {A} `{EqDecision A} (x : A) (l : list A) :
  x ∉ l → list_remove x l = None.
Proof.
  induction l as [|y l IH]; simpl; [done|].
  intros [Hne Hx]%not_elem_of_cons.
  rewrite decide_False by congruence. by rewrite IH.
Qed.

Lemma without_first_absent d l : d ∉ l → Node.without_first d l = l.
Proof. intros Hd. unfold Node.without_first. by rewrite list_remove_None. Qed.

Lemma without_first_present d l :
  d ∈ l → list_remove d l = Some (Node.without_first d l).
Proof.
  intros [l' Hl']%list_remove_elem_of.
  unfold Node.without_first. by rewrite Hl'.
Qed.


Lemma without_first_elem_of_ne d d' l :
  d ≠ d' → d' ∈ l → d' ∈ Node.without_first d l.
Proof.
  intros Hne Hd'. unfold Node.without_first.
  destruct (list_remove d l) as [l'|] eqn:Hl; simpl; [|done].
  by eapply list_remove_elem_of_ne.
Qed.

Lemma set_top_decorator_registered registered d new_decorators :
  d ∈ registered → d ∈ new_decorators →
  Node.set_top_decorator registered d new_decorators
  = inr (Node.without_first d new_decorators ++ [d]).
Proof.
  intros Hreg Hnew. unfold Node.set_top_decorator.
  rewrite bool_decide_eq_true_2 by done.
  by rewrite (without_first_present _ _ Hnew).
Qed.

Lemma set_top_decorator_unregistered registered d new_decorators :
  d ∉ registered →
  Node.set_top_decorator registered d new_decorators = inr new_decorators.
Proof.
  intros Hreg. unfold Node.set_top_decorator.
  by rewrite bool_decide_eq_false_2.
Qed.

(** [_rearrange_proc_decorator] never raises, and this is the list it
    leaves. *)
Lemma rearranged_eq (l : list Node.decorator) :
  Node.rearranged l
  = inr (Node.without_first Node.skip_data_decorator
           (Node.without_first Node.label_proc_decorator l)
         ++ Node.tops l).
Proof.
  unfold Node.rearranged, Node.tops.
  destruct (decide (Node.label_proc_decorator ∈ l)) as [Hl|Hl].
  - rewrite set_top_decorator_registered by done.
    rewrite (bool_decide_eq_true_2 _ Hl).
    destruct (decide (Node.skip_data_decorator ∈ l)) as [Hs|Hs].
    + assert (Node.skip_data_decorator
              ∈ Node.without_first Node.label_proc_decorator l) as Hs'
        by (by apply without_first_elem_of_ne).
      rewrite set_top_decorator_registered;
        [|done|apply elem_of_app; by left].
      rewrite (bool_decide_eq_true_2 _ Hs). f_equal.
      unfold Node.without_first at 1.
      rewrite (list_remove_app_l _ _ _ _ (without_first_present _ _ Hs')).
      simpl. by rewrite <-!app_assoc.
    + rewrite set_top_decorator_unregistered by done.
      rewrite (bool_decide_eq_false_2 _ Hs). f_equal.
      rewrite app_nil_r. f_equal. symmetry. apply without_first_absent.
      intros Hin. apply Hs.
      unfold Node.without_first in Hin.
      destruct (list_remove _ l) as [l'|] eqn:Hrm; simpl in Hin; [|done].
      apply list_remove_Some in Hrm as (l1 & l2 & -> & -> & _).
      revert Hin. rewrite !elem_of_app, elem_of_cons. tauto.
  - rewrite set_top_decorator_unregistered by done.
    rewrite (bool_decide_eq_false_2 _ Hl).
    rewrite (without_first_absent _ _ Hl).
    destruct (decide (Node.skip_data_decorator ∈ l)) as [Hs|Hs].
    + rewrite set_top_decorator_registered by done.
      by rewrite (bool_decide_eq_true_2 _ Hs).
    + rewrite set_top_decorator_unregistered by done.
      rewrite (bool_decide_eq_false_2 _ Hs).
      by rewrite (without_first_absent _ _ Hs), app_nil_r.
Qed.

Lemma layers_wrap_all ds f :
  Node.layers (Node.wrap_all ds f) = rev ds ++ Node.layers f.
Proof.
  unfold Node.wrap_all. revert f.
  induction ds as [|d ds IH]; intros f; simpl; [done|].
  rewrite IH. simpl. by rewrite <-app_assoc.
Qed.

(** What [_setup_decorators] leaves in the node. *)
Lemma _setup_decorators_eq (s : Node.node) :
  let l := Node.without_first Node.skip_data_decorator
             (Node.without_first Node.label_proc_decorator
                (Node.proc_decorators s))
           ++ Node.tops (Node.proc_decorators s) in
  Node._setup_decorators s
  = (inr tt,
     Node.set_bound_put_data
       (Node.wrap_all (Node.put_decorators s)
                          (Node.bound_put_data s))
       (Node.set_bound_proc_data
          (Node.wrap_all l (Node.bound_proc_data s))
          (Node.set_bound_get_one_data
             (Node.wrap_all (Node.get_decorators s)
                                (Node.bound_get_one_data s))
             (Node.set_proc_decorators l s)))).
Proof.
  intros l. unfold Node._setup_decorators, py_bind,
    Node._rearrange_proc_decorator, py_modify.
  rewrite rearranged_eq. by destruct s.
Qed.






(** ** Start-up validation (C5) *)

Lemma _validate_destinations_miswired s :
  miswired s →
  ∃ msg, Node._validate_destinations s = (inl (AssertionError msg), s).
Proof.
  unfold Node._validate_destinations, py_bind, py_get.
  intros [[Hno Hdst]|[Hno Hdst]]; rewrite Hno.
  - destruct (Node.dst_nodes s) as [|nd l]; [done|].
    simpl. eauto.
  - rewrite Hdst. simpl. eauto.
Qed.

Lemma _validate_destinations_wired s :
  ¬ miswired s → Node._validate_destinations s = (inr tt, s).
Proof.
  unfold miswired, Node._validate_destinations, py_bind, py_get.
  intros Hok.
  destruct (Node.no_output (Node.self s)) eqn:Hno,
           (Node.dst_nodes s) as [|nd l] eqn:Hdst; simpl; try done.
  - exfalso. apply Hok. left. done.
  - exfalso. apply Hok. right. done.
Qed.

(** C5: [start] validates the wiring first.  A node marked [no_output] with
    a registered destination, or not so marked with none, makes [start]
    raise the assertion's error and leaves the node as it was: no task, no
    generator, not running.  Any other node passes, and [start] returns with
    exactly [worker_num] new worker tasks. *)
Theorem C5_start_validates_before_spawning (s : Node.node) :
  (miswired s →
     ∃ msg, Node.start s = (inl (AssertionError msg), s))
  ∧ (¬ miswired s →
       ∃ s', Node.start s = (inr (Node.tasks s'), s')
             ∧ Node.tasks s'
               = Node.tasks s
                 ++ seq 0 (Node.worker_num (Node.self s))
             ∧ length (Node.tasks s')
               = length (Node.tasks s)
                 + Node.worker_num (Node.self s)
             ∧ Node.is_start s' = true).
Proof.
  split.
  - intros Hbad.
    apply _validate_destinations_miswired in Hbad as [msg Hbad]. exists msg.
    unfold Node.start, py_bind. by rewrite Hbad.
  - intros Hok. apply _validate_destinations_wired in Hok.
    unfold Node.start. unfold py_bind at 1. rewrite Hok.
    unfold py_bind at 1. rewrite _setup_decorators_eq.
    eexists. split; [by destruct s|].
    destruct s; simpl. split_and!; [done| |done].
    by rewrite length_app, length_seq.
Qed.

Lemma C5_start_validates_before_spawning_witness :
  (∃ msg,
     Node.start
       (Node.set_destination "next" accept_all (Node.__init__ sink))
     = (inl (AssertionError msg),
        Node.set_destination "next" accept_all (Node.__init__ sink)))
  ∧ (∃ s', Node.start (Node.__init__ sink)
           = (inr (Node.tasks s'), s')
           ∧ Node.tasks s' = [0; 1; 2]).
Proof.
  split.
  - apply (C5_start_validates_before_spawning
             (Node.set_destination "next" accept_all
                (Node.__init__ sink))).
    left. split; [reflexivity | discriminate].
  - destruct (C5_start_validates_before_spawning (Node.__init__ sink))
      as [_ Hok].
    destruct Hok as (s' & Hstart & Htasks & _).
    + intros [[_ Hdst]|[Hno _]]; [by apply Hdst | discriminate].
    + exists s'. split; [exact Hstart | exact Htasks].
Defined.

(** ** Routing (C6) *)

Section routing.
Variables (a : Node.attrs) (data : pyval).

Let route (acc : Node.node) (nd : string * Node.dest)
  : Node.node :=
  if Node.criteria nd.2 a data then Node.deliver nd.1 data acc
  else acc.

Lemma route_only_inboxes dsts acc :
  foldl route acc dsts
  = Node.set_inboxes (Node.inboxes (foldl route acc dsts)) acc.
Proof.
  revert acc. induction dsts as [|nd dsts IH]; intros acc; simpl.
  - by destruct acc.
  - rewrite (IH (route acc nd)).
    generalize (Node.inboxes (foldl route (route acc nd) dsts)).
    intros m. unfold route.
    destruct (Node.criteria nd.2 a data); by destruct acc.
Qed.

Lemma route_absent dsts acc name :
  name ∉ dsts.*1 →
  Node.inboxes (foldl route acc dsts) !!! name
  = Node.inboxes acc !!! name.
Proof.
  revert acc. induction dsts as [|[n d] dsts IH]; intros acc; simpl; [done|].
  intros [Hne Hnin]%not_elem_of_cons. rewrite IH by done.
  unfold route. simpl. destruct (Node.criteria d a data); [|done].
  destruct acc; simpl. by rewrite lookup_total_insert_ne.
Qed.

Lemma route_present dsts acc name d :
  NoDup dsts.*1 → (name, d) ∈ dsts →
  Node.inboxes (foldl route acc dsts) !!! name
  = Node.inboxes acc !!! name
    ++ (if Node.criteria d a data then [data] else []).
Proof.
  revert acc. induction dsts as [|[n d'] dsts IH]; intros acc; simpl.
  - by intros _ ?%elem_of_nil.
  - intros [Hn Hnd]%NoDup_cons [Heq|Hin]%elem_of_cons.
    + injection Heq as <- <-. rewrite route_absent by done.
      unfold route. simpl. destruct (Node.criteria d a data).
      * destruct acc; simpl. by rewrite lookup_total_insert_eq.
      * by rewrite app_nil_r.
    + rewrite IH by done. f_equal.
      assert (n ≠ name) as Hne.
      { intros ->. apply Hn. apply list_elem_of_fmap. by exists (name, d). }
      unfold route. simpl. destruct (Node.criteria d' a data); [|done].
      destruct acc; simpl. by rewrite lookup_total_insert_ne.
Qed.

Lemma route_inboxes_congr dsts acc1 acc2 :
  Node.inboxes acc1 = Node.inboxes acc2 →
  Node.inboxes (foldl route acc1 dsts)
  = Node.inboxes (foldl route acc2 dsts).
Proof.
  revert acc1 acc2.
  induction dsts as [|nd dsts IH]; intros acc1 acc2 Hin; simpl; [done|].
  apply IH. unfold route. destruct (Node.criteria nd.2 a data); [|done].
  unfold Node.deliver. rewrite Hin. by destruct acc1, acc2.
Qed.
End routing.

Lemma _put_data_only_inboxes data s :
  Node._put_data data s
  = Node.set_inboxes (Node.inboxes (Node._put_data data s)) s.
Proof. apply route_only_inboxes. Qed.

(** The destination map keeps its keys distinct through [set_destination],
    from the empty map of [__init__] on. *)
Lemma set_destination_NoDup name d s :
  NoDup (dict_keys (Node.dst_nodes s)) →
  NoDup (dict_keys (Node.dst_nodes (Node.set_destination name d s))).
Proof.
  intros Hdup. unfold Node.set_destination.
  replace (Node.dst_nodes (Node.set_dst_nodes _ s))
    with (dict_set (Node.dst_nodes s) name d) by (by destruct s).
  by apply dict_set_NoDup_keys.
Qed.

(** C6: the put stage walks every destination and appends the value to the
    input queue of exactly those whose predicate, called with the source
    node and the value, returns true; a destination is served whatever the
    others answer, the queues of other nodes are untouched, nothing else in
    the node changes, and a destination with the default predicate always
    receives the value. *)
Theorem C6_put_routes_by_criteria (s : Node.node) (data : pyval) :
  NoDup (dict_keys (Node.dst_nodes s)) →
  let s' := Node._put_data data s in
  (∀ name d, (name, d) ∈ Node.dst_nodes s →
     Node.inboxes s' !!! name
     = Node.inboxes s !!! name
       ++ (if Node.criteria d (Node.self s) data
           then [data] else []))
  ∧ (∀ name d, (name, d) ∈ Node.dst_nodes s →
       Node.criteria d = Node.default_criteria →
       Node.inboxes s' !!! name = Node.inboxes s !!! name ++ [data])
  ∧ (∀ name, name ∉ dict_keys (Node.dst_nodes s) →
       Node.inboxes s' !!! name = Node.inboxes s !!! name)
  ∧ s' = Node.set_inboxes (Node.inboxes s') s.
Proof.
  intros Hdup s'. split_and!.
  - intros name d Hin. by apply route_present.
  - intros name d Hin Hdefault.
    unfold s', Node._put_data.
    rewrite (route_present _ _ _ _ name d Hdup Hin). by rewrite Hdefault.
  - intros name Hname. by apply route_absent.
  - apply _put_data_only_inboxes.
Qed.

Lemma C6_put_routes_by_criteria_witness :
  let s' := Node._put_data (VInt 3) router_node in
  Node.inboxes s' !!! "evens" = [] ∧ Node.inboxes s' !!! "all" = [VInt 3].
Proof.
  assert (NoDup (dict_keys (Node.dst_nodes router_node))) as Hdup.
  { by_compute. }
  destruct (C6_put_routes_by_criteria router_node (VInt 3) Hdup)
    as (Hrouted & _).
  assert (Node.dst_nodes router_node
          = [("evens", only_even); ("all", accept_all)]) as Hdst
    by reflexivity.
  rewrite Hdst in Hrouted. split.
  - apply (Hrouted "evens" only_even). left.
  - apply (Hrouted "all" accept_all). right. left.
Defined.

(** ** Retry, error values and the stop token (C3, C4) *)

Section retry_facts.
Variable func : nat → pyval → pyexn + pyval.
Variable jitter : nat → Q.
Variable format_exc : pyexn → string.
Variable name : string.

Lemma wait_exponential_jitter_bounds k :
  (0 <= Retry.wait_exponential_jitter jitter k)%Q
  ∧ (Retry.wait_exponential_jitter jitter k <= 10)%Q.
Proof.
  unfold Retry.wait_exponential_jitter. split.
  - apply Q.le_max_l.
  - apply Q.max_lub; [done | apply Q.le_min_r].
Qed.

(** With the jitter in [0, 1], the sleep after each of the first four
    attempts is the power of two of that attempt plus at most one: the cap
    of 10 is not reached. *)
Lemma wait_exponential_jitter_backoff k :
  (0 <= jitter k)%Q → (jitter k <= 1)%Q → 1 ≤ k ≤ 4 →
  (inject_Z (2 ^ Z.of_nat (k - 1)) <= Retry.wait_exponential_jitter jitter k)%Q
  ∧ (Retry.wait_exponential_jitter jitter k
     <= inject_Z (2 ^ Z.of_nat (k - 1)) + 1)%Q
  ∧ Retry.within_rounding (inject_Z (2 ^ Z.of_nat (k - 1)) + jitter k)
                          (Retry.wait_exponential_jitter jitter k).
Proof.
  intros Hlo Hhi Hk. unfold Retry.wait_exponential_jitter.
  set (x := (inject_Z (2 ^ Z.of_nat (k - 1)) + jitter k)%Q).
  assert (inject_Z (2 ^ Z.of_nat (k - 1)) <= 8)%Q as Hpow.
  { change 8%Q with (inject_Z (2 ^ 3)). rewrite <-Zle_Qle.
    apply Z.pow_le_mono_r; lia. }
  assert (0 <= inject_Z (2 ^ Z.of_nat (k - 1)))%Q as Hpos.
  { change 0%Q with (inject_Z 0). rewrite <-Zle_Qle.
    apply Z.pow_nonneg. lia. }
  assert (0 <= x)%Q as Hx0 by (unfold x; lra).
  assert (x <= 9)%Q as Hx9 by (unfold x; lra).
  destruct (Q.min_spec x 10) as [[_ Hmin]|[Hc _]]; [|lra].
  assert (0 <= Retry.rounding)%Q as Hr by done.
  unfold Retry.within_rounding.
  destruct (Q.max_spec 0 (Qmin x 10)) as [[_ Hmax]|[Hc Hmax]];
    rewrite Hmax; [|rewrite Hmin in Hc]; split_and!; unfold x in *; lra.
Qed.

Lemma error_wrapper_body_raises k data e :
  func k data = inl e → e ≠ StopIteration →
  Retry.error_wrapper_body func k data
  = (inl e, [Retry.Attempt k; Retry.Logged e]).
Proof.
  intros Hf He. unfold Retry.error_wrapper_body. rewrite Hf.
  by destruct e.
Qed.

(** A transform that raises on every attempt uses up the attempts that are
    left, sleeping between two attempts, and ends in [RetryError]. *)
Lemma retrying_always_raises errs data attempts_left k :
  (∀ j, func j data = inl (errs j)) →
  (∀ j, errs j ≠ StopIteration) →
  ∃ ev,
    Retry.retrying func jitter attempts_left k data
    = (inl (RetryError (errs (k + attempts_left))), ev)
    ∧ Retry.attempts ev = seq k (S attempts_left)
    ∧ Retry.sleeps ev
      = Retry.wait_exponential_jitter jitter <$> seq k attempts_left.
Proof.
  intros Hf He. revert k.
  induction attempts_left as [|n IH]; intros k; simpl;
    rewrite (error_wrapper_body_raises k data (errs k)) by done;
    unfold Retry.retry_if_not_StopIteration;
    rewrite bool_decide_eq_true_2 by done.
  - eexists. split_and!; [by rewrite Nat.add_0_r|done..].
  - replace (k + S n) with (S k + n) by lia.
    destruct (IH (S k)) as (ev & -> & Hatt & Hsl).
    eexists. split_and!; [done|..].
    + simpl. by rewrite Hatt.
    + simpl. by rewrite Hsl.
Qed.

Lemma final_wrapper_always_raises errs data :
  (∀ j, func j data = inl (errs j)) →
  (∀ j, errs j ≠ StopIteration) →
  ∃ ev,
    Retry.final_wrapper func jitter format_exc name data
    = (VNodeProcessingError data name (RetryError (errs 5))
         (format_exc (RetryError (errs 5))), ev)
    ∧ Retry.attempts ev = [1; 2; 3; 4; 5]
    ∧ Retry.sleeps ev
      = Retry.wait_exponential_jitter jitter <$> [1; 2; 3; 4].
Proof.
  intros Hf He. unfold Retry.final_wrapper, Retry.error_wrapper.
  destruct (retrying_always_raises errs data
              (Retry.max_attempt_number - 1) 1 Hf He)
    as (ev & -> & Hatt & Hsl).
  by exists ev.
Qed.

(** [StopIteration] is not retried: one attempt, and the exception is what
    [error_wrapper] raises. *)
Lemma error_wrapper_StopIteration data :
  func 1 data = inl StopIteration →
  Retry.error_wrapper func jitter data
  = (inl StopIteration, [Retry.Attempt 1]).
Proof.
  intros Hf. unfold Retry.error_wrapper. simpl.
  unfold Retry.error_wrapper_body. by rewrite Hf.
Qed.
End retry_facts.

Section worker_facts.
Variable func : nat → pyval → pyexn + pyval.
Variable jitter : nat → Q.
Variable format_exc : pyexn → string.

Lemma inboxes_put_data_congr v s1 s2 :
  Node.self s1 = Node.self s2 →
  Node.dst_nodes s1 = Node.dst_nodes s2 →
  Node.inboxes s1 = Node.inboxes s2 →
  Node.inboxes (Node._put_data v s1)
  = Node.inboxes (Node._put_data v s2).
Proof.
  unfold Node._put_data. intros -> -> Hin.
  by apply route_inboxes_congr.
Qed.

(** A pass of the loop that finds a payload at the head of the queue holds
    it. *)
Lemma fetch_payload task_id s data q :
  Node.is_start s = true →
  Node.get_data_generator s = Some (Node.GenSuspended []) →
  Node.src_queue s = data :: q →
  is_stop_token data = false →
  Node.is_data_iterable (Node.self s) = false →
  length (Node.executing_data_queue s)
  < Node.worker_num (Node.self s) →
  Node.fetch task_id s
  = (Node.Holding data,
     Node.set_executing_data_queue
       (Node.executing_data_queue s ++ [data])
       (Node.set_src_queue q s)).
Proof.
  intros Hstart Hgen Hq Hstop Hflat Hlen.
  unfold Node.fetch, Node.next_get_data.
  rewrite Hstart, Hgen, Hq. simpl.
  rewrite bool_decide_eq_true_2 by done.
  unfold Node._get_one_data, Node._get_one_data_frame.
  rewrite Hstop, Hflat. destruct s; simpl in *. by subst.
Qed.

(** A pass of the loop that finds the stop token at the head of the queue:
    the generator ends with [RuntimeError], which the worker logs as an
    unexpected error before going on. *)
Lemma fetch_stop_token task_id s q :
  Node.is_start s = true →
  Node.get_data_generator s = Some (Node.GenSuspended []) →
  Node.src_queue s = Node.stop_token :: q →
  length (Node.executing_data_queue s)
  < Node.worker_num (Node.self s) →
  Node.fetch task_id s
  = (Node.Continue,
     Node.add_log
       (Node.LogUnexpected task_id
          (RuntimeError "generator raised StopIteration") None)
       (Node.set_src_queue q
          (Node.set_get_data_generator (Some Node.GenFinished) s))).
Proof.
  intros Hstart Hgen Hq Hlen.
  unfold Node.fetch, Node.next_get_data.
  rewrite Hstart, Hgen, Hq. simpl.
  by rewrite bool_decide_eq_true_2 by done.
Qed.

(** Once the generator has finished, every pass of every worker breaks. *)
Lemma fetch_finished task_id s :
  Node.is_start s = true →
  Node.get_data_generator s = Some Node.GenFinished →
  length (Node.executing_data_queue s)
  < Node.worker_num (Node.self s) →
  Node.fetch task_id s
  = (Node.Break, Node.add_log (Node.LogStop task_id) s).
Proof.
  intros Hstart Hgen Hlen.
  unfold Node.fetch, Node.next_get_data.
  rewrite Hstart, Hgen. simpl.
  by rewrite bool_decide_eq_true_2 by done.
Qed.

Lemma list_remove_snoc_Permutation (x : pyval) l l' :
  list_remove x (l ++ [x]) = Some l' → l' ≡ₚ l.
Proof.
  intros (l1 & l2 & Heq & -> & _)%list_remove_Some.
  apply (Permutation_cons_inv (a := x)).
  rewrite Permutation_middle, <-Heq.
  by rewrite Permutation_app_comm.
Qed.

(** C3: a transform that raises on every attempt, with something other than
    the stop signal, is called exactly 5 times (the first attempt and four
    retries).  Between the attempts there are exactly four sleeps, with
    exponential backoff plus jitter: the jitter being drawn from [0, 1],
    the sleeps lie in [1, 2], [2, 3], [4, 5] and [8, 9], each one the next
    power of two plus the jitter of that attempt, up to the rounding of the
    floating-point sum; no wait, after whatever attempt, is longer than the
    cap of 10.  The call then
    returns one error value holding the input, the node's name, the cause
    (tenacity's [RetryError] around the exception of the fifth attempt) and
    the formatted trace; no exception leaves it.  On a node whose stages are
    not decorated, the worker pass that took the input from the queue does
    not leave the loop: the error value is what the put stage gets, and it
    is routed to the destinations like any result; when the puts have gone
    through (a put into a full queue waits), the input has left the
    in-flight list and the worker is back at the top of its loop. *)
Theorem C3_failing_transform_yields_error_value
        (s : Node.node) (task_id : nat) (data : pyval)
        (q : list pyval) (errs : nat → pyexn) :
  (∀ k, func k data = inl (errs k)) →
  (∀ k, errs k ≠ StopIteration) →
  (∀ k, (0 <= jitter k)%Q ∧ (jitter k <= 1)%Q) →
  Node.undecorated s →
  Node.is_start s = true →
  Node.get_data_generator s = Some (Node.GenSuspended []) →
  Node.src_queue s = data :: q →
  is_stop_token data = false →
  Node.is_data_iterable (Node.self s) = false →
  length (Node.executing_data_queue s)
  < Node.worker_num (Node.self s) →
  let cause := RetryError (errs 5) in
  let error_value :=
    VNodeProcessingError data (Node.__name__ (Node.self s)) cause
                         (format_exc cause) in
  ∃ ev s' w1 w2 w3 w4,
    Retry.final_wrapper func jitter format_exc
                        (Node.__name__ (Node.self s)) data
    = (error_value, ev)
    ∧ Retry.attempts ev = [1; 2; 3; 4; 5]
    ∧ Retry.sleeps ev = [w1; w2; w3; w4]
    ∧ ((1 <= w1)%Q ∧ (w1 <= 2)%Q)
    ∧ ((2 <= w2)%Q ∧ (w2 <= 3)%Q)
    ∧ ((4 <= w3)%Q ∧ (w3 <= 5)%Q)
    ∧ ((8 <= w4)%Q ∧ (w4 <= 9)%Q)
    ∧ Retry.within_rounding (1 + jitter 1) w1
    ∧ Retry.within_rounding (2 + jitter 2) w2
    ∧ Retry.within_rounding (4 + jitter 3) w3
    ∧ Retry.within_rounding (8 + jitter 4) w4
    ∧ (∀ k, (Retry.wait_exponential_jitter jitter k <= 10)%Q)
    ∧ Node.loop_body func jitter format_exc task_id s
      = (Node.Continue, s')
    ∧ Node.inboxes s'
      = Node.inboxes (Node._put_data error_value s)
    ∧ Node.log s' = Node.log s ++ [Node.LogCall ev]
    ∧ Node.executing_data_queue s' ≡ₚ Node.executing_data_queue s.
Proof.
  intros Hf He Hj _ Hstart Hgen Hq Hstop Hflat Hlen cause error_value.
  destruct (final_wrapper_always_raises func jitter format_exc
              (Node.__name__ (Node.self s)) errs data Hf He)
    as (ev & Hfinal & Hatt & Hsl).
  unfold Node.loop_body.
  rewrite (fetch_payload task_id s data q) by done.
  unfold Node.process, Node._proc_data.
  replace (Node.__name__ (Node.self (Node.set_executing_data_queue
             (Node.executing_data_queue s ++ [data])
             (Node.set_src_queue q s))))
    with (Node.__name__ (Node.self s)) by (by destruct s).
  rewrite Hfinal. fold cause. fold error_value.
  set (s1 := Node.add_log _ _).
  assert (Node.executing_data_queue (Node._put_data error_value s1)
          = Node.executing_data_queue s ++ [data]) as Hexec.
  { rewrite _put_data_only_inboxes. unfold s1. by destruct s. }
  rewrite Hexec.
  destruct (list_remove_elem_of data
              (Node.executing_data_queue s ++ [data])) as [l Hl].
  { apply elem_of_app. right. left. }
  assert (∀ k, 1 ≤ k ≤ 4 →
            (inject_Z (2 ^ Z.of_nat (k - 1))
             <= Retry.wait_exponential_jitter jitter k)%Q
            ∧ (Retry.wait_exponential_jitter jitter k
               <= inject_Z (2 ^ Z.of_nat (k - 1)) + 1)%Q
            ∧ Retry.within_rounding
                (inject_Z (2 ^ Z.of_nat (k - 1)) + jitter k)
                (Retry.wait_exponential_jitter jitter k)) as Hw.
  { intros k Hk. destruct (Hj k) as [Hlo Hhi].
    by apply wait_exponential_jitter_backoff. }
  destruct (Hw 1) as (L1 & U1 & R1); [lia|].
  destruct (Hw 2) as (L2 & U2 & R2); [lia|].
  destruct (Hw 3) as (L3 & U3 & R3); [lia|].
  destruct (Hw 4) as (L4 & U4 & R4); [lia|].
  change (inject_Z (2 ^ Z.of_nat (1 - 1))) with 1%Q in L1, U1, R1.
  change (inject_Z (2 ^ Z.of_nat (2 - 1))) with 2%Q in L2, U2, R2.
  change (inject_Z (2 ^ Z.of_nat (3 - 1))) with 4%Q in L3, U3, R3.
  change (inject_Z (2 ^ Z.of_nat (4 - 1))) with 8%Q in L4, U4, R4.
  rewrite Hl. exists ev. eexists.
  exists (Retry.wait_exponential_jitter jitter 1),
         (Retry.wait_exponential_jitter jitter 2),
         (Retry.wait_exponential_jitter jitter 3),
         (Retry.wait_exponential_jitter jitter 4).
  repeat match goal with |- _ ∧ _ => split end;
    [done|done|done|lra|lra|lra|lra|lra|lra|lra|lra
    |exact R1|exact R2|exact R3|exact R4| |reflexivity| | |].
  - intros k. apply wait_exponential_jitter_bounds.
  - transitivity (Node.inboxes (Node._put_data error_value s1)).
    + by destruct (Node._put_data error_value s1).
    + apply inboxes_put_data_congr; unfold s1; by destruct s.
  - rewrite _put_data_only_inboxes. unfold s1. by destruct s.
  - simpl. rewrite _put_data_only_inboxes. unfold s1.
    apply list_remove_snoc_Permutation in Hl. by destruct s.
Qed.

(** C4, on the code: the pass that takes a stop token from the queue does
    not break.  [_get_one_data] raises [StopIteration] inside a generator,
    so [next] raises [RuntimeError]; the worker logs it through the
    unexpected-error clause and continues, and it is its next pass, on the
    finished generator, that breaks: [_func_wrapper] is left after two
    passes.  Any other worker breaks on its next pass as well, without a
    token of its own.  Nothing is forwarded to a destination. *)
Theorem C4_stop_token_is_logged_as_error
        (s : Node.node) (task_id : nat) (q : list pyval) :
  Node.is_start s = true →
  Node.get_data_generator s = Some (Node.GenSuspended []) →
  Node.src_queue s = Node.stop_token :: q →
  length (Node.executing_data_queue s)
  < Node.worker_num (Node.self s) →
  let s1 :=
    Node.add_log
      (Node.LogUnexpected task_id
         (RuntimeError "generator raised StopIteration") None)
      (Node.set_src_queue q
         (Node.set_get_data_generator (Some Node.GenFinished) s)) in
  Node.loop_body func jitter format_exc task_id s
  = (Node.Continue, s1)
  ∧ (∀ other,
       Node.loop_body func jitter format_exc other s1
       = (Node.Break, Node.add_log (Node.LogStop other) s1))
  ∧ Node._func_wrapper func jitter format_exc 1 task_id s
    = (Node.Continue, s1)
  ∧ (∀ fuel,
       Node._func_wrapper func jitter format_exc (S (S fuel)) task_id s
       = (Node.Break, Node.add_log (Node.LogStop task_id) s1))
  ∧ Node.inboxes s1 = Node.inboxes s.
Proof.
  intros Hstart Hgen Hq Hlen s1.
  assert (Node.loop_body func jitter format_exc task_id s
          = (Node.Continue, s1)) as Hfirst.
  { unfold Node.loop_body. by rewrite (fetch_stop_token task_id s q). }
  assert (∀ other,
            Node.loop_body func jitter format_exc other s1
            = (Node.Break, Node.add_log (Node.LogStop other) s1))
    as Hnext.
  { intros other. unfold Node.loop_body.
    rewrite fetch_finished; [done|unfold s1; by destruct s..]. }
  split_and!; [done..| | |].
  - simpl. by rewrite Hfirst.
  - intros fuel. simpl. by rewrite Hfirst, Hnext.
  - unfold s1. by destruct s.
Qed.
End worker_facts.

Lemma C3_failing_transform_yields_error_value_witness :
  ∃ ev s',
    Node.loop_body always_raises half_jitter short_trace 0 running_router
    = (Node.Continue, s')
    ∧ Retry.attempts ev = [1; 2; 3; 4; 5]
    ∧ Retry.sleeps ev = [3 # 2; 5 # 2; 9 # 2; 17 # 2]%Q
    ∧ Node.log s' = [Node.LogCall ev]
    ∧ Node.inboxes s' !!! "all"
      = [VNodeProcessingError (VInt 3) "router"
           (RetryError (UserError "boom")) "Traceback"].
Proof.
  destruct (C3_failing_transform_yields_error_value
              always_raises half_jitter short_trace running_router 0 (VInt 3)
              [] (λ _, UserError "boom"))
    as (ev & s' & w1 & w2 & w3 & w4 & Hfinal & Hatt & Hsl & _ & _ & _ & _
        & _ & _ & _ & _ & _ & Hloop & Hin & Hlog & _).
  - reflexivity.
  - discriminate.
  - intros k. split; discriminate.
  - by split_and!.
  - reflexivity.
  - reflexivity.
  - reflexivity.
  - reflexivity.
  - reflexivity.
  - simpl. lia.
  - exists ev, s'. split_and!; [exact Hloop | exact Hatt | | exact Hlog |].
    + vm_compute in Hfinal. by injection Hfinal as <-.
    + rewrite Hin. reflexivity.
Defined.

Lemma C4_stop_token_is_logged_as_error_witness :
  ∃ s1,
    Node.loop_body always_raises no_jitter short_trace 0 stopping_router
    = (Node.Continue, s1)
    ∧ Node.log s1
      = [Node.LogUnexpected 0
           (RuntimeError "generator raised StopIteration") None]
    ∧ (Node.loop_body always_raises no_jitter short_trace 0 s1).1
      = Node.Break.
Proof.
  destruct (C4_stop_token_is_logged_as_error
              always_raises no_jitter short_trace stopping_router 0 [])
    as (Hfirst & Hnext & _).
  - reflexivity.
  - reflexivity.
  - reflexivity.
  - simpl. lia.
  - eexists. split_and!; [exact Hfirst | reflexivity |].
    by rewrite Hnext.
Defined.

(** ** Shut-down (C7) *)

Section pool_facts.
Variable func : nat → pyval → pyexn + pyval.
Variable jitter : nat → Q.
Variable format_exc : pyexn → string.

Let step := Node.step func jitter format_exc.
Let act := Node.act func jitter format_exc.
Let run := Node.run func jitter format_exc.

Lemma act_sound a p p' : act a p = Some p' → step p p'.
Proof.
  unfold act, step, Node.act. destruct a.
  - destruct (Node.in_end p) as [k| |] eqn:Hend; try done.
    destruct (bool_decide _) eqn:Hlt; simpl; [|done].
    destruct (Node.queue_has_room _) eqn:Hroom; [|done].
    intros [= <-]. apply bool_decide_eq_true_1 in Hlt.
    by apply Node.step_put.
  - destruct (Node.in_end p) as [k| |] eqn:Hend; try done.
    case_bool_decide as Hk; [|done]. subst k.
    intros [= <-]. by apply Node.step_put_done.
  - destruct (Node.in_end p) as [k| |] eqn:Hend; try done.
    destruct (forallb _ _) eqn:Hall; [|done].
    intros [= <-]. apply Node.step_join; [done|].
    apply Forall_forall. intros w Hw.
    rewrite forallb_forall in Hall.
    apply list_elem_of_In, Hall in Hw. by destruct w.
  - destruct (Node.workers p !! task_id) as [[| |]|] eqn:Hw;
      try (by destruct (Node.in_end p)).
    destruct (Node.fetch _ _) as [t s'] eqn:Hf.
    intros Hp. assert (p' = {| Node.the_node := s';
                               Node.workers :=
                                 <[task_id := Node.after_fetch t]>
                                   (Node.workers p);
                               Node.in_end := Node.in_end p |})
      as -> by (destruct (Node.in_end p); congruence).
    by eapply Node.step_fetch.
  - destruct (Node.workers p !! task_id) as [[|data|]|] eqn:Hw;
      try (by destruct (Node.in_end p)).
    destruct (Node.process _ _ _ _ _ _) as [t s'] eqn:Hf.
    intros Hp. assert (p' = {| Node.the_node := s';
                               Node.workers :=
                                 <[task_id := Node.Looping]>
                                   (Node.workers p);
                               Node.in_end := Node.in_end p |})
      as -> by (destruct (Node.in_end p); congruence).
    by eapply Node.step_process.
Qed.

Lemma run_sound schedule p p' : run schedule p = Some p' → rtc step p p'.
Proof.
  unfold run. revert p.
  induction schedule as [|a schedule IH]; intros p; simpl.
  - intros [= <-]. done.
  - fold act. destruct (act a p) as [p1|] eqn:Ha; [|done].
    intros Hrun. eapply rtc_l; [by eapply act_sound | by apply IH].
Qed.
End pool_facts.

Lemma count_stop_le_length q : Node.count_stop q ≤ length q.
Proof.
  unfold Node.count_stop. induction q as [|v q IH]; simpl; [done|].
  destruct (is_stop_token v); simpl; lia.
Qed.

Lemma count_stop_snoc q :
  Node.count_stop (q ++ [Node.stop_token])
  = S (Node.count_stop q).
Proof.
  unfold Node.count_stop. rewrite List.filter_app, length_app.
  simpl. lia.
Qed.

Lemma _get_one_data_payload a data elems :
  Node._get_one_data a data = inr elems → is_stop_token data = false.
Proof.
  unfold Node._get_one_data, Node._get_one_data_frame.
  by destruct (is_stop_token data).
Qed.

(** The generator's loop takes items off the head of the queue, and at most
    one stop token, which ends it. *)
Lemma _get_data_loop_effect a q r g q' :
  Node._get_data_loop a q = (r, g, q') →
  length q' ≤ length q
  ∧ Node.count_stop q
    ≤ Node.count_stop q'
      + match g with Node.GenFinished => 1 | _ => 0 end.
Proof.
  unfold Node.count_stop.
  revert r g q'. induction q as [|data q IH]; intros r g q'; simpl.
  - intros [= <- <- <-]. simpl. lia.
  - destruct (Node._get_one_data a data) as [e|[|d rest]] eqn:Hone.
    + intros [= <- <- <-].
      destruct (is_stop_token data); simpl; lia.
    + intros Hloop. apply IH in Hloop as [Hlen Hcount].
      apply _get_one_data_payload in Hone. rewrite Hone. lia.
    + intros [= <- <- <-].
      apply _get_one_data_payload in Hone. rewrite Hone. lia.
Qed.

Lemma next_get_data_effect s r s' :
  Node.next_get_data s = (r, s') →
  Node.self s' = Node.self s
  ∧ length (Node.src_queue s') ≤ length (Node.src_queue s)
  ∧ stop_budget s ≤ stop_budget s'.
Proof.
  unfold Node.next_get_data, stop_budget, Node.gen_live.
  destruct (Node.get_data_generator s) as [[[|d rest]|]|] eqn:Hgen.
  - destruct (Node.is_start s).
    + destruct (Node._get_data_loop _ _) as [[r0 g] q0] eqn:Hloop.
      intros [= <- <-].
      apply _get_data_loop_effect in Hloop as [Hlen Hcount].
      destruct s; simpl in *. split_and!; [done..|].
      destruct g; lia.
    + intros [= <- <-]. destruct s; simpl in *. split_and!; [done|lia..].
  - intros [= <- <-]. destruct s; simpl in *. split_and!; [done|lia..].
  - intros [= <- <-]. rewrite Hgen. split_and!; [done|lia..].
  - intros [= <- <-]. rewrite Hgen. split_and!; [done|lia..].
Qed.

Lemma fetch_effect task_id s t s' :
  Node.fetch task_id s = (t, s') →
  Node.self s' = Node.self s
  ∧ length (Node.src_queue s') ≤ length (Node.src_queue s)
  ∧ stop_budget s ≤ stop_budget s'.
Proof.
  unfold Node.fetch.
  destruct (Node.is_start s); simpl; [|by intros [= <- <-]].
  case_bool_decide; [|by intros [= <- <-]].
  destruct (Node.next_get_data s) as [r s1] eqn:Hnext.
  apply next_get_data_effect in Hnext as (Hself & Hlen & Hbudget).
  revert Hbudget. unfold stop_budget, Node.gen_live.
  destruct r as [data|e|]; [|destruct e|];
    intros Hbudget [= <- <-]; by destruct s1.
Qed.

Section pool_invariant.
Variable func : nat → pyval → pyexn + pyval.
Variable jitter : nat → Q.
Variable format_exc : pyexn → string.

Lemma process_effect task_id data s t s' :
  Node.process func jitter format_exc task_id data s = (t, s') →
  Node.self s' = Node.self s
  ∧ Node.src_queue s' = Node.src_queue s
  ∧ Node.get_data_generator s' = Node.get_data_generator s.
Proof.
  unfold Node.process.
  destruct (Node._proc_data _ _ _ _ _) as [result ev].
  rewrite _put_data_only_inboxes.
  generalize (Node.inboxes
                (Node._put_data result
                   (Node.add_log (Node.LogCall ev) s))).
  intros m. destruct s; simpl.
  destruct (list_remove data executing_data_queue); by intros [= <- <-].
Qed.

Lemma end_invariant_bound a p sent :
  end_invariant a p → Node.in_end p = Node.Putting sent →
  sent ≤ Node.queue_size a + 1.
Proof.
  intros (Hself & Hlen & k & Hk & Hbudget) Hsent.
  rewrite Hsent in Hk. injection Hk as <-.
  unfold stop_budget in Hbudget.
  pose proof (count_stop_le_length
                (Node.src_queue (Node.the_node p))).
  destruct (Node.gen_live _); lia.
Qed.

Lemma end_invariant_step a p p' :
  0 < Node.queue_size a →
  Node.queue_size a + 1 < Node.worker_num a →
  end_invariant a p →
  Node.step func jitter format_exc p p' →
  end_invariant a p'.
Proof.
  intros Hroom Hsmall Hinv Hstep.
  pose proof (end_invariant_bound a p) as Hbound.
  destruct Hinv as (Hself & Hlen & k & Hk & Hbudget).
  destruct Hstep as [p sent Hend Hlt Hfree|p Hend|p Hend Hall
                    |p task_id t s' Hw Hfetch|p task_id data t s' Hw Hproc];
    unfold end_invariant; simpl.
  - rewrite Hend in Hk. injection Hk as <-.
    unfold Node.queue_has_room in Hfree.
    apply bool_decide_eq_true_1 in Hfree. rewrite Hself in Hfree.
    destruct Hfree as [Hzero|Hfree]; [lia|].
    split_and!.
    + by destruct (Node.the_node p).
    + replace (Node.src_queue (Node.put _ _))
        with (Node.src_queue (Node.the_node p)
              ++ [Node.stop_token])
        by (by destruct (Node.the_node p)).
      rewrite length_app. simpl. lia.
    + exists (S sent). split; [done|].
      revert Hbudget. unfold stop_budget, Node.gen_live.
      replace (Node.src_queue (Node.put _ _))
        with (Node.src_queue (Node.the_node p)
              ++ [Node.stop_token])
        by (by destruct (Node.the_node p)).
      replace (Node.get_data_generator (Node.put _ _))
        with (Node.get_data_generator (Node.the_node p))
        by (by destruct (Node.the_node p)).
      rewrite count_stop_snoc. lia.
  - specialize (Hbound _ (conj Hself
                             (conj Hlen (ex_intro _ k (conj Hk Hbudget))))
                       Hend).
    rewrite Hself in Hbound. lia.
  - congruence.
  - apply fetch_effect in Hfetch as (Hself' & Hlen' & Hbudget').
    split_and!; [congruence|lia|].
    exists k. split; [done|lia].
  - apply process_effect in Hproc as (Hself' & Hq' & Hgen').
    split_and!; [congruence|by rewrite Hq'|].
    exists k. split; [done|].
    revert Hbudget. unfold stop_budget, Node.gen_live.
    by rewrite Hq', Hgen'.
Qed.

(** C7, on the code: a node with more workers than its queue has slots plus
    one.  Only the first stop token is ever taken from the queue, since it
    ends the generator all workers share (see C4); the others stay there, so
    [end] enqueues at most [queue_size + 1] of its [worker_num] tokens and
    then waits on the full queue: it never reaches [joinall], and never
    returns. *)
Theorem C7_end_cannot_enqueue_every_token (p0 p : Node.pool) :
  let a := Node.self (Node.the_node p0) in
  Node.in_end p0 = Node.Putting 0 →
  0 < Node.queue_size a →
  length (Node.src_queue (Node.the_node p0)) ≤ Node.queue_size a →
  Node.queue_size a + 1 < Node.worker_num a →
  rtc (Node.step func jitter format_exc) p0 p →
  ∃ sent, Node.in_end p = Node.Putting sent
          ∧ sent ≤ Node.queue_size a + 1
          ∧ sent < Node.worker_num a.
Proof.
  intros a Hend Hroom Hlen Hsmall Hrun.
  assert (end_invariant a p) as Hinv.
  { revert p Hrun. apply rtc_ind_r.
    - split_and!; [done..|]. exists 0. split; [done|lia].
    - intros p1 p2 Hrun Hstep IH. by eapply end_invariant_step. }
  pose proof (end_invariant_bound a p) as Hbound.
  destruct Hinv as (Hself & Hlen' & sent & Hsent & Hbudget).
  exists sent. split; [done|].
  specialize (Hbound sent
                (conj Hself (conj Hlen' (ex_intro _ sent (conj Hsent Hbudget))))
                Hsent).
  lia.
Qed.
End pool_invariant.

(** The started sink, with three workers and room for one item: [end]
    enqueues two tokens, the three workers finish, and nothing can run any
    more while [end] waits to enqueue the third. *)
Lemma sink_end_deadlocks func jitter format_exc :
  ∃ p, rtc (Node.step func jitter format_exc) sink_at_end p
       ∧ Node.in_end p = Node.Putting 2
       ∧ Node.workers p
         = [Node.Finished; Node.Finished; Node.Finished]
       ∧ Node.src_queue (Node.the_node p) = [Node.stop_token]
       ∧ ∀ p', ¬ Node.step func jitter format_exc p p'.
Proof.
  eexists. split.
  { apply (run_sound _ _ _ sink_deadlock_schedule). vm_compute. reflexivity. }
  split_and!; [reflexivity..|].
  intros p' Hstep. inversion Hstep as
      [p sent Hend Hlt Hfree|p Hend|p Hend Hall
      |p task_id t s' Hw Hfetch|p task_id data t s' Hw Hproc]; subst;
    simpl in *.
  - vm_compute in Hfree. discriminate.
  - discriminate.
  - discriminate.
  - destruct task_id as [|[|[|?]]]; discriminate.
  - destruct task_id as [|[|[|?]]]; discriminate.
Qed.

Lemma C7_end_cannot_enqueue_every_token_witness :
  ∃ p sent,
    Node.run always_raises no_jitter short_trace
                 sink_deadlock_schedule sink_at_end = Some p
    ∧ Node.in_end p = Node.Putting sent
    ∧ sent ≤ 2.
Proof.
  destruct (Node.run always_raises no_jitter short_trace
                         sink_deadlock_schedule sink_at_end)
    as [p|] eqn:Hrun; [|vm_compute in Hrun; discriminate].
  destruct (C7_end_cannot_enqueue_every_token
              always_raises no_jitter short_trace sink_at_end p)
    as (sent & Hsent & Hle & _).
  - reflexivity.
  - simpl. lia.
  - simpl. lia.
  - simpl. lia.
  - by eapply run_sound.
  - exists p, sent. split_and!; [reflexivity | exact Hsent | exact Hle].
Defined.

(** What does hold of [end]: it is back only when every worker has left its
    loop. *)
Lemma end_returns_only_after_workers_finished func jitter format_exc p0 p :
  Node.in_end p0 ≠ Node.Returned →
  rtc (Node.step func jitter format_exc) p0 p →
  Node.in_end p = Node.Returned →
  Forall (λ w, w = Node.Finished) (Node.workers p).
Proof.
  intros Hstart Hrun. revert p Hrun.
  apply (rtc_ind_r
           (λ p, Node.in_end p = Node.Returned →
                 Forall (λ w, w = Node.Finished) (Node.workers p))
           p0); [done|].
  intros p1 p2 _ Hstep IH.
  destruct Hstep as [p sent Hend Hlt Hfree|p Hend|p Hend Hall
                    |p task_id t s' Hw Hfetch|p task_id data t s' Hw Hproc];
    simpl; try done.
  - intros Hret. specialize (IH Hret).
    rewrite Forall_lookup in IH. by specialize (IH _ _ Hw).
  - intros Hret. specialize (IH Hret).
    rewrite Forall_lookup in IH. by specialize (IH _ _ Hw).
Qed.

(** With room in the queue [end] does return, after the payload that was
    waiting has been processed and routed. *)
Lemma router_end_drains_and_returns :
  ∃ p, Node.run times_ten no_jitter short_trace router_drain_schedule
                    (Node.pool_at_end running_router) = Some p
       ∧ Node.in_end p = Node.Returned
       ∧ Node.workers p = [Node.Finished]
       ∧ Node.src_queue (Node.the_node p) = []
       ∧ Node.inboxes (Node.the_node p) !!! "all" = [VInt 30]
       ∧ Node.inboxes (Node.the_node p) !!! "evens" = [VInt 30].
Proof.
  eexists. split; [vm_compute; reflexivity|].
  split_and!; reflexivity.
Qed.

(** ** Topological start order (C2) *)

Lemma unpack_then_dst_nodes_raises h key :
  match Graph.unpack_pair key with
  | inl _ => True
  | inr (_, node) => ∃ e, Graph.iter_dst_nodes h node = inl e
  end.
Proof.
  destruct key as [s|id]; simpl; [|done].
  destruct s as [|a [|b [|c s]]]; simpl; eauto.
Qed.

(** The first loop raises on the first key it meets. *)
Lemma count_in_degrees_raises h key keys descriptions in_degree :
  ∃ e, Graph.count_in_degrees h (key :: keys) descriptions in_degree
       = inl e.
Proof.
  simpl. pose proof (unpack_then_dst_nodes_raises h key) as Hkey.
  destruct (Graph.unpack_pair key) as [e|[desc node]]; [eauto|].
  destruct Hkey as [e ->]. eauto.
Qed.

(** C2, on the code: [for desc, node in all_nodes] walks the keys of the
    node mapping, not its items, and unpacks each key into two targets.  So
    for every group that has a node, acyclic or not, [topological_sort]
    raises on the first key (a [ValueError] from the unpacking unless the
    key has two characters, an [AttributeError] then) instead of returning
    an order, and [Graph.start] raises before any member is started. *)
Theorem C2_topological_sort_raises_on_every_node
        (fuel : nat) (h : Graph.heap) (g : Graph.group) :
  Graph.all_nodes g ≠ [] →
  ∃ e, Graph.topological_sort fuel h (Graph.all_nodes g)
       = Some (inl e)
       ∧ Graph.start fuel h g = Some (inl e, g).
Proof.
  intros Hnodes. unfold Graph.start, Graph.topological_sort.
  destruct (Graph.all_nodes g) as [|[key node] nodes]; [done|].
  change (dict_keys ((key, node) :: nodes)) with (key :: dict_keys nodes).
  destruct (count_in_degrees_raises h key (dict_keys nodes) [] [])
    as [e ->].
  by exists e.
Qed.

Lemma C2_topological_sort_raises_on_every_node_witness :
  Graph.topological_sort 10 load_save_heap (Graph.all_nodes load_save)
  = Some (inl (ValueError "too many values to unpack (expected 2)"))
  ∧ Graph.start 10 load_save_heap load_save
    = Some (inl (ValueError "too many values to unpack (expected 2)"),
            load_save).
Proof.
  destruct (C2_topological_sort_raises_on_every_node 10 load_save_heap
              load_save) as (e & Hsort & Hstart).
  - discriminate.
  - assert (e = ValueError "too many values to unpack (expected 2)") as ->.
    { vm_compute in Hsort. congruence. }
    split; [exact Hsort | exact Hstart].
Defined.

(** Only the empty group is sorted. *)
Lemma topological_sort_empty fuel h :
  Graph.topological_sort fuel h [] = Some (inr []).
Proof. by destruct fuel. Qed.

(** ** Scatter/gather (C1, C10) *)

Lemma forallb_id_replicate (l : list bool) :
  forallb id l = true → l = replicate (length l) true.
Proof.
  induction l as [|b l IH]; simpl; [done|].
  destruct b; simpl; [|done]. intros Hl. f_equal. by apply IH.
Qed.

(** Whatever the tail decorator is called with, it forwards at most one
    value, and that value pairs the original input with a list that holds
    [True] once per slot: the walrus in the completion test rebinds
    [over_results] to the list of flags [v is not None]. *)
Lemma _iterable_put_data_wrapper_forwards_flags label_data p r p' :
  IterablePipeline._iterable_put_data_wrapper label_data p = (r, p') →
  IterablePipeline.forwarded p' = IterablePipeline.forwarded p
  ∨ ∃ original token n,
      IterablePipeline.forwarded p'
      = IterablePipeline.forwarded p
        ++ [VLabelData
              (VTuple [original; VList (replicate n (VBool true))]) token].
Proof.
  unfold IterablePipeline._iterable_put_data_wrapper, py_bind, py_assert.
  destruct (IterablePipeline.is_LabelData label_data); simpl;
    [|intros [= <- <-]; by left].
  unfold IterablePipeline.py_lift.
  destruct (IterablePipeline.subscript _ 0) as [e|token]; simpl;
    [intros [= <- <-]; by left|].
  unfold IterablePipeline.lookup_task.
  destruct (dict_get _ token) as [task|]; simpl;
    [|intros [= <- <-]; by left].
  destruct (IterablePipeline.subscript _ 1) as [e|slot]; simpl;
    [intros [= <- <-]; by left|].
  destruct (IterablePipeline.is_generator_exhausted task); simpl;
    [|intros [= <- <-]; by left].
  destruct (forallb id _) eqn:Hall; simpl; [|intros [= <- <-]; by left].
  intros [= <- <-]. right. simpl.
  apply forallb_id_replicate in Hall. rewrite Hall.
  eexists _, _, _. by rewrite fmap_replicate.
Qed.

(** No aggregate leaves the tail decorator before the source is exhausted
    and every slot holds a result. *)
Lemma _iterable_put_data_wrapper_waits content token slot task p :
  dict_get (IterablePipeline.processing_tasks p) token = Some task →
  IterablePipeline.is_generator_exhausted task = false
  ∨ (∃ k, k ≠ slot
          ∧ dict_get (IterablePipeline.over_results task) k = Some VNone) →
  IterablePipeline.forwarded
    (IterablePipeline._iterable_put_data_wrapper
       (VLabelData content (VTuple [token; slot])) p).2
  = IterablePipeline.forwarded p.
Proof.
  intros Htask Hwait.
  unfold IterablePipeline._iterable_put_data_wrapper, py_bind, py_assert.
  simpl. unfold IterablePipeline.lookup_task. rewrite Htask. simpl.
  destruct Hwait as [->|(k & Hk & Hnone)]; [done|].
  destruct (IterablePipeline.is_generator_exhausted task); [|done]. simpl.
  assert (forallb id (IterablePipeline.is_not_None
                        <$> dict_values
                              (dict_set (IterablePipeline.over_results task)
                                        slot content)) = false) as ->; [|done].
  revert Hnone. unfold dict_values.
  induction (IterablePipeline.over_results task) as [|[k0 v0] d IH]; simpl;
    [done|].
  destruct (decide (k0 = k)) as [->|Hk0].
  - intros [= ->]. rewrite decide_False by done. done.
  - intros Hd. destruct (decide (k0 = slot)); simpl.
    + apply andb_false_intro2.
      clear IH. revert Hd. induction d as [|[k1 v1] d IH]; simpl; [done|].
      destruct (decide (k1 = k)); [intros [= ->]; done|].
      intros Hd. apply andb_false_intro2. by apply IH.
    + apply andb_false_intro2. by apply IH.
Qed.

(** Once the source is exhausted and every slot holds a result, the call
    that recorded the last one forwards one aggregate. *)
Lemma _iterable_put_data_wrapper_completes content token slot task p :
  dict_get (IterablePipeline.processing_tasks p) token = Some task →
  IterablePipeline.is_generator_exhausted task = true →
  Forall (λ v, v ≠ VNone)
         (dict_values (dict_set (IterablePipeline.over_results task)
                                slot content)) →
  IterablePipeline.forwarded
    (IterablePipeline._iterable_put_data_wrapper
       (VLabelData content (VTuple [token; slot])) p).2
  = IterablePipeline.forwarded p
    ++ [VLabelData
          (VTuple [IterablePipeline.original_data task;
                   VList (replicate
                            (length (dict_set (IterablePipeline.over_results task)
                                              slot content))
                            (VBool true))])
          token].
Proof.
  intros Htask Hexhausted Hall.
  unfold IterablePipeline._iterable_put_data_wrapper, py_bind, py_assert.
  simpl. unfold IterablePipeline.lookup_task. rewrite Htask. simpl.
  rewrite Hexhausted. simpl.
  assert (IterablePipeline.is_not_None
            <$> dict_values (dict_set (IterablePipeline.over_results task)
                                      slot content)
          = replicate (length (dict_set (IterablePipeline.over_results task)
                                        slot content)) true) as ->.
  { unfold dict_values in *.
    induction (dict_set (IterablePipeline.over_results task) slot content)
      as [|[k v] d IH]; simpl; [done|].
    apply Forall_cons in Hall as [Hv Hall].
    unfold IterablePipeline.is_not_None at 1.
    rewrite bool_decide_eq_true_2 by done. f_equal. by apply IH. }
  assert (forallb id (replicate
                        (length (dict_set (IterablePipeline.over_results task)
                                          slot content)) true) = true) as ->.
  { induction (length _); simpl; [done|by rewrite IHn]. }
  simpl. by rewrite fmap_replicate.
Qed.

(** C1, on the code: the scenario of the spec.  The tuple (1, 2, 3) is
    ingested, its elements get the slots 0, 1, 2, and the results 20, 10,
    30 arrive at the tail.  Nothing is forwarded after two of the three;
    after the third exactly one aggregate is forwarded, tagged with the
    task's token, and it pairs the input with [[True, True, True]], not with
    the results [[10, 20, 30]]. *)
Theorem C1_aggregate_holds_flags_not_results :
  (ingest_123 empty_pipeline).1
  = inr [slot_label 0; slot_label 1; slot_label 2]
  ∧ (two_of_three empty_pipeline).1 = inr tt
  ∧ IterablePipeline.forwarded (two_of_three empty_pipeline).2 = []
  ∧ (all_three empty_pipeline).1 = inr tt
  ∧ IterablePipeline.forwarded (all_three empty_pipeline).2
    = [VLabelData
         (VTuple [input_123; VList [VBool true; VBool true; VBool true]])
         input_123]
  ∧ IterablePipeline.forwarded (all_three empty_pipeline).2
    ≠ [VLabelData
         (VTuple [input_123; VList [VInt 10; VInt 20; VInt 30]])
         input_123].
Proof.
  split_and!; [by vm_compute..|].
  intros Heq. vm_compute in Heq. discriminate.
Qed.

(** C10: for an empty iterable the probe's first advance in
    [ProcessingTask.__init__] raises [StopIteration]; the head's get
    decorator raises it before it registers anything, so the pipeline is
    left as it was, and, with no task under the input's token, a value that
    reaches the tail under that token raises [KeyError] and forwards
    nothing. *)
Theorem C10_empty_iterable_raises_before_registration
        (generate_label : pyval → pyval)
        (get_func : pyval → pyexn + list pyval)
        (p : IterablePipeline.IterablePipeline) (iter_data : pyval) :
  iter_elems iter_data = Some [] →
  IterablePipeline.ProcessingTask__init__ generate_label iter_data
  = inl StopIteration
  ∧ IterablePipeline._iterable_get_data_wrapper generate_label get_func
      iter_data p
    = (inl StopIteration, p)
  ∧ (dict_get (IterablePipeline.processing_tasks p) (generate_label iter_data)
     = None →
     ∀ content slot,
       IterablePipeline._iterable_put_data_wrapper
         (VLabelData content (VTuple [generate_label iter_data; slot])) p
       = (inl (KeyError "processing_tasks"), p)).
Proof.
  intros Hempty.
  assert (IterablePipeline.ProcessingTask__init__ generate_label iter_data
          = inl StopIteration) as Hnew.
  { unfold IterablePipeline.ProcessingTask__init__. by rewrite Hempty. }
  split_and!; [done| |].
  - unfold IterablePipeline._iterable_get_data_wrapper. by rewrite Hnew.
  - intros Hnone content slot.
    unfold IterablePipeline._iterable_put_data_wrapper, py_bind, py_assert.
    simpl. unfold IterablePipeline.lookup_task. by rewrite Hnone.
Qed.

Lemma C10_empty_iterable_raises_before_registration_witness :
  IterablePipeline._iterable_get_data_wrapper content_label head_get_func
    (VTuple []) empty_pipeline
  = (inl StopIteration, empty_pipeline)
  ∧ IterablePipeline._iterable_put_data_wrapper
      (VLabelData (VInt 7) (VTuple [VTuple []; VInt 0])) empty_pipeline
    = (inl (KeyError "processing_tasks"), empty_pipeline).
Proof.
  destruct (C10_empty_iterable_raises_before_registration
              content_label head_get_func empty_pipeline (VTuple []))
    as (_ & Hget & Hput).
  - reflexivity.
  - split; [exact Hget|]. apply (Hput eq_refl (VInt 7) (VInt 0)).
Defined.

(** * Further properties of the code *)

(** ** Registration and start-up *)

(** X1.  [set_destination] keys the destination map by the destination's name:
    a second destination registered under a name replaces the first, and
    the map keeps one entry per name, in the order of first registration. *)
Theorem set_destination_replaces (s : Node.node) (name : string)
        (d1 d2 : Node.dest) :
  let s1 := Node.set_destination name d1 s in
  let s2 := Node.set_destination name d2 s1 in
  dict_get (Node.dst_nodes s1) name = Some d1
  ∧ dict_get (Node.dst_nodes s2) name = Some d2
  ∧ dict_keys (Node.dst_nodes s2) = dict_keys (Node.dst_nodes s1)
  ∧ length (Node.dst_nodes s2) = length (Node.dst_nodes s1)
  ∧ ∀ other, other ≠ name →
      dict_get (Node.dst_nodes s2) other = dict_get (Node.dst_nodes s) other.
Proof.
  intros s1 s2.
  assert (Node.dst_nodes s1 = dict_set (Node.dst_nodes s) name d1) as H1
    by (by destruct s).
  assert (Node.dst_nodes s2 = dict_set (Node.dst_nodes s1) name d2) as H2
    by (unfold s2, Node.set_destination; by destruct s1).
  assert (dict_keys (Node.dst_nodes s2) = dict_keys (Node.dst_nodes s1))
    as Hkeys.
  { rewrite H2, dict_keys_set. rewrite decide_True; [done|].
    rewrite H1, dict_keys_set.
    destruct (decide (name ∈ dict_keys (Node.dst_nodes s))); [done|].
    apply elem_of_app. right. left. }
  split_and!.
  - rewrite H1. apply dict_get_set_eq.
  - rewrite H2. apply dict_get_set_eq.
  - done.
  - unfold dict_keys in Hkeys.
    by rewrite <-(length_fmap fst (Node.dst_nodes s2)), Hkeys, length_fmap.
  - intros other Hne. rewrite H2, H1.
    by rewrite !dict_get_set_ne.
Qed.

Lemma without_first_Permutation d l :
  d ∈ l → d :: Node.without_first d l ≡ₚ l.
Proof.
  intros Hd. apply without_first_present in Hd.
  apply list_remove_Some in Hd as (l1 & l2 & Hl & -> & _).
  rewrite Hl. by rewrite Permutation_middle.
Qed.

Lemma rearranged_Permutation l :
  Node.without_first Node.skip_data_decorator
    (Node.without_first Node.label_proc_decorator l)
  ++ Node.tops l ≡ₚ l.
Proof.
  unfold Node.tops.
  destruct (decide (Node.label_proc_decorator ∈ l)) as [Hl|Hl];
    destruct (decide (Node.skip_data_decorator ∈ l)) as [Hs|Hs].
  - rewrite !bool_decide_eq_true_2 by done.
    assert (Node.skip_data_decorator
            ∈ Node.without_first Node.label_proc_decorator l) as Hs'
      by (by apply without_first_elem_of_ne).
    etrans; [apply Permutation_app_comm|]. simpl.
    etrans; [|apply (without_first_Permutation _ _ Hl)].
    apply perm_skip. apply (without_first_Permutation _ _ Hs').
  - rewrite bool_decide_eq_true_2, bool_decide_eq_false_2 by done.
    rewrite app_nil_r.
    rewrite (without_first_absent Node.skip_data_decorator).
    + etrans; [apply Permutation_app_comm|]. simpl.
      apply (without_first_Permutation _ _ Hl).
    + intros Hin. apply Hs. unfold Node.without_first in Hin.
      destruct (list_remove _ l) as [l'|] eqn:Hrm; simpl in Hin; [|done].
      apply list_remove_Some in Hrm as (l1 & l2 & -> & -> & _).
      revert Hin. rewrite !elem_of_app, elem_of_cons. tauto.
  - rewrite bool_decide_eq_false_2, bool_decide_eq_true_2 by done.
    rewrite (without_first_absent _ _ Hl). simpl.
    etrans; [apply Permutation_app_comm|]. simpl.
    apply (without_first_Permutation _ _ Hs).
  - rewrite !bool_decide_eq_false_2 by done.
    rewrite (without_first_absent _ _ Hl), (without_first_absent _ _ Hs).
    by rewrite app_nil_r.
Qed.

(** X2.  [_setup_decorators] wraps every registered decorator around its
    stage exactly once, on top of what the stage already wears.  The get-
    and the put-decorators go on in registration order, the first
    registered innermost.  The proc-decorators go on in the order
    [_rearrange_proc_decorator] leaves in [proc_decorators], and that list
    is a permutation of the registered one: no decorator is lost, repeated
    or added.  The two other decorator lists, the destinations and the
    queue are untouched. *)
Theorem _setup_decorators_keeps_every_decorator (s : Node.node) :
  ∃ s', Node._setup_decorators s = (inr tt, s')
        ∧ Node.proc_decorators s' ≡ₚ Node.proc_decorators s
        ∧ Node.layers (Node.bound_proc_data s')
          = rev (Node.proc_decorators s')
            ++ Node.layers (Node.bound_proc_data s)
        ∧ Node.layers (Node.bound_get_one_data s')
          = rev (Node.get_decorators s)
            ++ Node.layers (Node.bound_get_one_data s)
        ∧ Node.layers (Node.bound_put_data s')
          = rev (Node.put_decorators s)
            ++ Node.layers (Node.bound_put_data s)
        ∧ Node.get_decorators s' = Node.get_decorators s
        ∧ Node.put_decorators s' = Node.put_decorators s
        ∧ Node.dst_nodes s' = Node.dst_nodes s
        ∧ Node.src_queue s' = Node.src_queue s.
Proof.
  eexists. split; [apply _setup_decorators_eq|].
  pose proof (rearranged_Permutation (Node.proc_decorators s)) as Hperm.
  destruct s; simpl in *.
  split_and!; [done|apply layers_wrap_all..|done|done|done|done].
Qed.

(** X3.  [start] does not look at the running flag, and it is not
    idempotent.  On a correctly wired node in any state, a running one
    included, it succeeds: it spawns [worker_num] more workers beside those
    there are, wraps every registered decorator around its stage once more,
    on top of the layers an earlier [start] has put there, and installs a
    fresh generator whatever the state of the old one, so that the elements
    of an iterable the old one had still to yield are dropped and a
    generator that had finished is replaced by a live one.  The node is
    still correctly wired afterwards, so that the call can be repeated. *)
Theorem start_again_rewraps_and_resets (s : Node.node) :
  ¬ miswired s →
  ∃ s', Node.start s = (inr (Node.tasks s'), s')
        ∧ Node.tasks s'
          = Node.tasks s ++ seq 0 (Node.worker_num (Node.self s))
        ∧ Node.proc_decorators s' ≡ₚ Node.proc_decorators s
        ∧ Node.layers (Node.bound_proc_data s')
          = rev (Node.proc_decorators s')
            ++ Node.layers (Node.bound_proc_data s)
        ∧ Node.layers (Node.bound_get_one_data s')
          = rev (Node.get_decorators s)
            ++ Node.layers (Node.bound_get_one_data s)
        ∧ Node.layers (Node.bound_put_data s')
          = rev (Node.put_decorators s)
            ++ Node.layers (Node.bound_put_data s)
        ∧ Node.get_data_generator s' = Some (Node.GenSuspended [])
        ∧ Node.is_start s' = true
        ∧ Node.src_queue s' = Node.src_queue s
        ∧ Node.get_decorators s' = Node.get_decorators s
        ∧ Node.put_decorators s' = Node.put_decorators s
        ∧ ¬ miswired s'.
Proof.
  intros Hok. pose proof Hok as Hwired.
  apply _validate_destinations_wired in Hok.
  unfold Node.start. unfold py_bind at 1. rewrite Hok.
  unfold py_bind at 1. rewrite _setup_decorators_eq.
  pose proof (rearranged_Permutation (Node.proc_decorators s)) as Hperm.
  eexists. split; [by destruct s|].
  destruct s; simpl in *.
  split_and!; [done|done|apply layers_wrap_all..|done|done|done|done|done|].
  exact Hwired.
Qed.

(** A router whose generator has finished is started again: it gets a
    second worker and a live generator. *)
Lemma start_again_rewraps_and_resets_witness :
  Node.get_data_generator stopped_router = Some Node.GenFinished
  ∧ ∃ s', Node.start stopped_router = (inr [0; 0], s')
          ∧ Node.get_data_generator s' = Some (Node.GenSuspended []).
Proof.
  split; [reflexivity|].
  destruct (start_again_rewraps_and_resets stopped_router)
    as (s' & Hstart & Htasks & _ & _ & _ & _ & Hgen & _).
  - intros [[Hno _]|[_ Hdst]]; discriminate.
  - exists s'. split; [|exact Hgen].
    rewrite Hstart, Htasks. reflexivity.
Defined.

(** ** The retrying transform *)

Section retry_more.
Variable func : nat → pyval → pyexn + pyval.
Variable jitter : nat → Q.
Variable format_exc : pyexn → string.
Variable name : string.

(** After [failures] attempts that raise something to retry, the first
    attempt that settles ends the call with its own outcome. *)
Lemma retrying_settles data failures :
  ∀ attempts_left k,
    failures ≤ attempts_left →
    (∀ j, k ≤ j < k + failures →
          ∃ e, func j data = inl e ∧ e ≠ StopIteration) →
    settles (func (k + failures) data) →
    ∃ ev,
      Retry.retrying func jitter attempts_left k data
      = (func (k + failures) data, ev)
      ∧ Retry.attempts ev = seq k (S failures)
      ∧ Retry.sleeps ev
        = Retry.wait_exponential_jitter jitter <$> seq k failures.
Proof.
  induction failures as [|m IH]; intros attempts_left k Hle Hfail Hsettle.
  - rewrite Nat.add_0_r in *.
    destruct attempts_left; simpl; unfold Retry.error_wrapper_body;
      destruct (func k data) as [e|v]; simpl in Hsettle; subst;
      eexists; split_and!; done.
  - destruct attempts_left as [|left']; [lia|].
    destruct (Hfail k) as (e & Hk & He); [lia|].
    replace (k + S m) with (S k + m) in * by lia.
    destruct (IH left' (S k)) as (ev & Hret & Hatt & Hsl); [lia| |done|].
    { intros j Hj. apply Hfail. lia. }
    simpl. rewrite (error_wrapper_body_raises func k data e Hk He).
    unfold Retry.retry_if_not_StopIteration.
    rewrite bool_decide_eq_true_2 by done.
    rewrite Hret. eexists. split_and!; [done|..].
    + simpl. by rewrite Hatt.
    + simpl. by rewrite Hsl.
Qed.

(** X4.  A transform that fails on its first attempts and succeeds on attempt
    [k], with [k] at most 5, gives its result after exactly [k] attempts and
    [k - 1] sleeps: the failures before leave no trace in the value. *)
Theorem final_wrapper_succeeds_on_retry (data v : pyval) (k : nat) :
  1 ≤ k ≤ Retry.max_attempt_number →
  (∀ j, 1 ≤ j < k → ∃ e, func j data = inl e ∧ e ≠ StopIteration) →
  func k data = inr v →
  ∃ ev,
    Retry.final_wrapper func jitter format_exc name data = (v, ev)
    ∧ Retry.attempts ev = seq 1 k
    ∧ Retry.sleeps ev
      = Retry.wait_exponential_jitter jitter <$> seq 1 (k - 1).
Proof.
  intros Hk Hfail Hv. unfold Retry.max_attempt_number in Hk.
  destruct (retrying_settles data (k - 1) (Retry.max_attempt_number - 1) 1)
    as (ev & Hret & Hatt & Hsl).
  - unfold Retry.max_attempt_number. lia.
  - intros j Hj. apply Hfail. lia.
  - replace (1 + (k - 1)) with k by lia. by rewrite Hv.
  - replace (1 + (k - 1)) with k in Hret by lia.
    replace (S (k - 1)) with k in Hatt by lia.
    exists ev. unfold Retry.final_wrapper, Retry.error_wrapper.
    by rewrite Hret, Hv.
Qed.

(** X5.  A [StopIteration] raised by the transform itself, on attempt [k],
    is not retried, and it is not the stop signal of the worker either:
    [final_wrapper] catches it and returns an error value whose cause is
    that [StopIteration]. *)
Theorem final_wrapper_wraps_StopIteration (data : pyval) (k : nat) :
  1 ≤ k ≤ Retry.max_attempt_number →
  (∀ j, 1 ≤ j < k → ∃ e, func j data = inl e ∧ e ≠ StopIteration) →
  func k data = inl StopIteration →
  ∃ ev,
    Retry.final_wrapper func jitter format_exc name data
    = (VNodeProcessingError data name StopIteration
         (format_exc StopIteration), ev)
    ∧ Retry.attempts ev = seq 1 k.
Proof.
  intros Hk Hfail Hstop. unfold Retry.max_attempt_number in Hk.
  destruct (retrying_settles data (k - 1) (Retry.max_attempt_number - 1) 1)
    as (ev & Hret & Hatt & _).
  - unfold Retry.max_attempt_number. lia.
  - intros j Hj. apply Hfail. lia.
  - replace (1 + (k - 1)) with k by lia. by rewrite Hstop.
  - replace (1 + (k - 1)) with k in Hret by lia.
    replace (S (k - 1)) with k in Hatt by lia.
    exists ev. unfold Retry.final_wrapper, Retry.error_wrapper.
    by rewrite Hret, Hstop.
Qed.

End retry_more.

Lemma final_wrapper_succeeds_on_retry_witness :
  ∃ ev, Retry.final_wrapper flaky no_jitter short_trace "router" (VInt 3)
        = (VInt 30, ev)
        ∧ Retry.attempts ev = [1; 2; 3].
Proof.
  destruct (final_wrapper_succeeds_on_retry flaky no_jitter short_trace
              "router" (VInt 3) (VInt 30) 3) as (ev & Hfinal & Hatt & _).
  - unfold Retry.max_attempt_number. lia.
  - intros j Hj. exists (UserError "flaky"). split; [|discriminate].
    destruct j as [|[|[|j]]]; [lia|reflexivity|reflexivity|lia].
  - reflexivity.
  - exists ev. split; [exact Hfinal | exact Hatt].
Defined.

Lemma final_wrapper_wraps_StopIteration_witness :
  ∃ ev, Retry.final_wrapper stops_at_two no_jitter short_trace "router"
          (VInt 3)
        = (VNodeProcessingError (VInt 3) "router" StopIteration "Traceback",
           ev)
        ∧ Retry.attempts ev = [1; 2].
Proof.
  destruct (final_wrapper_wraps_StopIteration stops_at_two no_jitter
              short_trace "router" (VInt 3) 2) as (ev & Hfinal & Hatt).
  - unfold Retry.max_attempt_number. lia.
  - intros j Hj. exists (UserError "first"). split; [|discriminate].
    destruct j as [|[|j]]; [lia|reflexivity|lia].
  - reflexivity.
  - exists ev. split; [exact Hfinal | exact Hatt].
Defined.

(** ** The worker loop *)

Section worker_more.
Variable func : nat → pyval → pyexn + pyval.
Variable jitter : nat → Q.
Variable format_exc : pyexn → string.

(** A result of the retrying call is the result of one of its attempts. *)
Lemma retrying_result data :
  ∀ attempts_left k v ev,
    Retry.retrying func jitter attempts_left k data = (inr v, ev) →
    ∃ j, k ≤ j ≤ k + attempts_left ∧ func j data = inr v.
Proof.
  induction attempts_left as [|n IH]; intros k v ev; simpl;
    destruct (func k data) as [e|v0] eqn:Hk.
  - destruct (decide (e = StopIteration)) as [->|He].
    + unfold Retry.error_wrapper_body. rewrite Hk. simpl. intros [=].
    + rewrite (error_wrapper_body_raises func k data e Hk He).
      unfold Retry.retry_if_not_StopIteration.
      rewrite bool_decide_eq_true_2 by done. intros [=].
  - unfold Retry.error_wrapper_body. rewrite Hk.
    intros [= <- <-]. exists k. split; [lia|done].
  - destruct (decide (e = StopIteration)) as [->|He].
    + unfold Retry.error_wrapper_body. rewrite Hk. simpl. intros [=].
    + rewrite (error_wrapper_body_raises func k data e Hk He).
      unfold Retry.retry_if_not_StopIteration.
      rewrite bool_decide_eq_true_2 by done.
      destruct (Retry.retrying func jitter n (S k) data) as [r ev'] eqn:Hr.
      intros [= -> <-]. destruct (IH _ _ _ Hr) as (j & Hj & Hv).
      exists j. split; [lia|done].
  - unfold Retry.error_wrapper_body. rewrite Hk.
    intros [= <- <-]. exists k. split; [lia|done].
Qed.

(** Every value [final_wrapper] returns is the result of one of the five
    attempts, or an error value for this input and this node. *)
Lemma final_wrapper_result_or_error name data :
  let result := (Retry.final_wrapper func jitter format_exc name data).1 in
  (∃ j, 1 ≤ j ≤ Retry.max_attempt_number ∧ func j data = inr result)
  ∨ (∃ e, result = VNodeProcessingError data name e (format_exc e)).
Proof.
  unfold Retry.final_wrapper, Retry.error_wrapper.
  destruct (Retry.retrying func jitter (Retry.max_attempt_number - 1) 1 data)
    as [[e|v] ev] eqn:Hret; simpl.
  - right. by exists e.
  - left. apply retrying_result in Hret as (j & Hj & Hv).
    exists j. split; [|done]. unfold Retry.max_attempt_number in *. lia.
Qed.

(** X7.  One pass of a worker over a payload, on a running node that does
    not flatten, whose stages are not decorated and which is not among its
    own destinations.  The payload leaves the queue, the transform stage
    turns it into exactly one value (the result of one of at most five
    attempts, or an error value naming the payload and the node), and that
    value is what the put stage routes to the destinations.  When the puts
    have gone through (a put into a full queue waits), the in-flight list
    is as before and the pass has ended without leaving the loop: no
    outcome of the transform drops the payload or breaks the loop. *)
Theorem worker_pass_routes_one_value
        (s : Node.node) (task_id : nat) (data : pyval) (q : list pyval) :
  Node.undecorated s →
  Node.__name__ (Node.self s) ∉ dict_keys (Node.dst_nodes s) →
  Node.is_start s = true →
  Node.get_data_generator s = Some (Node.GenSuspended []) →
  Node.src_queue s = data :: q →
  is_stop_token data = false →
  Node.is_data_iterable (Node.self s) = false →
  length (Node.executing_data_queue s) < Node.worker_num (Node.self s) →
  let result := (Node._proc_data func jitter format_exc s data).1 in
  ((∃ j, 1 ≤ j ≤ 5 ∧ func j data = inr result)
   ∨ (∃ e, result
           = VNodeProcessingError data (Node.__name__ (Node.self s)) e
                                  (format_exc e)))
  ∧ ∃ s',
      Node.loop_body func jitter format_exc task_id s = (Node.Continue, s')
      ∧ Node.src_queue s' = q
      ∧ Node.inboxes s' = Node.inboxes (Node._put_data result s)
      ∧ Node.executing_data_queue s' ≡ₚ Node.executing_data_queue s
      ∧ Node.get_data_generator s' = Some (Node.GenSuspended []).
Proof.
  intros _ _ Hstart Hgen Hq Hstop Hflat Hlen result. split.
  { apply final_wrapper_result_or_error. }
  unfold Node.loop_body.
  rewrite (fetch_payload task_id s data q) by done.
  unfold Node.process.
  set (s0 := Node.set_executing_data_queue _ _).
  assert (Node._proc_data func jitter format_exc s0 data
          = Node._proc_data func jitter format_exc s data) as Hproc.
  { unfold Node._proc_data, s0. by destruct s. }
  rewrite Hproc. fold result.
  destruct (Node._proc_data func jitter format_exc s data) as [r ev] eqn:Hr.
  simpl in result. subst result.
  set (s1 := Node.add_log _ _).
  assert (Node.executing_data_queue (Node._put_data r s1)
          = Node.executing_data_queue s ++ [data]) as Hexec.
  { rewrite _put_data_only_inboxes. unfold s1, s0. by destruct s. }
  rewrite Hexec.
  destruct (list_remove_elem_of data
              (Node.executing_data_queue s ++ [data])) as [l Hl].
  { apply elem_of_app. right. left. }
  rewrite Hl. eexists. split_and!; [reflexivity|..].
  - rewrite _put_data_only_inboxes. unfold s1, s0. by destruct s.
  - transitivity (Node.inboxes (Node._put_data r s1)).
    + by destruct (Node._put_data r s1).
    + apply inboxes_put_data_congr; unfold s1, s0; by destruct s.
  - simpl. apply list_remove_snoc_Permutation in Hl.
    by destruct (Node._put_data r s1).
  - rewrite _put_data_only_inboxes. unfold s1, s0.
    destruct s; simpl in *. done.
Qed.
End worker_more.

Lemma worker_pass_routes_one_value_witness :
  ∃ s',
    Node.loop_body stops_at_two no_jitter short_trace 0 running_router
    = (Node.Continue, s')
    ∧ Node.inboxes s' !!! "all"
      = [VNodeProcessingError (VInt 3) "router" StopIteration "Traceback"]
    ∧ Node.src_queue s' = [].
Proof.
  destruct (worker_pass_routes_one_value stops_at_two no_jitter short_trace
              running_router 0 (VInt 3) [])
    as (_ & s' & Hloop & Hq & Hin & _).
  - by split_and!.
  - by_compute.
  - reflexivity.
  - reflexivity.
  - reflexivity.
  - reflexivity.
  - reflexivity.
  - simpl. lia.
  - exists s'. split_and!; [exact Hloop | | exact Hq].
    rewrite Hin. reflexivity.
Defined.

(** ** Fetching *)

Lemma _get_one_data_fetchable a v :
  fetchable a v → Node._get_one_data a v = inr (elements a v).
Proof.
  intros [Hstop Hiter].
  unfold Node._get_one_data, Node._get_one_data_frame, elements.
  rewrite Hstop. destruct (Node.is_data_iterable a); [|done].
  destruct (Hiter eq_refl) as [l ->]. done.
Qed.

(** The generator's loop on a queue of fetchable items: it yields the first
    element of the flattened queue, keeping the rest of that item pending,
    or finds nothing and leaves the queue empty. *)
Lemma _get_data_loop_flat a queue :
  Forall (fetchable a) queue →
  match concat (elements a <$> queue) with
  | [] =>
      Node._get_data_loop a queue
      = (Node.WouldBlock, Node.GenSuspended [], [])
  | d :: rest =>
      ∃ pending queue',
        Node._get_data_loop a queue
        = (Node.Got d, Node.GenSuspended pending, queue')
        ∧ pending ++ concat (elements a <$> queue') = rest
        ∧ Forall (fetchable a) queue'
  end.
Proof.
  induction queue as [|v queue IH]; intros Hok; simpl; [done|].
  apply Forall_cons in Hok as [Hv Hok].
  rewrite (_get_one_data_fetchable a v Hv).
  destruct (elements a v) as [|d pending]; simpl.
  - by apply IH.
  - by exists pending, queue.
Qed.

(** X8.  Fetch order.  On a running node without get-decorators whose queue
    holds no stop token (and only iterables, if the node flattens), the
    data that [n] successive [next] calls return are the first [n] elements
    of the queue, flattened when the node flattens, in queue order: what is
    pending of the current item first, then the items in the order they
    were put, an empty iterable contributing nothing and a string its
    characters. *)
Theorem next_many_is_fifo (n : nat) (s : Node.node) (pending : list pyval) :
  Node.bound_get_one_data s = Node.Core →
  Node.is_start s = true →
  Node.get_data_generator s = Some (Node.GenSuspended pending) →
  Forall (fetchable (Node.self s)) (Node.src_queue s) →
  (Node.next_many n s).1
  = take n (pending ++ concat (elements (Node.self s) <$> Node.src_queue s)).
Proof.
  intros _.
  revert s pending. induction n as [|n IH]; intros s pending Hstart Hgen Hok;
    [done|].
  simpl. unfold Node.next_get_data. rewrite Hgen.
  destruct pending as [|d pending].
  - rewrite Hstart. simpl.
    pose proof (_get_data_loop_flat (Node.self s) (Node.src_queue s) Hok)
      as Hloop.
    destruct (concat (elements (Node.self s) <$> Node.src_queue s))
      as [|d rest].
    + by rewrite Hloop.
    + destruct Hloop as (pending & queue' & -> & Hrest & Hok').
      set (s' := Node.set_src_queue _ _).
      assert (Node.self s' = Node.self s) as Hself
        by (unfold s'; by destruct s).
      assert (Node.src_queue s' = queue') as Hq'
        by (unfold s'; by destruct s).
      specialize (IH s' pending).
      destruct (Node.next_many n s') as [more s''] eqn:Hmore. simpl in *.
      f_equal. rewrite IH, Hself, Hq', Hrest; [done|..].
      * unfold s'. by destruct s.
      * unfold s'. by destruct s.
      * by rewrite Hself, Hq'.
  - set (s' := Node.set_get_data_generator _ _).
    assert (Node.self s' = Node.self s) as Hself
      by (unfold s'; by destruct s).
    assert (Node.src_queue s' = Node.src_queue s) as Hq'
      by (unfold s'; by destruct s).
    specialize (IH s' pending).
    destruct (Node.next_many n s') as [more s''] eqn:Hmore. simpl in *.
    f_equal. rewrite IH, Hself, Hq'; [done|..].
    + unfold s'. by destruct s.
    + unfold s'. by destruct s.
    + by rewrite Hself, Hq'.
Qed.

Lemma next_many_is_fifo_witness :
  (Node.next_many 10 running_flattener).1
  = [VInt 1; VInt 2; VStr "a"; VStr "b"].
Proof.
  rewrite (next_many_is_fifo 10 running_flattener []).
  - reflexivity.
  - reflexivity.
  - reflexivity.
  - reflexivity.
  - repeat constructor; simpl; eauto.
Defined.

(** X9.  On a flattening node without get-decorators an item that is not
    iterable fails the assertion inside the generator.  The worker that
    fetched it logs the [AssertionError], with no data, and does not leave
    its loop; nothing is routed.  But the generator all workers share is
    finished: the next pass of every worker breaks, and the items behind the
    bad one stay in the queue for good. *)
Theorem non_iterable_item_ends_the_workers
        (func : nat → pyval → pyexn + pyval) (jitter : nat → Q)
        (format_exc : pyexn → string)
        (s : Node.node) (task_id : nat) (data : pyval) (q : list pyval) :
  Node.bound_get_one_data s = Node.Core →
  Node.is_start s = true →
  Node.get_data_generator s = Some (Node.GenSuspended []) →
  Node.src_queue s = data :: q →
  Node.is_data_iterable (Node.self s) = true →
  is_stop_token data = false →
  iter_elems data = None →
  length (Node.executing_data_queue s) < Node.worker_num (Node.self s) →
  ∃ msg s1,
    Node.loop_body func jitter format_exc task_id s = (Node.Continue, s1)
    ∧ Node.log s1
      = Node.log s ++ [Node.LogUnexpected task_id (AssertionError msg) None]
    ∧ Node.get_data_generator s1 = Some Node.GenFinished
    ∧ Node.src_queue s1 = q
    ∧ Node.inboxes s1 = Node.inboxes s
    ∧ ∀ other,
        ∃ s2, Node.loop_body func jitter format_exc other s1
              = (Node.Break, s2)
              ∧ Node.src_queue s2 = q
              ∧ Node.inboxes s2 = Node.inboxes s.
Proof.
  intros _ Hstart Hgen Hq Hflat Hstop Hiter Hlen.
  eexists _, _. split_and!.
  - unfold Node.loop_body, Node.fetch, Node.next_get_data.
    rewrite Hstart, Hgen, Hq. simpl.
    rewrite bool_decide_eq_true_2 by done.
    unfold Node._get_one_data, Node._get_one_data_frame.
    rewrite Hstop, Hflat, Hiter. simpl. reflexivity.
  - by destruct s.
  - by destruct s.
  - by destruct s.
  - by destruct s.
  - intros other. eexists. split_and!.
    + unfold Node.loop_body.
      rewrite fetch_finished; [done|by destruct s..].
    + by destruct s.
    + by destruct s.
Qed.

Lemma non_iterable_item_ends_the_workers_witness :
  ∃ s1,
    Node.loop_body times_ten no_jitter short_trace 0 choking_flattener
    = (Node.Continue, s1)
    ∧ Node.src_queue s1 = [VList [VInt 1]]
    ∧ (Node.loop_body times_ten no_jitter short_trace 1 s1).1 = Node.Break.
Proof.
  destruct (non_iterable_item_ends_the_workers
              times_ten no_jitter short_trace choking_flattener 0 (VInt 7)
              [VList [VInt 1]])
    as (msg & s1 & Hfirst & _ & _ & Hq & _ & Hnext).
  - reflexivity.
  - reflexivity.
  - reflexivity.
  - reflexivity.
  - reflexivity.
  - reflexivity.
  - reflexivity.
  - simpl. lia.
  - exists s1. split_and!; [exact Hfirst | exact Hq |].
    destruct (Hnext 1) as (s2 & -> & _). reflexivity.
Defined.

(** ** The worker pool *)

Lemma holding_insert ws i w w' :
  ws !! i = Some w →
  holding (<[i:=w']> ws) ++ held w ≡ₚ holding ws ++ held w'.
Proof.
  intros Hw. unfold holding.
  rewrite <-(take_drop_middle ws i w Hw) at 2.
  rewrite insert_take_drop by (by eapply lookup_lt_Some).
  rewrite !bind_app, !bind_cons.
  generalize (take i ws ≫= held) (drop (S i) ws ≫= held) (held w) (held w').
  intros A B C D.
  rewrite <-!(assoc_L (++)).
  apply Permutation_app_head.
  rewrite (Permutation_app_comm D), <-(assoc_L (++)).
  rewrite (Permutation_app_comm C (B ++ D)), <-(assoc_L (++)).
  apply Permutation_app_head, Permutation_app_comm.
Qed.

Lemma holding_length ws i :
  ws !! i = Some Node.Looping → length (holding ws) < length ws.
Proof.
  unfold holding. revert i. induction ws as [|w ws IH]; intros i; [done|].
  rewrite bind_cons, length_app. destruct i as [|i]; simpl.
  - intros [= ->]. simpl.
    assert (length (ws ≫= held) ≤ length ws); [|lia].
    clear. induction ws as [|w ws IH]; [done|].
    rewrite bind_cons, length_app. destruct w; simpl; lia.
  - intros Hi. specialize (IH _ Hi). destruct w; simpl; lia.
Qed.

(** What a fetch leaves alone, and what it adds to the in-flight list. *)
Lemma fetch_frame task_id s t s' :
  Node.fetch task_id s = (t, s') →
  Node.self s' = Node.self s
  ∧ Node.dst_nodes s' = Node.dst_nodes s
  ∧ Node.is_start s' = Node.is_start s
  ∧ Node.inboxes s' = Node.inboxes s
  ∧ Node.executing_data_queue s'
    = Node.executing_data_queue s ++ held (Node.after_fetch t).
Proof.
  unfold Node.fetch.
  destruct (Node.is_start s) eqn:Hstart; simpl;
    [|intros [= <- <-]; by rewrite app_nil_r].
  case_bool_decide; [|intros [= <- <-]; by rewrite app_nil_r].
  unfold Node.next_get_data.
  destruct (Node.get_data_generator s) as [[[|d rest]|]|].
  - rewrite Hstart.
    destruct (Node._get_data_loop _ _) as [[r g] q0].
    destruct r as [data|e|]; [|destruct e|]; intros [= <- <-];
      destruct s; simpl in *; by rewrite ?app_nil_r.
  - intros [= <- <-]. by destruct s.
  - intros [= <- <-]. destruct s; simpl in *. by rewrite app_nil_r.
  - intros [= <- <-]. destruct s; simpl in *. by rewrite app_nil_r.
Qed.

Section in_flight.
Variable func : nat → pyval → pyexn + pyval.
Variable jitter : nat → Q.
Variable format_exc : pyexn → string.

(** A process step whose item is in flight takes it out, and routes. *)
Lemma process_frame task_id data s t s' :
  data ∈ Node.executing_data_queue s →
  Node.process func jitter format_exc task_id data s = (t, s') →
  t = Node.Continue
  ∧ Node.self s' = Node.self s
  ∧ Node.dst_nodes s' = Node.dst_nodes s
  ∧ Node.is_start s' = Node.is_start s
  ∧ Node.src_queue s' = Node.src_queue s
  ∧ Node.get_data_generator s' = Node.get_data_generator s
  ∧ data :: Node.executing_data_queue s' ≡ₚ Node.executing_data_queue s
  ∧ Node.inboxes s'
    = Node.inboxes
        (Node._put_data (Node._proc_data func jitter format_exc s data).1 s).
Proof.
  intros Hin. unfold Node.process.
  destruct (Node._proc_data func jitter format_exc s data) as [r ev].
  set (s1 := Node.add_log _ s).
  assert (Node.executing_data_queue (Node._put_data r s1)
          = Node.executing_data_queue s) as Hexec.
  { rewrite _put_data_only_inboxes. unfold s1. by destruct s. }
  rewrite Hexec.
  destruct (list_remove_elem_of _ _ Hin) as [l Hl]. rewrite Hl.
  intros [= <- <-].
  apply list_remove_Some in Hl as (l1 & l2 & Hl & -> & _).
  assert (Node.inboxes (Node._put_data r s1)
          = Node.inboxes (Node._put_data r s)) as Hinb.
  { apply inboxes_put_data_congr; unfold s1; by destruct s. }
  simpl. rewrite <-Hinb. rewrite _put_data_only_inboxes.
  generalize (Node.inboxes (Node._put_data r s1)). intros m.
  unfold s1. destruct s; simpl in *. split_and!; try done.
  rewrite Hl. by rewrite Permutation_middle.
Qed.

(** X10.  In every interleaving the in-flight list holds exactly the items the
    workers are processing.  So the [remove] in the [finally] clause always
    finds its item, and a worker at the top of its loop finds fewer items in
    flight than the pool has workers: in a pool of [worker_num] workers the
    test [len(self.executing_data_queue) < self.worker_num] never holds a
    worker back. *)
Theorem in_flight_is_what_workers_hold (p0 p : Node.pool) :
  Node.executing_data_queue (Node.the_node p0) ≡ₚ holding (Node.workers p0) →
  rtc (Node.step func jitter format_exc) p0 p →
  Node.executing_data_queue (Node.the_node p) ≡ₚ holding (Node.workers p)
  ∧ length (Node.workers p) = length (Node.workers p0)
  ∧ (∀ i data, Node.workers p !! i = Some (Node.Processing data) →
               data ∈ Node.executing_data_queue (Node.the_node p))
  ∧ (∀ i, Node.workers p !! i = Some Node.Looping →
          length (Node.executing_data_queue (Node.the_node p))
          < length (Node.workers p0)).
Proof.
  intros Hinit Hrun.
  assert (Node.executing_data_queue (Node.the_node p)
          ≡ₚ holding (Node.workers p)
          ∧ length (Node.workers p) = length (Node.workers p0)) as [Hinv Hlen].
  { revert p Hrun.
    apply (rtc_ind_r
             (λ p, Node.executing_data_queue (Node.the_node p)
                   ≡ₚ holding (Node.workers p)
                   ∧ length (Node.workers p) = length (Node.workers p0))
             p0); [done|].
    intros p1 p2 _ Hstep [IH IHlen].
    destruct Hstep as [p sent Hend Hlt Hfree|p Hend|p Hend Hall
                      |p task_id t s' Hw Hfetch|p task_id data t s' Hw Hproc];
      simpl; try done.
    - split; [|done]. by destruct (Node.the_node p).
    - rewrite length_insert. split; [|done].
      apply fetch_frame in Hfetch as (_ & _ & _ & _ & ->).
      pose proof (holding_insert _ _ _ (Node.after_fetch t) Hw) as Hins.
      simpl in Hins. rewrite app_nil_r in Hins. by rewrite Hins, IH.
    - rewrite length_insert. split; [|done].
      assert (data ∈ Node.executing_data_queue (Node.the_node p)) as Hin.
      { rewrite IH. unfold holding. apply list_elem_of_bind.
        exists (Node.Processing data). split; [left|].
        by eapply list_elem_of_lookup_2. }
      apply (process_frame _ _ _ _ _ Hin) in Hproc
        as (_ & _ & _ & _ & _ & _ & Hexec & _).
      pose proof (holding_insert _ _ _ Node.Looping Hw) as Hins.
      simpl in Hins. rewrite app_nil_r in Hins.
      apply (Permutation_cons_inv (a := data)).
      rewrite Hexec, IH, <-Hins. by rewrite Permutation_app_comm. }
  split_and!; [done..| |].
  - intros i data Hw. rewrite Hinv. unfold holding.
    apply list_elem_of_bind. exists (Node.Processing data).
    split; [left|]. by eapply list_elem_of_lookup_2.
  - intros i Hw. rewrite Hinv, <-Hlen. by eapply holding_length.
Qed.
End in_flight.

Lemma in_flight_is_what_workers_hold_witness :
  ∃ p, Node.run times_ten no_jitter short_trace [Node.DoFetch 0]
                (Node.pool_at_end running_router) = Some p
       ∧ Node.workers p = [Node.Processing (VInt 3)]
       ∧ Node.executing_data_queue (Node.the_node p) ≡ₚ [VInt 3].
Proof.
  destruct (Node.run times_ten no_jitter short_trace [Node.DoFetch 0]
                     (Node.pool_at_end running_router))
    as [p|] eqn:Hrun; [|vm_compute in Hrun; discriminate].
  destruct (in_flight_is_what_workers_hold
              times_ten no_jitter short_trace
              (Node.pool_at_end running_router) p) as (Hinv & _).
  - reflexivity.
  - by eapply run_sound.
  - exists p. split; [reflexivity|].
    assert (Node.workers p = [Node.Processing (VInt 3)]) as Hws.
    { vm_compute in Hrun. injection Hrun as <-. reflexivity. }
    split; [exact Hws|]. rewrite Hinv, Hws. reflexivity.
Defined.

Lemma elem_of_list_insert_inv {A} (l : list A) i x y :
  y ∈ <[i:=x]> l → y = x ∨ y ∈ l.
Proof.
  destruct (decide (i < length l)) as [Hi|Hi].
  - rewrite insert_take_drop by done.
    rewrite elem_of_app, elem_of_cons.
    intros [Hy|[->|Hy]]; [right|by left|right].
    + rewrite <-(take_drop i l). apply elem_of_app. by left.
    + rewrite <-(take_drop (S i) l). apply elem_of_app. by right.
  - rewrite list_insert_ge by lia. by right.
Qed.

Lemma fetch_throttled task_id s :
  Node.is_start s = true →
  ¬ length (Node.executing_data_queue s) < Node.worker_num (Node.self s) →
  Node.fetch task_id s = (Node.Continue, s).
Proof.
  intros Hstart Hfull. unfold Node.fetch. rewrite Hstart. simpl.
  by rewrite bool_decide_eq_false_2.
Qed.

Lemma fetch_empty task_id s :
  Node.is_start s = true →
  Node.get_data_generator s = Some (Node.GenSuspended []) →
  Node.src_queue s = [] →
  length (Node.executing_data_queue s) < Node.worker_num (Node.self s) →
  Node.fetch task_id s = (Node.Blocked, s).
Proof.
  intros Hstart Hgen Hq Hlen.
  unfold Node.fetch, Node.next_get_data.
  rewrite Hstart, Hgen, Hq. simpl.
  rewrite bool_decide_eq_true_2 by done.
  destruct s; simpl in *. by subst.
Qed.


(** ** Draining on [end] *)

Lemma is_stop_token_true v : is_stop_token v = true → v = Node.stop_token.
Proof. destruct v as [| | | | | |e| |]; try done. by destruct e. Qed.

Lemma count_stop_cons_stop q :
  Node.count_stop (Node.stop_token :: q) = S (Node.count_stop q).
Proof. done. Qed.

Lemma count_stop_cons_payload v q :
  is_stop_token v = false → Node.count_stop (v :: q) = Node.count_stop q.
Proof. intros Hv. unfold Node.count_stop. simpl. by rewrite Hv. Qed.

Lemma count_stop_snoc_payload v q :
  is_stop_token v = false → Node.count_stop (q ++ [v]) = Node.count_stop q.
Proof.
  intros Hv. unfold Node.count_stop.
  rewrite List.filter_app, length_app. simpl. rewrite Hv. simpl. lia.
Qed.

Lemma payloads_in_cons_stop q :
  payloads_in (Node.stop_token :: q) = payloads_in q.
Proof. unfold payloads_in. by rewrite filter_cons_False. Qed.

Lemma payloads_in_cons_payload v q :
  is_stop_token v = false → payloads_in (v :: q) = v :: payloads_in q.
Proof. intros Hv. unfold payloads_in. by rewrite filter_cons_True. Qed.

Lemma payloads_in_snoc_stop q :
  payloads_in (q ++ [Node.stop_token]) = payloads_in q.
Proof.
  unfold payloads_in. rewrite filter_app, filter_cons_False by done.
  by rewrite filter_nil, app_nil_r.
Qed.

Lemma payloads_in_snoc_payload v q :
  is_stop_token v = false → payloads_in (q ++ [v]) = payloads_in q ++ [v].
Proof.
  intros Hv. unfold payloads_in.
  by rewrite filter_app, filter_cons_True.
Qed.

(** A queue without payloads is a row of stop tokens. *)
Lemma payloads_in_nil q :
  payloads_in q = [] → q = replicate (Node.count_stop q) Node.stop_token.
Proof.
  induction q as [|v q IH]; [done|].
  destruct (is_stop_token v) eqn:Hv.
  - apply is_stop_token_true in Hv as ->.
    rewrite payloads_in_cons_stop, count_stop_cons_stop. intros Hq.
    simpl. f_equal. by apply IH.
  - by rewrite payloads_in_cons_payload.
Qed.

Lemma put_fields v s :
  Node.self (Node.put v s) = Node.self s
  ∧ Node.dst_nodes (Node.put v s) = Node.dst_nodes s
  ∧ Node.is_start (Node.put v s) = Node.is_start s
  ∧ Node.src_queue (Node.put v s) = Node.src_queue s ++ [v]
  ∧ Node.get_data_generator (Node.put v s) = Node.get_data_generator s
  ∧ Node.executing_data_queue (Node.put v s) = Node.executing_data_queue s
  ∧ Node.inboxes (Node.put v s) = Node.inboxes s.
Proof. by destruct s. Qed.

Section drain.
Variable func : nat → pyval → pyexn + pyval.
Variable jitter : nat → Q.
Variable format_exc : pyexn → string.
Variable a : Node.attrs.
Variable dsts : pydict string Node.dest.
Variable inbox0 : gmap string (list pyval).
Variable payloads0 : list pyval.
Hypothesis Hflat : Node.is_data_iterable a = false.
Hypothesis Hdup : NoDup (dict_keys dsts).

(** The steps of the node's own greenlets keep the invariant. *)
Lemma drain_invariant_step fed p p' :
  drain_invariant func jitter format_exc a dsts inbox0 payloads0 fed p →
  Node.step func jitter format_exc p p' →
  drain_invariant func jitter format_exc a dsts inbox0 payloads0 fed p'.
Proof.
  intros (rest & tail & fin0 & fin1 & hold0 & hold1 & Hself & Hdst & Hstart
          & Hq & Hrest & Hgen & Hexec & Hhold & Hpay & Hfed & Hinb) Hstep.
  destruct Hstep as [p sent Hend Hlt Hfree|p Hend|p Hend Hall
                    |p task_id t s' Hw Hfetch|p task_id data t s' Hw Hproc].
  - (* one more token *)
    destruct (put_fields Node.stop_token (Node.the_node p))
      as (Ps & Pd & Pi & Pq & Pg & Pe & Pb).
    exists rest, (tail ++ [Node.stop_token]), fin0, fin1, hold0, hold1.
    simpl. rewrite Ps, Pd, Pi, Pq, Pg, Pe, Pb, Hend in *. simpl in *.
    rewrite count_stop_snoc, payloads_in_snoc_stop.
    split_and!; try done.
    + by rewrite Hq, <-(assoc_L (++)).
    + destruct Hgen as [(Hg & <- & Hfin)|(Hg & Hr & <-)]; [by left|by right].
  - exists rest, tail, fin0, fin1, hold0, hold1. simpl.
    rewrite Hend in Hgen. simpl in Hgen.
    rewrite Hself in Hgen. split_and!; done.
  - exists rest, tail, fin0, fin1, hold0, hold1. simpl.
    rewrite Hend in Hgen. simpl in Hgen.
    split_and!; done.
  - (* a worker at the top of its loop *)
    pose proof (holding_insert _ _ _ (Node.after_fetch t) Hw) as Hins.
    simpl in Hins. rewrite app_nil_r in Hins.
    destruct (decide (length (Node.executing_data_queue (Node.the_node p))
                      < Node.worker_num (Node.self (Node.the_node p))))
      as [Hlen|Hfull].
    2:{ rewrite (fetch_throttled _ _ Hstart Hfull) in Hfetch.
        injection Hfetch as <- <-. simpl.
        rewrite (list_insert_id _ _ _ Hw).
        exists rest, tail, fin0, fin1, hold0, hold1. split_and!; done. }
    destruct Hgen as [(Hg & Hsent & Hnofin)|(Hg & -> & Hsent)].
    + destruct rest as [|d rest].
      * destruct tail as [|v tail].
        -- rewrite (fetch_empty _ _ Hstart Hg Hq Hlen) in Hfetch.
           injection Hfetch as <- <-. simpl.
           rewrite (list_insert_id _ _ _ Hw).
           exists [], [], fin0, fin1, hold0, hold1.
           split_and!; try done. by left.
        -- destruct (is_stop_token v) eqn:Hv.
           ++ apply is_stop_token_true in Hv as ->.
              rewrite (fetch_stop_token _ _ _ Hstart Hg Hq Hlen) in Hfetch.
              injection Hfetch as <- <-. simpl.
              rewrite (list_insert_id _ _ _ Hw).
              rewrite count_stop_cons_stop in Hsent.
              rewrite payloads_in_cons_stop in Hfed.
              exists [], tail, fin0, fin1, hold0, hold1.
              destruct (Node.the_node p); simpl in *.
              split_and!; try done. by right.
           ++ rewrite <-Hself in Hflat.
              rewrite (fetch_payload _ _ v tail Hstart Hg Hq Hv Hflat Hlen)
                in Hfetch.
              injection Hfetch as <- <-. simpl in *.
              rewrite (count_stop_cons_payload _ _ Hv) in Hsent.
              rewrite (payloads_in_cons_payload _ _ Hv) in Hfed.
              exists [], tail, fin0, fin1, hold0, (hold1 ++ [v]).
              destruct (Node.the_node p); simpl in *.
              split_and!; try done.
              ** left. split_and!; [done..|].
                 intros [?|?]%elem_of_list_insert_inv; done.
              ** by rewrite Hins, Hexec.
              ** by rewrite Hins, Hhold, (assoc_L (++)).
              ** rewrite Hfed. apply Permutation_app_head.
                 by rewrite <-(assoc_L (++)).
      * apply Forall_cons in Hrest as [Hd Hrest].
        rewrite <-Hself in Hflat.
        rewrite (fetch_payload _ _ d (rest ++ tail)
                   Hstart Hg Hq Hd Hflat Hlen) in Hfetch.
        injection Hfetch as <- <-. simpl in *.
        exists rest, tail, fin0, fin1, (hold0 ++ [d]), hold1.
        destruct (Node.the_node p); simpl in *.
        split_and!; try done.
        -- left. split_and!; [done..|].
           intros [?|?]%elem_of_list_insert_inv; done.
        -- by rewrite Hins, Hexec.
        -- rewrite Hins, Hhold. rewrite <-!(assoc_L (++)).
           apply Permutation_app_head. apply Permutation_app_comm.
        -- rewrite Hpay. apply Permutation_app_head.
           by rewrite <-(assoc_L (++)).
    + rewrite (fetch_finished _ _ Hstart Hg Hlen) in Hfetch.
      injection Hfetch as <- <-. simpl in *. rewrite app_nil_r in Hins.
      exists [], tail, fin0, fin1, hold0, hold1.
      destruct (Node.the_node p); simpl in *.
      split_and!; try done.
      * by right.
      * by rewrite Hins.
      * by rewrite Hins.
  - (* a worker that holds an item *)
    pose proof (holding_insert _ _ _ Node.Looping Hw) as Hins.
    simpl in Hins. rewrite app_nil_r in Hins.
    assert (data ∈ holding (Node.workers p)) as Hheld.
    { unfold holding. apply list_elem_of_bind.
      exists (Node.Processing data). split; [left|].
      by eapply list_elem_of_lookup_2. }
    assert (data ∈ Node.executing_data_queue (Node.the_node p)) as Hin
      by (by rewrite Hexec).
    apply (process_frame _ _ _ _ _ _ _ _ Hin) in Hproc
      as (_ & Ps & Pd & Pi & Pq & Pg & Pe & Pb).
    assert (∀ fin' : list pyval,
              fin' ≡ₚ (fin0 ++ fin1) ++ [data] →
              ∀ name d, (name, d) ∈ dsts →
                Node.inboxes s' !!! name
                ≡ₚ inbox0 !!! name
                   ++ filter (accepts d a)
                        (result_of func jitter format_exc a <$> fin'))
      as Hinb'.
    { revert Hinb. generalize (fin0 ++ fin1). intros F Hinb.
      intros fin' Hfin' name d Hnd. rewrite Pb.
      unfold Node._put_data. rewrite Hdst.
      rewrite (route_present _ _ _ _ name d Hdup Hnd).
      rewrite (Hinb name d Hnd), Hfin', fmap_app, filter_app.
      rewrite <-(assoc_L (++)). apply Permutation_app_head.
      apply Permutation_app_head. simpl.
      unfold Node._proc_data. rewrite Hself.
      fold (result_of func jitter format_exc a data).
      destruct (Node.criteria d a (result_of func jitter format_exc a data))
        eqn:Hc.
      - by rewrite filter_cons_True.
      - rewrite filter_cons_False; [done|].
        unfold accepts. by rewrite Hc. }
    assert (Node.executing_data_queue s'
            ≡ₚ holding (<[task_id:=Node.Looping]> (Node.workers p)))
      as Hexec'.
    { apply (Permutation_cons_inv (a := data)).
      rewrite Pe, Hexec, <-Hins. by rewrite Permutation_app_comm. }
    assert (Node.Finished ∉ Node.workers p →
            Node.Finished ∉ <[task_id:=Node.Looping]> (Node.workers p))
      as Hnofin'.
    { intros Hno [?|?]%elem_of_list_insert_inv; done. }
    rewrite Hhold in Hheld. apply elem_of_app in Hheld as [H0|H1].
    + apply elem_of_Permutation in H0 as [h0 H0].
      exists rest, tail, (fin0 ++ [data]), fin1, h0, hold1. simpl.
      rewrite Ps, Pd, Pi, Pq, Pg.
      split_and!; try done.
      * destruct Hgen as [(Hg & Hsent & Hnofin)|(Hg & -> & Hsent)];
          [left|by right]. split_and!; [done..|]. by apply Hnofin'.
      * apply (Permutation_cons_inv (a := data)).
        rewrite Permutation_cons_append, Hins, Hhold, H0. done.
      * rewrite Hpay, H0. rewrite <-!(assoc_L (++)).
        by apply Permutation_app_head.
      * apply Hinb'. rewrite <-!(assoc_L (++)).
        apply Permutation_app_head. apply Permutation_app_comm.
    + apply elem_of_Permutation in H1 as [h1 H1].
      exists rest, tail, fin0, (fin1 ++ [data]), hold0, h1. simpl.
      rewrite Ps, Pd, Pi, Pq, Pg.
      split_and!; try done.
      * destruct Hgen as [(Hg & Hsent & Hnofin)|(Hg & -> & Hsent)];
          [left|by right]. split_and!; [done..|]. by apply Hnofin'.
      * apply (Permutation_cons_inv (a := data)).
        rewrite Permutation_cons_append, Hins, Hhold, H1.
        by rewrite Permutation_middle.
      * rewrite Hfed, H1. rewrite <-!(assoc_L (++)).
        by apply Permutation_app_head.
      * apply Hinb'. by rewrite (assoc_L (++)).
Qed.

(** So does a payload put into the queue by another greenlet. *)
Lemma drain_invariant_feed fed p v :
  drain_invariant func jitter format_exc a dsts inbox0 payloads0 fed p →
  is_stop_token v = false →
  drain_invariant func jitter format_exc a dsts inbox0 payloads0 (fed ++ [v])
    {| Node.the_node := Node.put v (Node.the_node p);
       Node.workers := Node.workers p;
       Node.in_end := Node.in_end p |}.
Proof.
  intros (rest & tail & fin0 & fin1 & hold0 & hold1 & Hself & Hdst & Hstart
          & Hq & Hrest & Hgen & Hexec & Hhold & Hpay & Hfed & Hinb) Hv.
  destruct (put_fields v (Node.the_node p))
    as (Ps & Pd & Pi & Pq & Pg & Pe & Pb).
  exists rest, (tail ++ [v]), fin0, fin1, hold0, hold1. simpl.
  rewrite Ps, Pd, Pi, Pq, Pg, Pe, Pb.
  rewrite (count_stop_snoc_payload _ _ Hv), (payloads_in_snoc_payload _ _ Hv).
  split_and!; try done.
  - by rewrite Hq, <-(assoc_L (++)).
  - rewrite Hfed. by rewrite <-!(assoc_L (++)).
Qed.

Lemma drain_invariant_run fed p p' :
  fed_run func jitter format_exc fed p p' →
  ∀ before,
    drain_invariant func jitter format_exc a dsts inbox0 payloads0 before p →
    drain_invariant func jitter format_exc a dsts inbox0 payloads0
                    (before ++ fed) p'.
Proof.
  induction 1 as [p|fed p p1 p2 Hstep _ IH|fed p v p2 Hv Hroom _ IH];
    intros before Hinv.
  - by rewrite app_nil_r.
  - apply IH. by eapply drain_invariant_step.
  - rewrite (cons_middle v), (assoc_L (++)). apply IH.
    by apply drain_invariant_feed.
Qed.
End drain.

(** [joinall] has returned only if every worker has left its loop, and the
    pool keeps its size. *)
Lemma fed_run_returned func jitter format_exc fed p0 p :
  fed_run func jitter format_exc fed p0 p →
  (Node.in_end p0 = Node.Returned →
   Forall (λ w, w = Node.Finished) (Node.workers p0)) →
  Node.in_end p = Node.Returned →
  Forall (λ w, w = Node.Finished) (Node.workers p).
Proof.
  induction 1 as [p|fed p p1 p2 Hstep _ IH|fed p v p2 Hv Hroom _ IH];
    intros Hinit; [done| |by apply IH].
  apply IH.
  destruct Hstep as [p sent Hend Hlt Hfree|p Hend|p Hend Hall
                    |p task_id t s' Hw Hfetch|p task_id data t s' Hw Hproc];
    simpl; try done.
  - intros Hret. specialize (Hinit Hret).
    rewrite Forall_lookup in Hinit. by specialize (Hinit _ _ Hw).
  - intros Hret. specialize (Hinit Hret).
    rewrite Forall_lookup in Hinit. by specialize (Hinit _ _ Hw).
Qed.

Lemma fed_run_workers_length func jitter format_exc fed p0 p :
  fed_run func jitter format_exc fed p0 p →
  length (Node.workers p) = length (Node.workers p0).
Proof.
  induction 1 as [p|fed p p1 p2 Hstep _ IH|fed p v p2 Hv Hroom _ IH];
    [done| |done].
  rewrite IH.
  destruct Hstep; simpl; try done; apply length_insert.
Qed.

Lemma holding_all_finished ws :
  Forall (λ w, w = Node.Finished) ws → holding ws = [].
Proof.
  unfold holding. induction 1 as [|w ws -> _ IH]; [done|].
  by rewrite bind_cons, IH.
Qed.

Lemma holding_all_looping ws :
  Forall (λ w, w = Node.Looping) ws → holding ws = [].
Proof.
  unfold holding. induction 1 as [|w ws -> _ IH]; [done|].
  by rewrite bind_cons, IH.
Qed.

Lemma rtc_fed_run func jitter format_exc p p' :
  rtc (Node.step func jitter format_exc) p p' →
  fed_run func jitter format_exc [] p p'.
Proof.
  induction 1 as [|p p1 p2 Hstep _ IH]; [constructor|].
  by eapply fed_run_own.
Qed.

Lemma fed_schedule_sound func jitter format_exc schedule p p' :
  fed_schedule func jitter format_exc schedule p = Some p' →
  fed_run func jitter format_exc (fed_by schedule) p p'.
Proof.
  revert p. induction schedule as [|[act|v] schedule IH]; intros p; simpl.
  - intros [= <-]. constructor.
  - destruct (Node.act func jitter format_exc act p) as [p1|] eqn:Hact;
      [|done].
    intros Hrun. eapply fed_run_own; [by eapply act_sound|by apply IH].
  - destruct (is_stop_token v) eqn:Hv; simpl; [done|].
    destruct (Node.queue_has_room (Node.the_node p)) eqn:Hroom; [|done].
    intros Hrun. unfold fed_by. simpl. apply fed_run_put; [done..|].
    by apply IH.
Qed.

(** The state in which [end] returns, for a node that does not flatten and
    was idle, with a live generator, when the [for] loop of [end] began. *)
Lemma drain_at_return func jitter format_exc fed p0 p :
  let s := Node.the_node p0 in
  Node.is_data_iterable (Node.self s) = false →
  NoDup (dict_keys (Node.dst_nodes s)) →
  Node.is_start s = true →
  Node.get_data_generator s = Some (Node.GenSuspended []) →
  Node.executing_data_queue s = [] →
  Forall (λ v, is_stop_token v = false) (Node.src_queue s) →
  Node.in_end p0 = Node.Putting 0 →
  Node.workers p0 ≠ [] →
  Forall (λ w, w = Node.Looping) (Node.workers p0) →
  fed_run func jitter format_exc fed p0 p →
  Node.in_end p = Node.Returned →
  ∃ later,
    fed ≡ₚ later ++ payloads_in (Node.src_queue (Node.the_node p))
    ∧ Node.count_stop (Node.src_queue (Node.the_node p))
      = Node.worker_num (Node.self s) - 1
    ∧ Node.executing_data_queue (Node.the_node p) = []
    ∧ ∀ name d, (name, d) ∈ Node.dst_nodes s →
        Node.inboxes (Node.the_node p) !!! name
        ≡ₚ Node.inboxes s !!! name
           ++ filter (accepts d (Node.self s))
                     (result_of func jitter format_exc (Node.self s)
                        <$> (Node.src_queue s ++ later)).
Proof.
  intros s Hflat Hdup Hstart Hgen Hexec Hq Hend Hws Hloop Hrun Hret.
  pose proof (drain_invariant_run func jitter format_exc (Node.self s)
                (Node.dst_nodes s) (Node.inboxes s) (Node.src_queue s)
                Hflat Hdup fed p0 p Hrun []) as Hinv.
  destruct Hinv
    as (rest & tail & fin0 & fin1 & hold0 & hold1 & Hself & Hdst & _ & Hq'
        & _ & Hg & Hex & Hhold & Hpay & Hfed & Hinb).
  { exists (Node.src_queue s), [], [], [], [], [].
    rewrite (holding_all_looping _ Hloop), Hend, !app_nil_r. fold s.
    split_and!; try done.
    - left. split_and!; [done..|].
      intros Hin. rewrite Forall_forall in Hloop. by specialize (Hloop _ Hin).
    - by rewrite Hexec.
    - intros name d _. by rewrite app_nil_r. }
  simpl in Hfed.
  pose proof (fed_run_returned _ _ _ _ _ _ Hrun) as Hfin.
  specialize (Hfin ltac:(by rewrite Hend) Hret).
  pose proof (fed_run_workers_length _ _ _ _ _ _ Hrun) as Hlen.
  rewrite (holding_all_finished _ Hfin) in Hex, Hhold.
  symmetry in Hhold. apply Permutation_nil_r in Hhold.
  apply app_eq_nil in Hhold as [-> ->].
  assert (Node.Finished ∈ Node.workers p) as Hone.
  { destruct (Node.workers p) as [|w ws] eqn:Hwp.
    - destruct (Node.workers p0); [done|]. simpl in Hlen. lia.
    - apply Forall_cons in Hfin as [-> _]. left. }
  destruct Hg as [(_ & _ & Hno)|(_ & -> & Hsent)]; [done|].
  rewrite Hret in Hsent. simpl in Hsent, Hq', Hpay, Hfed.
  rewrite app_nil_r in Hpay.
  exists fin1. rewrite Hq'. split_and!.
  - done.
  - lia.
  - by apply Permutation_nil_r.
  - intros name d Hnd. rewrite (Hinb name d Hnd).
    apply Permutation_app_head. by rewrite Hpay.
Qed.

(** X11.  [end] on a running, idle node that does not flatten, whose stages
    are not decorated and which is not among its own destinations, while
    other greenlets may still put payloads into its queue.  Whenever [end]
    returns, every destination has received, besides what it already had,
    the results its criteria accepts of each payload that was queued when
    [end] was called, and of those put into the queue later that are not
    still there: each of them once, none lost, in some order, whatever the
    interleaving. *)
Theorem end_delivers_every_payload_once func jitter format_exc fed p0 p :
  let s := Node.the_node p0 in
  Node.undecorated s →
  Node.__name__ (Node.self s) ∉ dict_keys (Node.dst_nodes s) →
  Node.is_data_iterable (Node.self s) = false →
  NoDup (dict_keys (Node.dst_nodes s)) →
  Node.is_start s = true →
  Node.get_data_generator s = Some (Node.GenSuspended []) →
  Node.executing_data_queue s = [] →
  Forall (λ v, is_stop_token v = false) (Node.src_queue s) →
  Node.in_end p0 = Node.Putting 0 →
  Node.workers p0 ≠ [] →
  Forall (λ w, w = Node.Looping) (Node.workers p0) →
  fed_run func jitter format_exc fed p0 p →
  Node.in_end p = Node.Returned →
  ∃ later,
    fed ≡ₚ later ++ payloads_in (Node.src_queue (Node.the_node p))
    ∧ ∀ name d, (name, d) ∈ Node.dst_nodes s →
        Node.inboxes (Node.the_node p) !!! name
        ≡ₚ Node.inboxes s !!! name
           ++ filter (accepts d (Node.self s))
                     (result_of func jitter format_exc (Node.self s)
                        <$> (Node.src_queue s ++ later)).
Proof.
  intros s _ _ Hflat Hdup Hstart Hgen Hexec Hq Hend Hws Hloop Hrun Hret.
  destruct (drain_at_return func jitter format_exc fed p0 p)
    as (later & Hfed & _ & _ & Hinb); try done.
  by exists later.
Qed.

Lemma end_delivers_every_payload_once_witness :
  ∃ p, fed_schedule successor no_jitter short_trace pair_fed_schedule
                    (Node.pool_at_end running_pair) = Some p
       ∧ Node.src_queue (Node.the_node p) = [VInt 6; Node.stop_token]
       ∧ Node.inboxes (Node.the_node p) !!! "evens" ≡ₚ [VInt 4; VInt 6]
       ∧ Node.inboxes (Node.the_node p) !!! "all"
         ≡ₚ [VInt 4; VInt 5; VInt 6].
Proof.
  destruct (fed_schedule successor no_jitter short_trace pair_fed_schedule
                         (Node.pool_at_end running_pair))
    as [p|] eqn:Hrun; [|vm_compute in Hrun; discriminate].
  assert (Node.in_end p = Node.Returned) as Hret.
  { vm_compute in Hrun. by injection Hrun as <-. }
  assert (Node.src_queue (Node.the_node p) = [VInt 6; Node.stop_token])
    as Hqueue.
  { vm_compute in Hrun. by injection Hrun as <-. }
  apply fed_schedule_sound in Hrun.
  destruct (end_delivers_every_payload_once
              successor no_jitter short_trace (fed_by pair_fed_schedule)
              (Node.pool_at_end running_pair) p
              ltac:(by split_and!) ltac:(by_compute) eq_refl
              ltac:(by_compute) eq_refl eq_refl eq_refl ltac:(by_compute)
              eq_refl ltac:(done) ltac:(by repeat constructor) Hrun Hret)
    as (later & Hfed & Hinb).
  rewrite Hqueue in Hfed.
  assert (later = [VInt 5]) as ->.
  { change (fed_by pair_fed_schedule) with ([VInt 5] ++ [VInt 6]) in Hfed.
    change (payloads_in [VInt 6; Node.stop_token]) with [VInt 6] in Hfed.
    apply Permutation_app_inv_r in Hfed. symmetry in Hfed.
    by apply Permutation_singleton_r in Hfed. }
  exists p. split_and!; [done|done|..].
  - apply (Hinb "evens" only_even). by left.
  - apply (Hinb "all" accept_all). right. by left.
Defined.

(** X12.  [end] on a running, idle node that does not flatten, whose stages
    are not decorated and which is not among its own destinations, while
    other greenlets may still put payloads into its queue.  Whenever [end]
    returns, the queue still holds all the stop tokens but one, and nothing
    is in flight: the first token a worker meets ends the generator for
    every worker, and the others are never taken.  The payloads left in the
    queue are among those put into it after [end] was called; if there were
    none, the queue is a row of [worker_num - 1] stop tokens. *)
Theorem end_leaves_stop_tokens_behind func jitter format_exc fed p0 p :
  let s := Node.the_node p0 in
  Node.undecorated s →
  Node.__name__ (Node.self s) ∉ dict_keys (Node.dst_nodes s) →
  Node.is_data_iterable (Node.self s) = false →
  NoDup (dict_keys (Node.dst_nodes s)) →
  Node.is_start s = true →
  Node.get_data_generator s = Some (Node.GenSuspended []) →
  Node.executing_data_queue s = [] →
  Forall (λ v, is_stop_token v = false) (Node.src_queue s) →
  Node.in_end p0 = Node.Putting 0 →
  Node.workers p0 ≠ [] →
  Forall (λ w, w = Node.Looping) (Node.workers p0) →
  fed_run func jitter format_exc fed p0 p →
  Node.in_end p = Node.Returned →
  Node.count_stop (Node.src_queue (Node.the_node p))
  = Node.worker_num (Node.self s) - 1
  ∧ Node.executing_data_queue (Node.the_node p) = []
  ∧ (∃ later,
       fed ≡ₚ later ++ payloads_in (Node.src_queue (Node.the_node p)))
  ∧ (fed = [] →
     Node.src_queue (Node.the_node p)
     = replicate (Node.worker_num (Node.self s) - 1) Node.stop_token).
Proof.
  intros s _ _ Hflat Hdup Hstart Hgen Hexec Hq Hend Hws Hloop Hrun Hret.
  destruct (drain_at_return func jitter format_exc fed p0 p)
    as (later & Hfed & Hcount & Hex & _); try done.
  split_and!; [done|done|by exists later|].
  intros ->. symmetry in Hfed. apply Permutation_nil_r in Hfed.
  apply app_eq_nil in Hfed as [_ Hnone].
  unfold s. rewrite <-Hcount. by apply payloads_in_nil.
Qed.

Lemma end_leaves_stop_tokens_behind_witness :
  ∃ p, Node.run successor no_jitter short_trace pair_drain_schedule
                (Node.pool_at_end running_pair) = Some p
       ∧ Node.src_queue (Node.the_node p) = [Node.stop_token].
Proof.
  destruct (Node.run successor no_jitter short_trace pair_drain_schedule
                     (Node.pool_at_end running_pair))
    as [p|] eqn:Hrun; [|vm_compute in Hrun; discriminate].
  assert (Node.in_end p = Node.Returned) as Hret.
  { vm_compute in Hrun. by injection Hrun as <-. }
  apply run_sound, rtc_fed_run in Hrun.
  destruct (end_leaves_stop_tokens_behind
              successor no_jitter short_trace []
              (Node.pool_at_end running_pair) p
              ltac:(by split_and!) ltac:(by_compute) eq_refl
              ltac:(by_compute) eq_refl eq_refl eq_refl ltac:(by_compute)
              eq_refl ltac:(done) ltac:(by repeat constructor) Hrun Hret)
    as (_ & _ & _ & Hrow).
  exists p. split; [done|]. by apply Hrow.
Defined.

(** ** A run of [end] that returns *)

Section can_return.
Variable func : nat → pyval → pyexn + pyval.
Variable jitter : nat → Q.
Variable format_exc : pyexn → string.
Variable a : Node.attrs.
Hypothesis Hflat : Node.is_data_iterable a = false.
Hypothesis Hpos : 0 < Node.worker_num a.





End can_return.




(** ** The life of a task in the iterable pipeline *)

Lemma slots_from_set_new k vs v :
  dict_set (slots_from k vs) (VInt (Z.of_nat (k + length vs))) v
  = slots_from k (vs ++ [v]).
Proof.
  revert k. induction vs as [|v0 vs IH]; intros k; simpl.
  - by rewrite Nat.add_0_r.
  - rewrite decide_False by (intros [= H]; lia).
    f_equal. rewrite <-IH. do 3 f_equal. lia.
Qed.

Lemma slots_from_set_old k vs i c :
  i < length vs →
  dict_set (slots_from k vs) (VInt (Z.of_nat (k + i))) c
  = slots_from k (<[i:=c]> vs).
Proof.
  revert k i. induction vs as [|v0 vs IH]; intros k i Hi; simpl in *; [lia|].
  destruct i as [|i]; simpl.
  - rewrite decide_True; [done|]. do 2 f_equal. lia.
  - rewrite decide_False by (intros [= H]; lia).
    f_equal. rewrite <-IH by lia. do 3 f_equal. lia.
Qed.

Lemma slots_from_values k vs : dict_values (slots_from k vs) = vs.
Proof.
  unfold dict_values. revert k.
  induction vs as [|v vs IH]; intros k; simpl; [done|]. by rewrite IH.
Qed.

Lemma label_each_from generate_label data points m probe exhausted p :
  dict_get (IterablePipeline.processing_tasks p) (generate_label data)
  = Some (labelled_task generate_label data m probe exhausted) →
  ∃ p',
    label_each generate_label data points p
    = (inr (label_of (generate_label data) <$> seq m (length points)), p')
    ∧ dict_get (IterablePipeline.processing_tasks p') (generate_label data)
      = Some (labelled_task generate_label data (m + length points)
                (drop (length points) probe)
                (exhausted || bool_decide (length probe < length points)))
    ∧ IterablePipeline.forwarded p' = IterablePipeline.forwarded p.
Proof.
  revert m probe exhausted p.
  induction points as [|pt points IH]; intros m probe exhausted p Htask.
  - exists p. simpl. rewrite Nat.add_0_r, drop_0, orb_false_r.
    split_and!; done.
  - simpl. unfold py_bind at 1.
    unfold IterablePipeline.get_label at 1, py_bind at 1.
    unfold IterablePipeline.lookup_task. rewrite Htask.
    unfold IterablePipeline.ProcessingTask_get_label, labelled_task at 1 2 3.
    simpl.
    set (task' := labelled_task generate_label data (S m) (drop 1 probe)
                    (exhausted || bool_decide (length probe < 1))).
    set (p1 := IterablePipeline.set_processing_tasks
                 (dict_set (IterablePipeline.processing_tasks p)
                           (generate_label data) task') p).
    destruct (IH (S m) (drop 1 probe)
                 (exhausted || bool_decide (length probe < 1)) p1)
      as (p' & Hrun & Htask' & Hfwd).
    { unfold p1. simpl. apply dict_get_set_eq. }
    exists p'.
    assert (labelled_task generate_label data (S m + length points)
              (drop (length points) (drop 1 probe))
              (exhausted || bool_decide (length probe < 1)
               || bool_decide (length (drop 1 probe) < length points))
            = labelled_task generate_label data (m + S (length points))
                (drop (S (length points)) probe)
                (exhausted || bool_decide (length probe < S (length points))))
      as Heq.
    { rewrite drop_drop. f_equal; [lia|].
      rewrite length_drop.
      destruct exhausted; [done|]. simpl.
      repeat case_bool_decide; try done; lia. }
    rewrite <-Heq. clear Heq.
    assert ({| IterablePipeline.index := S m;
               IterablePipeline.over_results :=
                 dict_set (slots_from 0 (replicate m VNone))
                          (VInt (Z.of_nat m)) VNone;
               IterablePipeline.original_data := data;
               IterablePipeline._iter :=
                 (match probe with [] => (true, []) 
                  | _ :: probe0 => (exhausted, probe0) end).2;
               IterablePipeline.is_generator_exhausted :=
                 (match probe with [] => (true, [])
                  | _ :: probe0 => (exhausted, probe0) end).1;
               IterablePipeline.task_label := generate_label data |}
            = task') as Htask1.
    { unfold task', labelled_task.
      pose proof (slots_from_set_new 0 (replicate m VNone) VNone) as Hs.
      rewrite length_replicate in Hs. simpl in Hs. rewrite Hs.
      rewrite <-replicate_cons_app.
      destruct probe as [|x probe]; simpl.
      - by rewrite orb_true_r.
      - rewrite drop_0. destruct exhausted; simpl; [done|].
        try rewrite bool_decide_eq_false_2 by lia. done. }
    destruct probe as [|x probe]; simpl in *;
      rewrite Htask1; fold p1; unfold py_bind; rewrite Hrun; simpl;
      split_and!; done.
Qed.

(** Registration: the head's get decorator files a fresh task under the
    token of the input, whatever was there, with the probe one element
    ahead. *)
Lemma _iterable_get_data_wrapper_registers
      generate_label get_func data elems ret p :
  iter_elems data = Some elems → elems ≠ [] → get_func data = inr ret →
  IterablePipeline._iterable_get_data_wrapper generate_label get_func data p
  = (inr ret,
     IterablePipeline.set_processing_tasks
       (dict_set (IterablePipeline.processing_tasks p) (generate_label data)
                 (labelled_task generate_label data 0 (drop 1 elems) false))
       p).
Proof.
  intros Helems Hne Hget.
  unfold IterablePipeline._iterable_get_data_wrapper,
    IterablePipeline.ProcessingTask__init__.
  rewrite Helems. destruct elems as [|x elems]; [done|].
  simpl. by rewrite Hget, drop_0.
Qed.

(** X14.  After an iterable is taken in, the labels issued for its elements
    carry the token of the iterable and the slot indices 0, 1, 2, ... in order;
    the task holds one empty slot per label, and it knows its source is
    exhausted exactly from the label that is issued for the last element
    on. *)
Theorem labels_are_issued_in_order
        (generate_label : pyval → pyval)
        (get_func : pyval → pyexn + list pyval)
        (data : pyval) (elems ret points : list pyval)
        (p : IterablePipeline.IterablePipeline) :
  iter_elems data = Some elems → elems ≠ [] → get_func data = inr ret →
  ∃ p',
    (IterablePipeline._iterable_get_data_wrapper generate_label get_func data ;;;
     label_each generate_label data points)%py p
    = (inr (label_of (generate_label data) <$> seq 0 (length points)), p')
    ∧ dict_get (IterablePipeline.processing_tasks p') (generate_label data)
      = Some (labelled_task generate_label data (length points)
                (drop (S (length points)) elems)
                (bool_decide (length elems ≤ length points)))
    ∧ IterablePipeline.forwarded p' = IterablePipeline.forwarded p.
Proof.
  intros Helems Hne Hget.
  unfold py_bind.
  rewrite (_iterable_get_data_wrapper_registers _ _ _ _ _ _ Helems Hne Hget).
  set (p1 := IterablePipeline.set_processing_tasks _ p).
  destruct (label_each_from generate_label data points 0 (drop 1 elems)
              false p1) as (p' & Hrun & Htask & Hfwd).
  { unfold p1. simpl. apply dict_get_set_eq. }
  exists p'. split_and!; [done| |done].
  rewrite Htask. f_equal. simpl. rewrite drop_drop, length_drop.
  f_equal.
  destruct elems as [|x elems]; [done|]. simpl.
  repeat case_bool_decide; try done; lia.
Qed.

Lemma labels_are_issued_in_order_witness :
  (ingest_123 empty_pipeline).1
  = inr [label_of input_123 0; label_of input_123 1; label_of input_123 2]
  ∧ (IterablePipeline.is_generator_exhausted
       <$> dict_get (IterablePipeline.processing_tasks
                       (ingest_123 empty_pipeline).2) input_123)
    = Some true.
Proof.
  destruct (labels_are_issued_in_order content_label head_get_func input_123
              [VInt 1; VInt 2; VInt 3] [VInt 1; VInt 2; VInt 3]
              [VInt 1; VInt 2; VInt 3] empty_pipeline)
    as (p' & Hrun & Htask & _); [reflexivity|discriminate|reflexivity|].
  assert (ingest_123 empty_pipeline
          = (inr [label_of input_123 0; label_of input_123 1;
                  label_of input_123 2], p')) as ->.
  { etrans; [|exact Hrun]. reflexivity. }
  simpl. split; [done|].
  change (content_label input_123) with input_123 in Htask.
  by rewrite Htask.
Defined.

(** The slots without a result, and the test of the tail decorator. *)
Lemma unfilled_test vs :
  forallb id (IterablePipeline.is_not_None <$> vs)
  = bool_decide (unfilled vs = 0).
Proof.
  unfold unfilled. induction vs as [|v vs IH]; [done|].
  rewrite fmap_cons. cbn [forallb].
  destruct (decide (v = VNone)) as [->|Hv].
  - rewrite filter_cons_True by done.
    replace (IterablePipeline.is_not_None VNone) with false by reflexivity.
    simpl. by repeat case_bool_decide.
  - rewrite filter_cons_False by done.
    replace (IterablePipeline.is_not_None v) with true
      by (symmetry; by apply bool_decide_eq_true_2).
    exact IH.
Qed.

Lemma unfilled_insert vs i c :
  vs !! i = Some VNone → c ≠ VNone →
  unfilled vs = S (unfilled (<[i:=c]> vs)).
Proof.
  unfold unfilled. revert i.
  induction vs as [|v vs IH]; intros i Hi Hc; [done|].
  destruct i as [|i]; simpl in Hi.
  - injection Hi as ->. change (<[0:=c]> (VNone :: vs)) with (c :: vs).
    rewrite filter_cons_True by done.
    by rewrite filter_cons_False by done.
  - change (<[S i:=c]> (v :: vs)) with (v :: <[i:=c]> vs).
    destruct (decide (v = VNone)).
    + rewrite !filter_cons_True by done. simpl. f_equal. by apply IH.
    + rewrite !filter_cons_False by done. by apply IH.
Qed.

Lemma unfilled_pos vs i : vs !! i = Some VNone → 0 < unfilled vs.
Proof.
  unfold unfilled. revert i.
  induction vs as [|v vs IH]; intros i Hi; [done|].
  destruct i as [|i]; simpl in Hi.
  - injection Hi as ->. rewrite filter_cons_True by done. simpl. lia.
  - destruct (decide (v = VNone)).
    + rewrite filter_cons_True by done. simpl. lia.
    + rewrite filter_cons_False by done. by eapply IH.
Qed.

Lemma unfilled_replicate n : unfilled (replicate n VNone) = n.
Proof.
  unfold unfilled. induction n as [|n IH]; [done|].
  change (replicate (S n) VNone) with (VNone :: replicate n VNone).
  rewrite filter_cons_True by done. simpl. by rewrite IH.
Qed.

Lemma flags_all_true vs :
  forallb id (IterablePipeline.is_not_None <$> vs) = true →
  VBool <$> (IterablePipeline.is_not_None <$> vs)
  = replicate (length vs) (VBool true).
Proof.
  intros Hall.
  by rewrite (forallb_id_replicate _ Hall), fmap_replicate, length_fmap.
Qed.

(** One result reaching the tail under the label of an issued slot. *)
Lemma _iterable_put_data_wrapper_slot token task vs i c p :
  dict_get (IterablePipeline.processing_tasks p) token = Some task →
  IterablePipeline.over_results task = slots_from 0 vs →
  i < length vs →
  IterablePipeline._iterable_put_data_wrapper
    (VLabelData c (label_of token i)) p
  = (inr tt,
     {| IterablePipeline.processing_tasks :=
          dict_set (IterablePipeline.processing_tasks p) token
                   (with_result task vs i c);
        IterablePipeline.forwarded :=
          IterablePipeline.forwarded p
          ++ if IterablePipeline.is_generator_exhausted task
                && bool_decide (unfilled (<[i:=c]> vs) = 0)
             then [aggregate (IterablePipeline.original_data task) token
                             (length vs)]
             else [] |}).
Proof.
  intros Htask Hover Hi.
  unfold IterablePipeline._iterable_put_data_wrapper, py_bind, py_assert.
  simpl. unfold IterablePipeline.lookup_task. rewrite Htask. simpl.
  rewrite Hover.
  pose proof (slots_from_set_old 0 vs i c Hi) as Hset. simpl in Hset.
  rewrite Hset, slots_from_values, <-unfilled_test.
  fold (with_result task vs i c).
  destruct (IterablePipeline.is_generator_exhausted task); simpl.
  - destruct (forallb id _) eqn:Hall; simpl.
    + unfold IterablePipeline.put_func, py_modify,
        IterablePipeline.set_processing_tasks. simpl.
      rewrite (flags_all_true _ Hall), length_insert. done.
    + unfold py_ret, IterablePipeline.set_processing_tasks. simpl.
      by rewrite app_nil_r.
  - unfold py_ret, IterablePipeline.set_processing_tasks. simpl.
    by rewrite app_nil_r.
Qed.

(** Results filling empty slots of a task whose source is exhausted: the
    aggregate leaves with the one that fills the last empty slot. *)
Lemma put_each_fills token puts task vs p :
  dict_get (IterablePipeline.processing_tasks p) token = Some task →
  IterablePipeline.is_generator_exhausted task = true →
  IterablePipeline.over_results task = slots_from 0 vs →
  NoDup puts.*1 →
  Forall (λ r, vs !! r.1 = Some VNone ∧ r.2 ≠ VNone) puts →
  ∃ p',
    put_each token puts p = (inr tt, p')
    ∧ IterablePipeline.forwarded p'
      = IterablePipeline.forwarded p
        ++ if bool_decide (0 < length puts ∧ unfilled vs ≤ length puts)
           then [aggregate (IterablePipeline.original_data task) token
                           (length vs)]
           else [].
Proof.
  revert task vs p.
  induction puts as [|[i c] rest IH]; intros task vs p Htask Hex Hover Hdup Hall.
  - exists p. split; [done|].
    rewrite bool_decide_eq_false_2 by (simpl; lia).
    by rewrite app_nil_r.
  - apply Forall_cons in Hall as [[Hi Hc] Hall]. simpl in Hi, Hc.
    rewrite fmap_cons in Hdup. apply NoDup_cons in Hdup as [Hnotin Hdup].
    simpl in Hnotin.
    pose proof (lookup_lt_Some _ _ _ Hi) as Hlt.
    pose proof (unfilled_insert vs i c Hi Hc) as Hcount.
    cbn [put_each]. unfold py_bind.
    rewrite (_iterable_put_data_wrapper_slot token task vs i c p
               Htask Hover Hlt).
    rewrite Hex. cbn [andb].
    set (p1 := {| IterablePipeline.processing_tasks := _ |}).
    destruct (IH (with_result task vs i c) (<[i:=c]> vs) p1)
      as (p' & Hrun & Hfwd); [apply dict_get_set_eq|done|done|done| |].
    { apply Forall_forall. intros [j cj] Hj.
      rewrite Forall_forall in Hall. destruct (Hall _ Hj) as [Hvj Hcj].
      simpl in *. split; [|done].
      rewrite list_lookup_insert_ne; [done|].
      intros ->. apply Hnotin. apply list_elem_of_fmap. by exists (j, cj). }
    exists p'. split; [done|].
    rewrite Hfwd. unfold p1. simpl. rewrite length_insert.
    rewrite <-(assoc_L (++)). f_equal.
    destruct rest as [|[j cj] rest]; simpl.
    + rewrite app_nil_r. repeat case_bool_decide; try done; lia.
    + apply Forall_cons in Hall as [[Hj _] _]. simpl in Hj.
      assert (<[i:=c]> vs !! j = Some VNone) as Hj'.
      { rewrite list_lookup_insert_ne; [done|].
        intros ->. apply Hnotin. left. }
      apply unfilled_pos in Hj'.
      repeat case_bool_decide; try done; lia.
Qed.

(** X15.  The whole life of a task.  An iterable is taken in, a label is issued
    for each of its elements, and the results, none of them [None], reach
    the tail in any order.  Nothing is forwarded until the last result is
    there; with it one aggregate is forwarded, and only one. *)
Theorem aggregate_is_forwarded_once_in_any_order
        (generate_label : pyval → pyval)
        (get_func : pyval → pyexn + list pyval)
        (data : pyval) (elems ret : list pyval)
        (results : list (nat * pyval)) (j : nat)
        (p : IterablePipeline.IterablePipeline) :
  iter_elems data = Some elems → elems ≠ [] → get_func data = inr ret →
  results.*1 ≡ₚ seq 0 (length elems) →
  Forall (λ r, r.2 ≠ VNone) results →
  ∃ p',
    (IterablePipeline._iterable_get_data_wrapper generate_label get_func data ;;;
     label_each generate_label data elems ;;;
     put_each (generate_label data) (take j results))%py p
    = (inr tt, p')
    ∧ IterablePipeline.forwarded p'
      = IterablePipeline.forwarded p
        ++ if bool_decide (length elems ≤ j)
           then [aggregate data (generate_label data) (length elems)]
           else [].
Proof.
  intros Helems Hne Hget Hperm Hres.
  unfold py_bind.
  rewrite (_iterable_get_data_wrapper_registers _ _ _ _ _ _ Helems Hne Hget).
  set (p1 := IterablePipeline.set_processing_tasks _ p).
  destruct (label_each_from generate_label data elems 0 (drop 1 elems)
              false p1) as (p2 & -> & Htask & Hfwd2).
  { unfold p1. simpl. apply dict_get_set_eq. }
  assert (length results = length elems) as Hlen.
  { rewrite <-(length_fmap fst results), Hperm. apply length_seq. }
  assert (0 < length elems) as Hpos by (destruct elems; [done|simpl; lia]).
  destruct (put_each_fills (generate_label data) (take j results) _
              (replicate (length elems) VNone) p2 Htask)
    as (p' & -> & Hfwd).
  - simpl. rewrite length_drop. apply bool_decide_eq_true_2. lia.
  - done.
  - rewrite fmap_take. eapply sublist_NoDup; [|apply sublist_take].
    rewrite Hperm. apply NoDup_seq.
  - apply Forall_forall. intros r Hr.
    assert (r ∈ results) as Hin.
    { rewrite <-(take_drop j results). apply elem_of_app. by left. }
    rewrite Forall_forall in Hres. split; [|by apply Hres].
    apply lookup_replicate_2.
    assert (r.1 ∈ seq 0 (length elems)) as Hseq.
    { rewrite <-Hperm. apply list_elem_of_fmap. by exists r. }
    apply elem_of_seq in Hseq. lia.
  - exists p'. split; [done|].
    rewrite Hfwd, Hfwd2. unfold p1. simpl. f_equal.
    rewrite unfilled_replicate, length_replicate, length_take, Hlen.
    repeat case_bool_decide; try done; lia.
Qed.

Lemma aggregate_is_forwarded_once_in_any_order_witness :
  IterablePipeline.forwarded (two_of_three empty_pipeline).2 = []
  ∧ IterablePipeline.forwarded (all_three empty_pipeline).2
    = [aggregate input_123 input_123 3].
Proof.
  pose proof (aggregate_is_forwarded_once_in_any_order
                content_label head_get_func input_123
                [VInt 1; VInt 2; VInt 3] [VInt 1; VInt 2; VInt 3]
                [(1, VInt 20); (0, VInt 10); (2, VInt 30)]) as H.
  split.
  - destruct (H 2 empty_pipeline) as (p' & Hrun & Hfwd);
      [reflexivity|discriminate|reflexivity|by_compute|by_compute|].
    assert ((two_of_three empty_pipeline).2 = p') as ->; [|exact Hfwd].
    etrans; [|exact (f_equal snd Hrun)]. reflexivity.
  - destruct (H 3 empty_pipeline) as (p' & Hrun & Hfwd);
      [reflexivity|discriminate|reflexivity|by_compute|by_compute|].
    assert ((all_three empty_pipeline).2 = p') as ->; [|exact Hfwd].
    etrans; [|exact (f_equal snd Hrun)]. reflexivity.
Defined.

Lemma dict_set_holds_value {K V} `{EqDecision K} (d : pydict K V) k v :
  v ∈ dict_values (dict_set d k v).
Proof.
  unfold dict_values. induction d as [|[k0 v0] d IH]; simpl; [left|].
  destruct (decide (k0 = k)); simpl; [left|by right].
Qed.

Lemma dict_set_values_Forall {K V} `{EqDecision K} (P : V → Prop)
      (d : pydict K V) k v :
  Forall P (dict_values d) → P v → Forall P (dict_values (dict_set d k v)).
Proof.
  unfold dict_values. intros Hd Hv.
  induction d as [|[k0 v0] d IH]; simpl in *.
  - by apply Forall_singleton.
  - apply Forall_cons in Hd as [Hv0 Hd].
    destruct (decide (k0 = k)); simpl; apply Forall_cons; auto.
Qed.

Lemma forallb_id_elem_of_false (l : list bool) :
  false ∈ l → forallb id l = false.
Proof.
  induction l as [|b l IH]; [by intros ?%elem_of_nil|].
  intros [<-|Hin]%elem_of_cons; simpl; [done|].
  rewrite IH by done. by destruct b.
Qed.

(** X16.  A result that is [None] completes nothing: whatever the label and the
    state of the pipeline, the call of the tail decorator that brings it
    forwards no aggregate. *)
Theorem none_result_is_never_forwarded
        (label : pyval) (p : IterablePipeline.IterablePipeline) :
  IterablePipeline.forwarded
    (IterablePipeline._iterable_put_data_wrapper (VLabelData VNone label) p).2
  = IterablePipeline.forwarded p.
Proof.
  unfold IterablePipeline._iterable_put_data_wrapper, py_bind, py_assert.
  simpl. unfold IterablePipeline.py_lift.
  destruct (IterablePipeline.subscript label 0) as [e|token]; simpl; [done|].
  unfold IterablePipeline.lookup_task.
  destruct (dict_get _ token) as [task|]; simpl; [|done].
  destruct (IterablePipeline.subscript label 1) as [e|slot]; simpl; [done|].
  destruct (IterablePipeline.is_generator_exhausted task); simpl; [|done].
  rewrite forallb_id_elem_of_false; [done|].
  apply list_elem_of_fmap. exists VNone. split; [done|].
  apply dict_set_holds_value.
Qed.

(** X17.  A task is never removed.  Once it is complete, every further result
    that is not [None] and comes under its token, for whatever slot, makes
    the tail decorator forward one more aggregate, and the registry keeps
    its keys. *)
Theorem completed_task_forwards_again
        (content token slot : pyval)
        (task : IterablePipeline.ProcessingTask)
        (p : IterablePipeline.IterablePipeline) :
  dict_get (IterablePipeline.processing_tasks p) token = Some task →
  IterablePipeline.is_generator_exhausted task = true →
  Forall (λ v, v ≠ VNone)
         (dict_values (IterablePipeline.over_results task)) →
  content ≠ VNone →
  let p' := (IterablePipeline._iterable_put_data_wrapper
               (VLabelData content (VTuple [token; slot])) p).2 in
  IterablePipeline.forwarded p'
  = IterablePipeline.forwarded p
    ++ [aggregate (IterablePipeline.original_data task) token
          (length (dict_set (IterablePipeline.over_results task)
                            slot content))]
  ∧ dict_keys (IterablePipeline.processing_tasks p')
    = dict_keys (IterablePipeline.processing_tasks p).
Proof.
  intros Htask Hex Hall Hc p'. split.
  - apply _iterable_put_data_wrapper_completes; [done..|].
    by apply dict_set_values_Forall.
  - unfold p', IterablePipeline._iterable_put_data_wrapper, py_bind,
      py_assert.
    simpl. unfold IterablePipeline.lookup_task. rewrite Htask. simpl.
    assert (token ∈ dict_keys (IterablePipeline.processing_tasks p)) as Hin.
    { clear -Htask. unfold dict_keys.
      induction (IterablePipeline.processing_tasks p) as [|[k0 v0] d IH];
        simpl in *; [done|].
      destruct (decide (k0 = token)) as [->|]; [left|right; by apply IH]. }
    destruct (_ && _); simpl; rewrite dict_keys_set; by rewrite decide_True.
Qed.

Lemma completed_task_forwards_again_witness :
  IterablePipeline.forwarded
    ((all_three ;;; tail_put (VInt 11) (slot_label 0))%py empty_pipeline).2
  = [aggregate input_123 input_123 3; aggregate input_123 input_123 3].
Proof.
  set (p := (all_three empty_pipeline).2).
  destruct (dict_get (IterablePipeline.processing_tasks p) input_123)
    as [task|] eqn:Htask; [|vm_compute in Htask; discriminate].
  pose proof (completed_task_forwards_again
                (VInt 11) input_123 (VInt 0) task p Htask) as H.
  vm_compute in Htask. injection Htask as <-.
  destruct H as [Hagain _];
    [reflexivity|by_compute|discriminate|].
  etrans; [|etrans; [exact Hagain|]]; reflexivity.
Defined.
